(** * SNAC-DB redundancy curation: a shallow embedding of
      [src/snacdb/curation_redundant.py] and the properties of its core.

    Conventions of the embedding.
    - Python's [int] is [Z].  NumPy's [int64] is a [Z] kept within 64 bits
      by [Numpy.wrap64]; the ranker computes with both, as NumPy 2 mixes
      them (module [Priority]).
    - Python [str] is [string]; a character is a code point below 256.
    - A path is the string [str(Path(...))] gives.  The file system maps
      such paths to nodes, one path for each file: no path has a symbolic
      link or [..] among its proper ancestors.
    - Output on the console ([print]) is not modelled.
    - A Python [set] of ids is a [gset string]; a [dict] keyed by ids is a
      [gmap string _]; a [list] is a [list].
    - Code that can raise returns [result]; [try]/[except] is a handler. *)

From Stdlib Require Import ZArith List Ascii String Bool Lia.
From stdpp Require Import base option list gmap sets strings.

Local Open Scope string_scope.
Local Open Scope list_scope.
Local Open Scope Z_scope.

(** ** Exceptions and results *)

Module Py.

(** The exception classes the modelled operations raise.  All but
    [KeyboardInterrupt] derive from [Exception]. *)
Inductive exn : Set :=
| OSError | FileExistsError | FileNotFoundError
| ValueError | TypeError | IndexError | KeyError | AttributeError
| OverflowError
| CalledProcessError
| KeyboardInterrupt.

Definition is_Exception (e : exn) : bool :=
  match e with KeyboardInterrupt => false | _ => true end.

Inductive result (A : Type) : Type :=
| Ok (a : A)
| Raise (e : exn).
Arguments Ok {A} a.
Arguments Raise {A} e.

Definition bind {A B} (r : result A) (k : A → result B) : result B :=
  match r with Ok a => k a | Raise e => Raise e end.

(** [try: body / except Exception: handler] *)
Definition try_except_Exception {A} (body : result A) (handler : exn → result A)
  : result A :=
  match body with
  | Ok a => Ok a
  | Raise e => if is_Exception e then handler e else Raise e
  end.

(** [try: body / except: handler] (a bare [except] catches everything) *)
Definition try_except {A} (body : result A) (handler : result A) : result A :=
  match body with Ok a => Ok a | Raise _ => handler end.

(** [l[i]] on a list *)
Definition subscript {A} (l : list A) (i : nat) : result A :=
  match l !! i with Some a => Ok a | None => Raise IndexError end.

End Py.

Notation "'let*' x := r 'in' k" := (Py.bind r (fun x => k))
  (at level 10, x pattern, r at level 100, k at level 200, only parsing).

(** ** Python string operations used by the program *)

Module Str.

(** [sub in s] *)
Fixpoint contains (sub s : string) : bool :=
  if String.prefix sub s then true
  else match s with
       | EmptyString => false
       | String _ s' => contains sub s'
       end.

(** [s.split(sep)] for a non-empty [sep]: [cur] is the piece being read,
    [skip] the number of characters of a matched separator still to be
    passed over. *)
Fixpoint split_from (sep : string) (skip : nat) (cur : string) (s : string)
  : list string :=
  match s with
  | EmptyString => [cur]
  | String c s' =>
      match skip with
      | S k => split_from sep k cur s'
      | O =>
          if String.prefix sep s
          then cur :: split_from sep (String.length sep - 1) EmptyString s'
          else split_from sep 0 (String.append cur (String c EmptyString)) s'
      end
  end.

Definition split (sep s : string) : list string :=
  split_from sep 0 EmptyString s.

(** [str.isspace] on a character: TAB, LF, VT, FF, CR, the four
    separators 0x1c-0x1f, the space, NEL (0x85) and the no-break space
    (0xa0). *)
Definition is_space (c : ascii) : bool :=
  let n := nat_of_ascii c in
  ((9 <=? n) && (n <=? 13) || (28 <=? n) && (n <=? 31) || (n =? 32)
   || (n =? 133) || (n =? 160))%nat.

Fixpoint lstrip (s : string) : string :=
  match s with
  | EmptyString => EmptyString
  | String c s' => if is_space c then lstrip s' else s
  end.

Fixpoint rev_onto (s acc : string) : string :=
  match s with
  | EmptyString => acc
  | String c s' => rev_onto s' (String c acc)
  end.

Definition rstrip (s : string) : string :=
  rev_onto (lstrip (rev_onto s EmptyString)) EmptyString.

(** [s.strip()] *)
Definition strip (s : string) : string := rstrip (lstrip s).

Definition digit_val (c : ascii) : option Z :=
  let n := nat_of_ascii c in
  if ((48 <=? n) && (n <=? 57))%nat then Some (Z.of_nat (n - 48)) else None.

(** The digits after the first one: single underscores may separate
    digits; [prev_us] tells that the previous character was one. *)
Fixpoint digits_tail (acc : Z) (prev_us : bool) (s : string) : option Z :=
  match s with
  | EmptyString => if prev_us then None else Some acc
  | String c s' =>
      if Ascii.eqb c "_"%char
      then if prev_us then None else digits_tail acc true s'
      else match digit_val c with
           | Some d => digits_tail (acc * 10 + d) false s'
           | None => None
           end
  end.

Definition digits (s : string) : option Z :=
  match s with
  | EmptyString => None
  | String c s' =>
      match digit_val c with
      | Some d => digits_tail d false s'
      | None => None
      end
  end.

(** POSIX paths as [pathlib] parses them.  The root of a path: [//] for
    exactly two leading slashes, [/] for one or for more than two, none
    for a relative path. *)
Definition path_root (p : string) : string :=
  match p with
  | String "/" (String "/" (String "/" _)) => "/"
  | String "/" (String "/" _) => "//"
  | String "/" _ => "/"
  | _ => ""
  end.

(** The components of a path: the pieces between slashes that are
    neither empty nor a single dot. *)
Definition path_parts (p : string) : list string :=
  List.filter (fun c => negb (String.eqb c "" || String.eqb c "."))
              (split "/" p).

(** [str(PurePosixPath(...))] for a root and components: a path without
    root and components is written as a dot. *)
Definition path_str (root : string) (parts : list string) : string :=
  match root, parts with
  | EmptyString, [] => "."
  | _, _ => String.append root (String.concat "/" parts)
  end.

(** [str(Path(a) / b)]: an absolute [b] replaces [a]. *)
Definition path_join (a b : string) : string :=
  match path_root b with
  | EmptyString => path_str (path_root a) (path_parts a ++ path_parts b)
  | root => path_str root (path_parts b)
  end.

(** [str(Path(p).parent)]: a path without components is its own parent. *)
Definition path_parent (p : string) : string :=
  path_str (path_root p) (removelast (path_parts p)).

(** [str.rfind('.')], as the parts before and after the last dot. *)
Fixpoint split_last_dot (s : string) : option (string * string) :=
  match s with
  | EmptyString => None
  | String c s' =>
      match split_last_dot s' with
      | Some (before, after) => Some (String c before, after)
      | None => if Ascii.eqb c "."%char then Some (EmptyString, s') else None
      end
  end.

(** [PurePosixPath(p).name]: the last component that is neither empty
    nor a single dot. *)
Definition name (p : string) : string :=
  List.last
    (List.filter (fun c => negb (String.eqb c "" || String.eqb c "."))
                 (split "/" p))
    EmptyString.

(** [PurePosixPath(p).stem] (Python 3.13 and before): the name without
    its last suffix; a dot that starts or ends the name opens no suffix. *)
Definition stem (p : string) : string :=
  let n := name p in
  match split_last_dot n with
  | Some (before, after) =>
      if String.eqb before "" || String.eqb after "" then n else before
  | None => n
  end.

(** What [int] passes over around a literal: TAB, LF, VT, FF, CR and the
    space, and NEL and the no-break space, which it reads as spaces.  The
    separators 0x1c-0x1f, whitespace for [str.strip], are not among
    them. *)
Definition is_int_space (c : ascii) : bool :=
  let n := nat_of_ascii c in
  ((9 <=? n) && (n <=? 13) || (n =? 32) || (n =? 133) || (n =? 160))%nat.

Fixpoint lstrip_by (f : ascii → bool) (s : string) : string :=
  match s with
  | EmptyString => EmptyString
  | String c s' => if f c then lstrip_by f s' else s
  end.

Definition strip_by (f : ascii → bool) (s : string) : string :=
  rev_onto (lstrip_by f (rev_onto (lstrip_by f s) EmptyString)) EmptyString.

(** CPython refuses a decimal literal of more than
    [sys.get_int_max_str_digits()] digits, 4300 unless configured
    otherwise; underscores do not count. *)
Definition int_max_str_digits : nat := 4300.
Arguments int_max_str_digits : simpl never.

Fixpoint count_digits (s : string) : nat :=
  match s with
  | EmptyString => O
  | String c s' =>
      match digit_val c with
      | Some _ => S (count_digits s')
      | None => count_digits s'
      end
  end.

(** [int(s)]: surrounding whitespace, an optional sign, decimal digits
    with optional single underscores between them, at most 4300 digits;
    anything else raises [ValueError]. *)
Definition int (s : string) : Py.result Z :=
  let body := strip_by is_int_space s in
  let parsed :=
    match body with
    | String "+"%char r => digits r
    | String "-"%char r => Z.opp <$> digits r
    | _ => digits body
    end in
  match parsed with
  | Some n =>
      if (int_max_str_digits <? count_digits body)%nat
      then Py.Raise Py.ValueError
      else Py.Ok n
  | None => Py.Raise Py.ValueError
  end.

(** Vocabulary for names of the form [<entity>-<TYPE><n>[-suffix]]:
    strings without a dash, strings of decimal digits and their value,
    and the part of a string before its first dash. *)
Fixpoint dash_free (s : string) : bool :=
  match s with
  | EmptyString => true
  | String c s' => negb (Ascii.eqb c "-"%char) && dash_free s'
  end.

Fixpoint slash_free (s : string) : bool :=
  match s with
  | EmptyString => true
  | String c s' => negb (Ascii.eqb c "/"%char) && slash_free s'
  end.

(** A string that can be a component of a path. *)
Definition component (c : string) : bool :=
  slash_free c && negb (String.eqb c "" || String.eqb c ".").

(** The roots a path can have. *)
Definition root_string (r : string) : Prop := r = "" ∨ r = "/" ∨ r = "//".

Fixpoint all_digits (s : string) : bool :=
  match s with
  | EmptyString => true
  | String c s' => bool_decide (is_Some (digit_val c)) && all_digits s'
  end.

Fixpoint decimal_value_from (acc : Z) (s : string) : Z :=
  match s with
  | EmptyString => acc
  | String c s' => decimal_value_from (acc * 10 + default 0 (digit_val c)) s'
  end.

Definition decimal_value (s : string) : Z := decimal_value_from 0 s.

Fixpoint before_dash (s : string) : string :=
  match s with
  | EmptyString => EmptyString
  | String c s' =>
      if Ascii.eqb c "-"%char then EmptyString else String c (before_dash s')
  end.

End Str.

(** ** NumPy arrays, as far as the program observes them *)

Module Numpy.

(** A float64 element: [np.isnan] is the only observation the program
    makes, so a number that is not NaN carries an uninterpreted payload. *)
Inductive float64 : Set := NaN | Num (x : Z).

(** An n-dimensional array: its shape and its elements in row-major
    order ([length data] is the product of [shape]). *)
Record ndarray (A : Type) : Type := mk_ndarray {
  shape : list nat;
  data : list A
}.
Arguments mk_ndarray {A} shape data.
Arguments shape {A} _.
Arguments data {A} _.

Definition prod (dims : list nat) : nat := fold_right Nat.mul 1%nat dims.

(** [len(a)]: the first dimension; a 0-d array has no [len]. *)
Definition len {A} (a : ndarray A) : Py.result Z :=
  match shape a with
  | [] => Py.Raise Py.TypeError
  | n :: _ => Py.Ok (Z.of_nat n)
  end.

(** [a[:, 1, :]]: three indices need at least three axes, and index 1
    needs a second axis of length at least 2.  The result drops the
    second axis; the axes after the third are kept whole. *)
Definition getitem_all_1_all {A} (a : ndarray A) : Py.result (ndarray A) :=
  match shape a with
  | n0 :: n1 :: n2 :: rest =>
      if (1 <? n1)%nat then
        let block := prod (n2 :: rest) in
        Py.Ok (mk_ndarray (n0 :: n2 :: rest)
                 (flat_map (fun i => take block (drop ((i * n1 + 1) * block) (data a)))
                           (seq 0 n0)))
      else Py.Raise Py.IndexError
  | _ => Py.Raise Py.IndexError
  end.

Definition is_nan (x : float64) : bool :=
  match x with NaN => true | Num _ => false end.

(** [np.isnan(a)], element by element *)
Definition isnan (a : ndarray float64) : ndarray bool :=
  mk_ndarray (shape a) (map is_nan (data a)).

(** [a.any(axis=1)]: the second axis is reduced by [or]. *)
Definition any_axis1 (a : ndarray bool) : Py.result (ndarray bool) :=
  match shape a with
  | n0 :: n1 :: rest =>
      let inner := prod rest in
      Py.Ok (mk_ndarray (n0 :: rest)
               (flat_map (fun i =>
                  map (fun k =>
                         existsb (fun j => nth ((i * n1 + j) * inner + k) (data a) false)
                                 (seq 0 n1))
                      (seq 0 inner))
                  (seq 0 n0)))
  | _ => Py.Raise Py.ValueError
  end.

(** [a.sum()] of a boolean array: the number of [True] elements. *)
Definition sum (a : ndarray bool) : Z :=
  Z.of_nat (length (filter (fun b => b = true) (data a))).

(** The range of [int64], and the value a result outside it wraps to. *)
Definition int64_min : Z := - 2 ^ 63.
Definition int64_max : Z := 2 ^ 63 - 1.

Definition in_int64 (z : Z) : bool := (int64_min <=? z) && (z <=? int64_max).

Definition wrap64 (z : Z) : Z := (z + 2 ^ 63) mod 2 ^ 64 - 2 ^ 63.

End Numpy.

(** ** The completeness scorer (lines 12-40) *)

Module Completeness.
Import Py.

#[local] Set Warnings "-register-all".

(** The objects a pickled [.npy] file can hold, as far as modelled: a
    dict is the list of its items in insertion order. *)
Inductive pyobj : Type :=
| PyNone
| PyInt (z : Z)
| PyStr (s : string)
| PyDict (items : list (string * pyobj))
| PyArray (a : Numpy.ndarray Numpy.float64).

(** What [np.load(npy_file, allow_pickle=True).item()] meets: no file,
    a file that cannot be decoded or whose array [.item()] refuses, or
    the object stored.  (Pickles that run code when loaded are outside
    the model.) *)
Inductive npy_file : Type :=
| NoFile
| BadFile
| Item (v : pyobj).

Definition load_item (f : npy_file) : result pyobj :=
  match f with
  | NoFile => Raise FileNotFoundError
  | BadFile => Raise ValueError
  | Item v => Ok v
  end.

(** [data.items()] *)
Definition items (v : pyobj) : result (list (string * pyobj)) :=
  match v with
  | PyDict kvs => Ok kvs
  | _ => Raise AttributeError
  end.

Definition dict_get (kvs : list (string * pyobj)) (k : string) : option pyobj :=
  snd <$> find (fun kv => String.eqb (fst kv) k) kvs.

(** [key in v] for a string [key] *)
Definition contains (key : string) (v : pyobj) : result bool :=
  match v with
  | PyDict kvs => Ok (bool_decide (is_Some (dict_get kvs key)))
  | PyStr s => Ok (Str.contains key s)
  | PyArray _ => Ok false
  | PyNone | PyInt _ => Raise TypeError
  end.

(** [v[key]] for a string [key] *)
Definition getitem (v : pyobj) (key : string) : result pyobj :=
  match v with
  | PyDict kvs =>
      match dict_get kvs key with Some x => Ok x | None => Raise KeyError end
  | PyStr _ => Raise TypeError
  | PyArray _ => Raise IndexError
  | PyNone | PyInt _ => Raise TypeError
  end.

(** [len(v)] *)
Definition len (v : pyobj) : result Z :=
  match v with
  | PyArray a => Numpy.len a
  | PyStr s => Ok (Z.of_nat (String.length s))
  | PyDict kvs => Ok (Z.of_nat (length kvs))
  | PyNone | PyInt _ => Raise TypeError
  end.

(** [np.isnan(v[:, 1, :]).any(axis=1).sum()] *)
Definition missing_ca_count (v : pyobj) : result Z :=
  match v with
  | PyArray coords =>
      let* ca_coords := Numpy.getitem_all_1_all coords in
      let* missing_ca := Numpy.any_axis1 (Numpy.isnan ca_coords) in
      Ok (Numpy.sum missing_ca)
  | PyDict _ => Raise KeyError
  | PyStr _ | PyNone | PyInt _ => Raise TypeError
  end.

(** The [for chain_id, chain_data in data.items()] loop, threading the
    two counters. *)
Fixpoint chains_loop (kvs : list (string * pyobj)) (total_residues missing_residues : Z)
  : result (Z * Z) :=
  match kvs with
  | [] => Ok (total_residues, missing_residues)
  | (chain_id, chain_data) :: rest =>
      let* has := contains "atom37" chain_data in
      if negb has then chains_loop rest total_residues missing_residues
      else
        let* coords := getitem chain_data "atom37" in
        let* n := len coords in
        let total_residues := total_residues + n in
        let* k := missing_ca_count coords in
        let missing_residues := missing_residues + k in
        chains_loop rest total_residues missing_residues
  end.

(** The body of the [try]. *)
Definition completeness_body (f : npy_file) : result (Z * Z) :=
  let* data := load_item f in
  let* kvs := items data in
  chains_loop kvs 0 0.

Definition get_structure_completeness (f : npy_file) : result (Z * Z) :=
  try_except_Exception (completeness_body f) (fun _ => Ok (0, 0)).

(** The malformed inputs: a value that [[:, 1, :]] cannot index (not an
    array, fewer than three axes, or no slot 1 on the second axis) ... *)
Definition unindexable (coords : pyobj) : bool :=
  match coords with
  | PyArray a =>
      match Numpy.shape a with
      | _ :: n1 :: _ :: _ => (n1 <? 2)%nat
      | _ => true
      end
  | _ => true
  end.

(** ... a chain entry that is no container, or whose ['atom37'] value
    is unindexable ... *)
Definition bad_chain (chain_data : pyobj) : bool :=
  match chain_data with
  | PyNone | PyInt _ => true
  | PyStr s => Str.contains "atom37" s
  | PyArray _ => false
  | PyDict kvs =>
      match dict_get kvs "atom37" with
      | Some coords => unindexable coords
      | None => false
      end
  end.

(** ... and a file that cannot be read, does not hold a dict, or holds a
    dict with a bad chain. *)
Definition malformed (f : npy_file) : bool :=
  match f with
  | NoFile | BadFile => true
  | Item (PyDict kvs) => existsb (fun kv => bad_chain (snd kv)) kvs
  | Item _ => true
  end.

(** Every ['atom37'] array of the file has at most [n] axes. *)
Definition chain_ndim_le (n : nat) (chain_data : pyobj) : bool :=
  match chain_data with
  | PyDict fields =>
      match dict_get fields "atom37" with
      | Some (PyArray a) => (length (Numpy.shape a) <=? n)%nat
      | _ => true
      end
  | _ => true
  end.

Definition atom37_ndim_le (n : nat) (f : npy_file) : bool :=
  match f with
  | Item (PyDict kvs) => forallb (fun kv => chain_ndim_le n (snd kv)) kvs
  | _ => true
  end.

(** The layout the data model describes: per residue, 37 atom slots of
    position triples. *)
Definition atom37_layout (a : Numpy.ndarray Numpy.float64) : bool :=
  match Numpy.shape a with
  | [_; n1; n2] => ((n1 =? 37) && (n2 =? 3))%nat
  | _ => false
  end.

(** Some chain of the file carries an ['atom37'] array of another shape. *)
Definition has_wrong_shape (f : npy_file) : bool :=
  match f with
  | Item (PyDict kvs) =>
      existsb (fun kv =>
                 match snd kv with
                 | PyDict fields =>
                     match dict_get fields "atom37" with
                     | Some (PyArray a) => negb (atom37_layout a)
                     | _ => false
                     end
                 | _ => false
                 end) kvs
  | _ => false
  end.

(** What one iteration of the chain loop adds to the counters: nothing
    for a chain without ['atom37'], else [(len(coords), missing)]. *)
Definition chain_contrib (chain_data : pyobj) : result (option (Z * Z)) :=
  let* has := contains "atom37" chain_data in
  if negb has then Ok None
  else
    let* coords := getitem chain_data "atom37" in
    let* n := len coords in
    let* k := missing_ca_count coords in
    Ok (Some (n, k)).

End Completeness.

(** ** The priority ranker (lines 43-81) *)

Module Priority.
Import Py Completeness.

(** The contents of the structure directory as [np.load] sees them. *)
Definition disk : Type := string → npy_file.

(** [struct_name.split(marker)[1].split('-')[0]] *)
Definition instance_text (marker struct_name : string) : result string :=
  let* after := subscript (Str.split marker struct_name) 1 in
  subscript (Str.split "-" after) 0.

(** [Path(path) / f"{struct_name}-atom37.npy"] *)
Definition npy_path (path struct_name : string) : string :=
  Str.path_join path (String.append struct_name "-atom37.npy").

(** The integers the ranker computes with.  [total_residues] is a sum
    of [len(...)], a Python [int]; [missing_residues] starts as the
    Python [int] 0 and becomes a [numpy.int64] with the first
    [+= missing_ca.sum()]. *)
Inductive scalar : Set :=
| Python_int (z : Z)
| Numpy_int64 (z : Z).

Definition value (s : scalar) : Z :=
  match s with Python_int z | Numpy_int64 z => z end.

(** [a + b], [a - b] and [a * b] as NumPy 2 computes them: two Python
    ints give the exact Python int; as soon as one operand is an
    [int64] the result is an [int64], wrapped around on overflow, and a
    Python int operand that does not fit [int64] raises
    [OverflowError]. *)
Definition arith (op : Z → Z → Z) (a b : scalar) : result scalar :=
  match a, b with
  | Python_int x, Python_int y => Ok (Python_int (op x y))
  | Numpy_int64 x, Numpy_int64 y => Ok (Numpy_int64 (Numpy.wrap64 (op x y)))
  | Numpy_int64 x, Python_int y =>
      if Numpy.in_int64 y then Ok (Numpy_int64 (Numpy.wrap64 (op x y)))
      else Raise OverflowError
  | Python_int x, Numpy_int64 y =>
      if Numpy.in_int64 x then Ok (Numpy_int64 (Numpy.wrap64 (op x y)))
      else Raise OverflowError
  end.

(** The chain loop of the scorer with the run-time types of its
    counters; [chain_contrib] is what one iteration adds. *)
Fixpoint chains_loop_typed (kvs : list (string * pyobj))
    (total_residues : Z) (missing_residues : scalar) : result (Z * scalar) :=
  match kvs with
  | [] => Ok (total_residues, missing_residues)
  | (chain_id, chain_data) :: rest =>
      let* added := chain_contrib chain_data in
      match added with
      | None => chains_loop_typed rest total_residues missing_residues
      | Some (n, k) =>
          let total_residues := total_residues + n in
          let* missing_residues :=
            arith Z.add missing_residues (Numpy_int64 (Numpy.wrap64 k)) in
          chains_loop_typed rest total_residues missing_residues
      end
  end.

(** [get_structure_completeness] as the ranker receives its result. *)
Definition get_structure_completeness_typed (f : npy_file) : result (Z * scalar) :=
  try_except_Exception
    (let* data := load_item f in
     let* kvs := items data in
     chains_loop_typed kvs 0 (Python_int 0))
    (fun _ => Ok (0, Python_int 0)).

(** The score is returned as the integer it denotes: the resolver only
    compares scores, and comparisons of Python ints and [int64] values
    are exact. *)
Definition structure_priority (d : disk) (struct_name path : string) : result Z :=
  let npy_file := npy_path path struct_name in
  let* (total_res, missing_res) := get_structure_completeness_typed (d npy_file) in
  let score := Python_int (total_res * 500) in
  let* penalty := arith Z.mul missing_res (Python_int 100) in
  let* score := arith Z.sub score penalty in
  if Str.contains "-BIO" struct_name then
    let* score := arith Z.add score (Python_int 1000) in
    let* score :=
      try_except
        (let* text := instance_text "-BIO" struct_name in
         let* bio_num := Str.int text in
         arith Z.sub score (Python_int bio_num))
        (Ok score) in
    Ok (value score)
  else if Str.contains "-ASU" struct_name then
    let* score := arith Z.add score (Python_int 500) in
    let* score :=
      try_except
        (let* text := instance_text "-ASU" struct_name in
         let* asu_num := Str.int text in
         arith Z.sub score (Python_int asu_num))
        (Ok score) in
    Ok (value score)
  else Ok (value score).

(** The vocabulary of the specification: the variant type a name
    carries, and its instance number when it parses. *)
Inductive variant : Set := BIO | ASU.

Definition marker (v : variant) : string :=
  match v with BIO => "-BIO" | ASU => "-ASU" end.

Definition variant_type (struct_name : string) : option variant :=
  if Str.contains "-BIO" struct_name then Some BIO
  else if Str.contains "-ASU" struct_name then Some ASU
  else None.

Definition instance_number (struct_name : string) : option Z :=
  match variant_type struct_name with
  | Some v =>
      match instance_text (marker v) struct_name with
      | Ok text => match Str.int text with Ok n => Some n | Raise _ => None end
      | Raise _ => None
      end
  | None => None
  end.

(** The counter [m] of the typed loop stands for the count [u] of
    [chains_loop]: it is still the Python int 0, or it is the [int64]
    that [u] wraps to. *)
Definition stands_for (m : scalar) (u : Z) : Prop :=
  (m = Python_int 0 ∧ u = 0) ∨ m = Numpy_int64 (Numpy.wrap64 u).

(** The metrics and the instance number [n] are small enough for the
    ranker's arithmetic to stay within [int64]. *)
Definition fits (total missing n : Z) : Prop :=
  total * 500 + 1000 ≤ Numpy.int64_max ∧ missing * 100 + n ≤ Numpy.int64_max.

(** The bonus of a variant type. *)
Definition bonus (v : option variant) : Z :=
  match v with
  | Some BIO => 1000
  | Some ASU => 500
  | None => 0
  end.

(** A name of the data model: [<entity_id>-<TYPE><n>] followed by
    nothing or by a dash and a suffix. *)
Definition formatted_name (entity_id : string) (v : variant) (n suffix : string)
  : string :=
  String.append entity_id (String.append (marker v) (String.append n suffix)).

End Priority.

(** ** The redundancy resolver (lines 171-183 of the source) *)

Module Resolver.

(** A redundant pair as the parser appends it:
    [(query_id, target_id, max_tm)], for any representation [W] of the
    similarity. *)
Definition pair (W : Type) : Type := (string * string * W)%type.

(** [struct_priority_map.get(s, 0)] *)
Definition get0 (m : gmap string Z) (s : string) : Z := default 0 (m !! s).

(** One iteration of the body of [for query, target, tm_score in
    redundant_pairs]. *)
Definition resolve_step {W} (m : gmap string Z)
    (to_remove : gset string) (e : pair W) : gset string :=
  let '(query, target, _) := e in
  if decide (query ∈ to_remove ∨ target ∈ to_remove) then to_remove
  else if get0 m query >? get0 m target then {[target]} ∪ to_remove
  else {[query]} ∪ to_remove.

(** The loop, threading the mutable set [to_remove]. *)
Fixpoint resolve_loop {W} (m : gmap string Z)
    (to_remove : gset string) (redundant_pairs : list (pair W)) : gset string :=
  match redundant_pairs with
  | [] => to_remove
  | e :: rest => resolve_loop m (resolve_step m to_remove e) rest
  end.

(** [to_remove = set(); for ...: ...; return to_remove] *)
Definition resolve {W} (m : gmap string Z) (redundant_pairs : list (pair W))
  : gset string :=
  resolve_loop m ∅ redundant_pairs.

(** Invariants of the pass on a group [G] whose member [top] has a
    strictly greater priority than every other member, when the pairs
    join distinct members of [G]. *)
Definition within {W} (G : gset string) (e : pair W) : Prop :=
  e.1.1 ≠ e.1.2 ∧ e.1.1 ∈ G ∧ e.1.2 ∈ G.

(** [es] holds a pair joining [x] and [y], in either direction. *)
Definition joined {W} (es : list (pair W)) (x y : string) : Prop :=
  ∃ e, e ∈ es ∧ ((e.1.1 = x ∧ e.1.2 = y) ∨ (e.1.1 = y ∧ e.1.2 = x)).

Definition strict_top (m : gmap string Z) (G : gset string) (top : string) : Prop :=
  top ∈ G ∧ ∀ s, s ∈ G → s ≠ top → get0 m s < get0 m top.

End Resolver.


(** ** The alignment result parser (lines 146-169) *)

Module Parser.
Import Py Resolver.

Section Floats.
(** Python's [float]: its values, the conversion of a string ([None]
    for a string that is no number) and the comparison [a > b].
    [stem] is [Path(s).stem]. *)
Context {F : Type}.
Variable float_of_string : string → option F.
Variable gt : F → F → bool.
Variable stem : string → string.

(** [float(s)] *)
Definition float (s : string) : result F :=
  match float_of_string s with
  | Some x => Ok x
  | None => Raise ValueError
  end.

(** [max(a, b)]: the first argument unless the second is greater. *)
Definition max2 (a b : F) : F := if gt b a then b else a.

(** The [try] block of one row: [None] when nothing is appended. *)
Definition row_scores (tm_threshold : F) (parts : list string)
  : result (option F) :=
  let* p4 := subscript parts 4 in
  let* qtm := float p4 in
  let* p5 := subscript parts 5 in
  let* ttm := float p5 in
  let max_tm := max2 qtm ttm in
  if gt max_tm tm_threshold then Ok (Some max_tm) else Ok None.

(** [except (ValueError, IndexError): continue] *)
Definition except_Value_Index {A} (body : result A) (handler : result A)
  : result A :=
  match body with
  | Raise ValueError | Raise IndexError => handler
  | other => other
  end.

(** One iteration of [for line in f], threading [redundant_pairs]. *)
Definition parse_line (tm_threshold : F) (redundant_pairs : list (pair F))
    (line : string) : result (list (pair F)) :=
  let parts := Str.split (String "009"%char EmptyString) (Str.strip line) in
  if (length parts <? 6)%nat then Ok redundant_pairs
  else
    let* p0 := subscript parts 0 in
    let query_id := stem p0 in
    let* p1 := subscript parts 1 in
    let target_id := stem p1 in
    if String.eqb query_id target_id then Ok redundant_pairs
    else
      except_Value_Index
        (let* r := row_scores tm_threshold parts in
         match r with
         | Some max_tm => Ok (redundant_pairs ++ [(query_id, target_id, max_tm)])
         | None => Ok redundant_pairs
         end)
        (Ok redundant_pairs).

Fixpoint parse_loop (tm_threshold : F) (redundant_pairs : list (pair F))
    (lines : list string) : result (list (pair F)) :=
  match lines with
  | [] => Ok redundant_pairs
  | line :: rest =>
      let* redundant_pairs := parse_line tm_threshold redundant_pairs line in
      parse_loop tm_threshold redundant_pairs rest
  end.

(** [redundant_pairs = []; with open(report_file) as f: for line in f: ...] *)
Definition parse_report (tm_threshold : F) (lines : list string)
  : result (list (pair F)) :=
  parse_loop tm_threshold [] lines.

(** The fields of a row, and the edge a row stands for in the words of
    the specification: at least six fields, distinct ids, both
    similarities numbers, their maximum above the threshold. *)
Definition fields (line : string) : list string :=
  Str.split (String "009"%char EmptyString) (Str.strip line).

Definition row_edge (tm_threshold : F) (line : string) (e : pair F) : Prop :=
  ∃ p0 p1 p4 p5 qtm ttm,
    (6 ≤ length (fields line))%nat ∧
    fields line !! 0%nat = Some p0 ∧ fields line !! 1%nat = Some p1 ∧
    fields line !! 4%nat = Some p4 ∧ fields line !! 5%nat = Some p5 ∧
    stem p0 ≠ stem p1 ∧
    float p4 = Ok qtm ∧ float p5 = Ok ttm ∧
    gt (max2 qtm ttm) tm_threshold = true ∧
    e = (stem p0, stem p1, max2 qtm ttm).

(** A row with at least six fields whose fifth and sixth convert to
    floats: the ids and the two similarities it carries. *)
Definition row_values (line : string) (q t : string) (qtm ttm : F) : Prop :=
  ∃ p0 p1 p4 p5,
    (6 ≤ length (fields line))%nat ∧
    fields line !! 0%nat = Some p0 ∧ fields line !! 1%nat = Some p1 ∧
    fields line !! 4%nat = Some p4 ∧ fields line !! 5%nat = Some p5 ∧
    q = stem p0 ∧ t = stem p1 ∧
    float p4 = Ok qtm ∧ float p5 = Ok ttm.

(** [w] is the greater of [a] and [b], and [a] when neither is
    greater than the other. *)
Definition greater_of (a b w : F) : Prop :=
  (gt b a = true ∧ w = b) ∨ (gt b a = false ∧ w = a).

End Floats.

End Parser.

(** ** The file system and the operations the program performs on it *)

Module Fs.
Import Py Completeness.

(** A file system is a finite map from paths to nodes; the current
    directory is the entry [.] and the root the entry [/].  A symbolic
    link holds the path it leads to.  One path names each file: no path
    has a symbolic link or [..] among its proper ancestors.  Permissions
    are not modelled: an operation fails only for the reasons written
    below. *)
Inductive content : Type :=
| Text (lines : list string)
| Npy (v : pyobj)
| Opaque.

Inductive node : Type :=
| Dir
| File (c : content)
| Symlink (target : string).

(** A computation that reads and writes the file system and returns or
    raises; the file system it leaves is kept in both cases. *)
Definition M (A : Type) : Type :=
  gmap string node → result A * gmap string node.

Definition ret {A} (a : A) : M A := fun fs => (Ok a, fs).

Definition raise {A} (e : exn) : M A := fun fs => (Raise e, fs).

Definition lift {A} (r : result A) : M A := fun fs => (r, fs).

Definition bind {A B} (m : M A) (k : A → M B) : M B :=
  fun fs =>
    match m fs with
    | (Ok a, fs') => k a fs'
    | (Raise e, fs') => (Raise e, fs')
    end.

(** Runs [m] and hands its outcome, returned or raised, to the caller:
    the scrutinee of a [try] statement. *)
Definition attempt {A} (m : M A) : M (result A) :=
  fun fs => let '(r, fs') := m fs in (Ok r, fs').

(** Linux follows at most 40 symbolic links when it resolves a path. *)
Definition MAXSYMLINKS : nat := 40.

(** The node the links at [p] lead to: nothing for a missing path or a
    dangling link, a link when there are too many of them. *)
Fixpoint follow (fs : gmap string node) (fuel : nat) (p : string) : option node :=
  match fs !! p, fuel with
  | Some (Symlink target), S k => follow fs k target
  | other, _ => other
  end.

(** [os.stat(p)] *)
Definition stat (fs : gmap string node) (p : string) : option node :=
  follow fs MAXSYMLINKS p.

(** [p.exists()]: whether [os.stat] finds a file or a directory. *)
Definition exists_ (p : string) : M bool :=
  fun fs =>
    (Ok (match stat fs p with Some Dir | Some (File _) => true | _ => false end),
     fs).

(** [p.exists()] is false. *)
Definition absent (fs : gmap string node) (p : string) : Prop :=
  (exists_ p fs).1 = Ok false.

(** [os.mkdir(p)] and [os.symlink(_, p)] make the entry [p]: the path
    must be free and its parent a directory. *)
Definition create (p : string) (n : node) : M unit :=
  fun fs =>
    match fs !! p with
    | Some _ => (Raise FileExistsError, fs)
    | None =>
        match stat fs (Str.path_parent p) with
        | Some Dir => (Ok tt, <[p := n]> fs)
        | Some _ => (Raise OSError, fs)
        | None => (Raise FileNotFoundError, fs)
        end
    end.

(** [p.mkdir(exist_ok=True)]: a missing parent is an error; any other
    failure is passed over when [p] is a directory, also through
    links. *)
Definition mkdir_exist_ok (p : string) : M unit :=
  fun fs =>
    match create p Dir fs with
    | (Ok _, fs') => (Ok tt, fs')
    | (Raise FileNotFoundError, _) => (Raise FileNotFoundError, fs)
    | (Raise e, _) =>
        match stat fs p with
        | Some Dir => (Ok tt, fs)
        | _ => (Raise e, fs)
        end
    end.

(** [p.mkdir(parents=True, exist_ok=True)]: a missing parent is made
    first, in the same way; [fuel] bounds the number of ancestors. *)
Fixpoint mkdir_parents_from (fuel : nat) (p : string) : M unit :=
  fun fs =>
    match create p Dir fs with
    | (Ok _, fs') => (Ok tt, fs')
    | (Raise FileNotFoundError, _) =>
        if String.eqb (Str.path_parent p) p then (Raise FileNotFoundError, fs)
        else
          match fuel with
          | O => (Raise FileNotFoundError, fs)
          | S k =>
              match mkdir_parents_from k (Str.path_parent p) fs with
              | (Ok _, fs1) => mkdir_exist_ok p fs1
              | (Raise e, fs1) => (Raise e, fs1)
              end
          end
    | (Raise e, _) =>
        match stat fs p with
        | Some Dir => (Ok tt, fs)
        | _ => (Raise e, fs)
        end
    end.

Definition mkdir_parents (p : string) : M unit :=
  mkdir_parents_from (length (Str.path_parts p)) p.

(** [link.symlink_to(target)] *)
Definition symlink_to (link target : string) : M unit :=
  create link (Symlink target).

(** [Path(p).resolve()] makes [p] absolute and resolves the links on
    it.  In the naming of the map, where a path relative to the current
    directory and its absolute form are one name and no link lies on a
    path, it returns [p]. *)
Definition resolve (p : string) : string := p.

(** [p] is [root] or lies below it. *)
Definition under (root p : string) : bool :=
  String.eqb (Str.path_root p) (Str.path_root root)
  && bool_decide (Str.path_parts root `prefix_of` Str.path_parts p).

(** The current directory and the root, which cannot be removed. *)
Definition is_root (p : string) : bool :=
  match Str.path_parts p with [] => true | _ :: _ => false end.

(** [shutil.rmtree(root, ignore_errors=True)]: a directory goes with
    all that lies below it, links inside it as links; a root that is
    missing, a file or a symbolic link is left alone, the error being
    ignored. *)
Definition rmtree (root : string) : M unit :=
  fun fs =>
    match fs !! root with
    | Some Dir =>
        (Ok tt, filter (fun kv => negb (under root kv.1) || is_root kv.1) fs)
    | _ => (Ok tt, fs)
    end.

(** [os.remove(p)]: refuses a directory or a missing path; a link is
    removed itself. *)
Definition remove (p : string) : M unit :=
  fun fs =>
    match fs !! p with
    | Some Dir => (Raise OSError, fs)
    | Some _ => (Ok tt, delete p fs)
    | None => (Raise FileNotFoundError, fs)
    end.

(** [with open(p, 'r') as f: for line in f], as the list of lines. *)
Definition read_lines (p : string) : M (list string) :=
  fun fs =>
    match stat fs p with
    | Some (File (Text lines)) => (Ok lines, fs)
    | Some (File _) => (Raise ValueError, fs)
    | Some _ => (Raise OSError, fs)
    | None => (Raise FileNotFoundError, fs)
    end.

(** The directory as [np.load] sees it. *)
Definition npy_at (fs : gmap string node) : Priority.disk :=
  fun p =>
    match stat fs p with
    | Some (File (Npy v)) => Item v
    | Some _ => BadFile
    | None => NoFile
    end.

(** The same entries are directories in both file systems. *)
Definition same_dirs (fs fs' : gmap string node) : Prop :=
  ∀ p, fs !! p = Some Dir ↔ fs' !! p = Some Dir.

(** The entry at [p] is a directory. *)
Definition is_dir (fs : gmap string node) (p : string) : bool :=
  match fs !! p with Some Dir => true | _ => false end.

Definition is_link (n : node) : bool :=
  match n with Symlink _ => true | _ => false end.

(** How a child process ends: it exits with a return code, leaving the
    file system [after], or it cannot be started at all. *)
Inductive process : Type :=
| Exited (returncode : Z) (after : gmap string node)
| NotStarted.

(** [subprocess.run(cmd, check=True, capture_output=True)] for a
    program whose behaviour is [program]. *)
Definition subprocess_run (program : list string → gmap string node → process)
    (cmd : list string) : M unit :=
  fun fs =>
    match program cmd fs with
    | Exited 0 after => (Ok tt, after)
    | Exited _ after => (Raise CalledProcessError, after)
    | NotStarted => (Raise FileNotFoundError, fs)
    end.

End Fs.

Declare Scope fs_scope.
Delimit Scope fs_scope with fs.
Notation "x <- m ;; k" := (Fs.bind m (fun x => k))
  (at level 100, m at next level, right associativity) : fs_scope.
Notation "m ;; k" := (Fs.bind m (fun _ => k))
  (at level 100, right associativity) : fs_scope.

(** ** The per-group comparison and the group orchestrator
       (lines 84-230) *)

Module Orchestrator.
Import Py Fs Resolver.
Import Str (path_join).

Section Collaborators.
(** Python's floats with [float], [>] and the default threshold
    [0.999]; [Path.stem]; and the FoldSeek executable. *)
Context {F : Type}.
Variable float_of_string : string → option F.
Variable gt : F → F → bool.
Variable stem : string → string.
Variable tm_default : F.
Variable foldseek : list string → gmap string node → process.

Local Open Scope fs_scope.

(** The staging loop: a symlink for every structure whose [.pdb]
    exists, collected in [valid_structures]. *)
Fixpoint stage_loop (abs_path pdb_dir : string)
    (struct_list valid_structures : list string) : M (list string) :=
  match struct_list with
  | [] => ret valid_structures
  | struct :: rest =>
      let pdb_file := path_join abs_path (String.append struct ".pdb") in
      found <- exists_ pdb_file ;;
      if (found : bool) then
        let symlink := path_join pdb_dir (String.append struct ".pdb") in
        symlink_to symlink pdb_file ;;
        stage_loop abs_path pdb_dir rest (valid_structures ++ [struct])
      else stage_loop abs_path pdb_dir rest valid_structures
  end.

(** [{s: structure_priority(s, path) for s in valid_structures}] *)
Fixpoint priority_map (path : string) (valid_structures : list string)
    (m : gmap string Z) : M (gmap string Z) :=
  match valid_structures with
  | [] => ret m
  | s :: rest =>
      p <- (fun fs => (Priority.structure_priority (npy_at fs) s path, fs)) ;;
      priority_map path rest (<[s := p]> m)
  end.

Definition foldseek_cmd (pdb_dir result_prefix foldseek_tmp : string)
  : list string :=
  ["foldseek"; "easy-multimersearch"; pdb_dir; pdb_dir; result_prefix;
   foldseek_tmp; "--format-output";
   "query,target,complexqtmscore,complexttmscore,complexassignid"]%string.

Definition run_foldseek_comparison (struct_list : list string)
    (path tmp_dir : string) (tm_threshold : F) : M (gset string) :=
  if (length struct_list <=? 1)%nat then ret ∅
  else
    first <- lift (subscript struct_list 0) ;;
    before_asu <- lift (subscript (Str.split "-ASU" first) 0) ;;
    pdb_id <- lift (subscript (Str.split "-BIO" before_asu) 0) ;;
    let pdb_tmp := path_join tmp_dir pdb_id in
    mkdir_parents pdb_tmp ;;
    let pdb_dir := path_join pdb_tmp "pdbs" in
    mkdir_exist_ok pdb_dir ;;
    let abs_path := Fs.resolve path in
    valid_structures <- stage_loop abs_path pdb_dir struct_list [] ;;
    if (length valid_structures <=? 1)%nat then
      rmtree pdb_tmp ;; ret ∅
    else
      let result_prefix := path_join pdb_tmp "result" in
      let foldseek_tmp := path_join pdb_tmp "foldseek_tmp" in
      mkdir_exist_ok foldseek_tmp ;;
      ran <- attempt (subprocess_run foldseek
                        (foldseek_cmd pdb_dir result_prefix foldseek_tmp)) ;;
      match ran with
      | Raise CalledProcessError => rmtree pdb_tmp ;; ret ∅
      | Raise e => raise e
      | Ok _ =>
          let report_file := String.append result_prefix "_report" in
          found <- exists_ report_file ;;
          if negb found then rmtree pdb_tmp ;; ret ∅
          else
            lines <- read_lines report_file ;;
            redundant_pairs <-
              lift (Parser.parse_report float_of_string gt stem tm_threshold lines) ;;
            struct_priority_map <- priority_map path valid_structures ∅ ;;
            let to_remove := resolve struct_priority_map redundant_pairs in
            rmtree pdb_tmp ;;
            ret to_remove
      end.

(** The group's temporary directory [pdb_tmp], when the group has a
    first structure. *)
Definition workspace (struct_list : list string) (tmp_dir : string)
  : option string :=
  match struct_list with
  | [] => None
  | first :: _ =>
      pdb_id ← (before_asu ← Str.split "-ASU" first !! 0%nat;
                Str.split "-BIO" before_asu !! 0%nat);
      Some (path_join tmp_dir pdb_id)
  end.

(** The body of the [try] of the deletion loop, up to the append. *)
Definition remove_files (path struct : string) : M unit :=
  let pdb_file := path_join path (String.append struct ".pdb") in
  let npy_file := path_join path (String.append struct "-atom37.npy") in
  found <- exists_ pdb_file ;;
  (if (found : bool) then remove pdb_file else ret tt) ;;
  found <- exists_ npy_file ;;
  (if (found : bool) then remove npy_file else ret tt).

(** The two files backing a structure, and whether one of them is a
    directory, which [os.remove] refuses. *)
Definition pdb_path (path struct : string) : string :=
  path_join path (String.append struct ".pdb").

Definition blocked (path : string) (fs : gmap string node) (struct : string)
  : bool :=
  is_dir fs (pdb_path path struct) || is_dir fs (Priority.npy_path path struct).

(** What a deletion attempt on [s] may do to the file system: delete
    entries that are no directories, at the two paths of [s] only. *)
Definition touches_only (path s : string) (fs fs' : gmap string node) : Prop :=
  same_dirs fs fs' ∧ fs' ⊆ fs ∧
  ∀ p, p ≠ pdb_path path s → p ≠ Priority.npy_path path s → fs' !! p = fs !! p.

(** [for struct in to_remove: try: ...; removed_details.append(struct)
    except Exception: ...] *)
Fixpoint remove_loop (path : string) (to_remove removed_details : list string)
  : M (list string) :=
  match to_remove with
  | [] => ret removed_details
  | struct :: rest =>
      r <- attempt (remove_files path struct) ;;
      match r with
      | Ok _ => remove_loop path rest (removed_details ++ [struct])
      | Raise e =>
          if is_Exception e then remove_loop path rest removed_details
          else raise e
      end
  end.

(** The three summary lines, as data. *)
Inductive summary : Type :=
| OnlyOne (pdb : string)
| Removed (pdb : string) (k n : nat) (ids : list string)
| NoRedundancy (pdb : string) (n : nat).

Definition remove_redundant_data (items : string * list string)
    (path tmp_base_dir : string) : M summary :=
  let '(pdb, struct_list) := items in
  if (length struct_list <=? 1)%nat then ret (OnlyOne pdb)
  else
    to_remove <- run_foldseek_comparison struct_list path tmp_base_dir tm_default ;;
    removed_details <- remove_loop path (elements to_remove) [] ;;
    match removed_details with
    | _ :: _ =>
        ret (Removed pdb (length removed_details) (length struct_list)
               removed_details)
    | [] => ret (NoRedundancy pdb (length struct_list))
    end.

End Collaborators.

End Orchestrator.

(** ** The dataset reconciler (lines 323-336) *)

Module Reconciler.

Section Table.
(** The values of the [Bioassembly] column and their order as pandas
    sorts them. *)
Context {V : Type}.
Variable le_V : V → V → bool.

(** A row of the metadata table: the two columns the program names,
    and the other cells. *)
Record row : Type := mk_row {
  Name : string;
  Bioassembly : V;
  others : list string
}.

(** [df["Name"].isin(leftover_files)], row by row *)
Definition isin (leftover_files : list string) (r : row) : bool :=
  bool_decide (Name r ∈ leftover_files).

(** The order of [by=["Name", "Bioassembly"]]: names first, by code
    point, then the second column. *)
Definition key_le (r1 r2 : row) : bool :=
  if String.eqb (Name r1) (Name r2)
  then le_V (Bioassembly r1) (Bioassembly r2)
  else String.leb (Name r1) (Name r2).

(** [sort_values] on several columns is a stable sort: among rows of
    equal key the earlier one stays first. *)
Fixpoint insert_row (r : row) (sorted : list row) : list row :=
  match sorted with
  | [] => [r]
  | r' :: rest =>
      if key_le r r' then r :: sorted else r' :: insert_row r rest
  end.

Definition sort_values (df : list row) : list row :=
  fold_right insert_row [] df.

(** [df = df[df["Name"].isin(leftover_files)];
    df = df.sort_values(by=["Name", "Bioassembly"])] *)
Definition reconcile (leftover_files : list string) (df : list row)
  : list row :=
  sort_values (List.filter (isin leftover_files) df).

(** Consecutive rows are in key order. *)
Fixpoint sorted (df : list row) : Prop :=
  match df with
  | [] => True
  | r :: rest =>
      match rest with
      | [] => True
      | r' :: _ => key_le r r' = true ∧ sorted rest
      end
  end.

(** The table as [pd.read_csv] returns it.  A cell of the [Name]
    column holds a [str] or a value of another type: pandas gives a
    column all of whose cells read as numbers or as booleans that
    type, and reads a missing cell as NaN. *)
Inductive cell : Type :=
| Str (s : string)
| NotStr.

Record record : Type := mk_record {
  name_cell : cell;
  bioassembly : V;
  other_cells : list string
}.

(** The rows a list of [str] can select: [isin] is false on a cell
    that holds no [str]. *)
Definition str_row (e : record) : option row :=
  match name_cell e with
  | Str s => Some (mk_row s (bioassembly e) (other_cells e))
  | NotStr => None
  end.

Definition str_rows (df : list record) : list row := omap str_row df.

(** Lines 330-335 on the table read. *)
Definition reconcile_frame (leftover_files : list string) (df : list record)
  : list row :=
  reconcile leftover_files (str_rows df).

Section Csv.
(** The contents of a CSV file, [pd.read_csv] and [DataFrame.to_csv]. *)
Context {C : Type}.
Variable read_csv : C → list record.
Variable to_csv : list row → C.

(** Lines 330-336 on the file the run rewrites: without
    [--make_new_dir], [new_csv] is [csv_file]. *)
Definition reconcile_file (leftover_files : list string) (csv_file : C) : C :=
  to_csv (reconcile_frame leftover_files (read_csv csv_file)).

End Csv.

End Table.

Arguments row V : clear implicits.
Arguments record V : clear implicits.
Arguments cell : clear implicits.

End Reconciler.

(** ** Sample inputs *)

Module Samples.
Import Py Numpy Completeness Priority.

(** One residue of a chain in the [(N, 37, 3)] layout: 37 atom slots of
    three coordinates, the CA slot (index 1) holding [ca]. *)
Definition residue (ca : float64) : list float64 :=
  repeat (Num 0) 3 ++ repeat ca 3 ++ repeat (Num 0) 105.

Definition chain_file (coords : ndarray float64) : npy_file :=
  Item (PyDict [("A", PyDict [("atom37", PyArray coords)])]).

(** One resolved residue. *)
Definition one_residue_file : npy_file :=
  chain_file (mk_ndarray [1; 37; 3]%nat (residue (Num 1))).

(** Two residues, the CA atom of the second unresolved. *)
Definition two_residue_file : npy_file :=
  chain_file (mk_ndarray [2; 37; 3]%nat (residue (Num 1) ++ residue NaN)).

(** A tensor without a slot for the CA atom. *)
Definition no_ca_slot_file : npy_file :=
  chain_file (mk_ndarray [2; 1; 3]%nat (repeat (Num 0) 6)).

(** Four-axis tensors of one residue: one without any NaN, one whose
    every element is NaN. *)
Definition full_tensor_4d : npy_file :=
  chain_file (mk_ndarray [1; 2; 3; 2]%nat (repeat (Num 0) 12)).

Definition nan_tensor_4d : npy_file :=
  chain_file (mk_ndarray [1; 2; 3; 2]%nat (repeat NaN 12)).

(** A structure directory given by the list of its coordinate files. *)
Fixpoint disk_of (files : list (string * npy_file)) : disk :=
  fun p =>
    match files with
    | [] => NoFile
    | (q, f) :: rest => if String.eqb p q then f else disk_of rest p
    end.

(** A bioassembly of one residue numbered 102 next to an asymmetric
    unit of two residues, one of them unresolved. *)
Definition disk_bio102 : disk :=
  disk_of [("db/7XYZ-BIO102-atom37.npy", one_residue_file);
           ("db/7XYZ-ASU1-atom37.npy", two_residue_file)].

(** A bioassembly of two residues whose instance number, ten to the
    power 19, exceeds the range of [int64]. *)
Definition disk_bio_huge : disk :=
  disk_of [("db/7XYZ-BIO10000000000000000000-atom37.npy", two_residue_file)].

(** The same pair with the bioassembly numbered 1. *)
Definition disk_bio1 : disk :=
  disk_of [("db/7XYZ-BIO1-atom37.npy", one_residue_file);
           ("db/7XYZ-ASU1-atom37.npy", two_residue_file)].

(** A stand-in for Python's floats on short decimal literals
    [digits.digits] (at most six decimals): the value in millionths.
    Doubles order such literals as their values do. *)
Fixpoint pad6 (frac : string) (n : nat) : option string :=
  match n, frac with
  | O, EmptyString => Some EmptyString
  | O, String _ _ => None
  | S k, EmptyString => String "0"%char <$> pad6 EmptyString k
  | S k, String c rest => String c <$> pad6 rest k
  end.

Definition decimal (s : string) : option Z :=
  match Str.split "." s with
  | [whole] => (fun w => w * 1000000) <$> Str.digits whole
  | [whole; frac] =>
      w ← Str.digits whole;
      padded ← pad6 frac 6;
      f ← Str.digits padded;
      Some (w * 1000000 + f)
  | _ => None
  end.

(** The default threshold [0.999] in that unit. *)
Definition threshold_999 : Z := 999000.

Definition tab : string := String "009"%char EmptyString.

Definition report_row (q t qtm ttm : string) : string :=
  String.concat tab [q; t; "A"; "A"; qtm; ttm; "1"; "0"; "0"]%string.

(** The group of the specification's scenario, on two residues: three
    structures with their geometry and coordinate files. *)
Definition group_1ABC : list string :=
  ["1ABC-ASU1"; "1ABC-BIO1"; "1ABC-BIO2"]%string.

Definition full_file : Completeness.npy_file :=
  chain_file (mk_ndarray [2; 37; 3]%nat (residue (Num 1) ++ residue (Num 1))).

Definition npy_node (f : Completeness.npy_file) : Fs.node :=
  match f with
  | Item v => Fs.File (Fs.Npy v)
  | _ => Fs.File Fs.Opaque
  end.

Definition fs_1ABC : gmap string Fs.node :=
  list_to_map
    [("db", Fs.Dir);
     ("db/1ABC-ASU1.pdb", Fs.File Fs.Opaque);
     ("db/1ABC-BIO1.pdb", Fs.File Fs.Opaque);
     ("db/1ABC-BIO2.pdb", Fs.File Fs.Opaque);
     ("db/1ABC-ASU1-atom37.npy", npy_node full_file);
     ("db/1ABC-BIO1-atom37.npy", npy_node full_file);
     ("db/1ABC-BIO2-atom37.npy", npy_node two_residue_file);
     ("db/foldseek_tmp", Fs.Dir)]%string.

(** A FoldSeek that finds the three structures mutually identical and
    writes its report next to the result prefix (argument 4). *)
Definition report_1ABC : list string :=
  [report_row "1ABC-ASU1.pdb" "1ABC-ASU1.pdb" "1.0000" "1.0000";
   report_row "1ABC-ASU1.pdb" "1ABC-BIO2.pdb" "0.9995" "1.0000";
   report_row "1ABC-BIO2.pdb" "1ABC-BIO1.pdb" "1.0000" "0.9991";
   report_row "1ABC-ASU1.pdb" "1ABC-BIO1.pdb" "0.9993" "0.9992"]%string.

Definition foldseek_writes (report : list string)
    (cmd : list string) (fs : gmap string Fs.node) : Fs.process :=
  match cmd !! 4%nat with
  | Some result_prefix =>
      Fs.Exited 0
        (<[String.append result_prefix "_report" := Fs.File (Fs.Text report)]> fs)
  | None => Fs.Exited 1 fs
  end.

(** A FoldSeek that is not installed. *)
Definition foldseek_missing (cmd : list string) (fs : gmap string Fs.node)
  : Fs.process := Fs.NotStarted.

(** A FoldSeek that reports a structure of which the directory holds no
    file. *)
Definition report_ghost : list string :=
  [report_row "1ABC-GHOST.pdb" "1ABC-BIO1.pdb" "1.0000" "1.0000"]%string.

(** The priorities and the redundant pairs of that scenario. *)
Definition priorities_1ABC : gmap string Z :=
  list_to_map [("1ABC-ASU1", 1499); ("1ABC-BIO1", 1999); ("1ABC-BIO2", 1898)]%string.

Definition pairs_1ABC : list (Resolver.pair Z) :=
  [("1ABC-ASU1", "1ABC-BIO2", 1000000);
   ("1ABC-BIO2", "1ABC-BIO1", 1000000);
   ("1ABC-ASU1", "1ABC-BIO1", 999300)]%string.

(** A metadata table of four rows, out of order, and the ids left on
    disk. *)
Definition table_1ABC : list (Reconciler.row Z) :=
  [Reconciler.mk_row "1ABC-BIO2" 2 ["x"];
   Reconciler.mk_row "1ABC-BIO1" 1 ["y"];
   Reconciler.mk_row "1ABC-ASU1" 0 ["z"];
   Reconciler.mk_row "1ABC-BIO1" 0 ["w"]]%string.

Definition left_1ABC : list string := ["1ABC-BIO1"; "1ABC-ASU1"]%string.

(** The same table as [pd.read_csv] returns it: the names are [str]. *)
Definition frame_1ABC : list (Reconciler.record Z) :=
  map (fun r => Reconciler.mk_record (Reconciler.Str (Reconciler.Name r))
                  (Reconciler.Bioassembly r) (Reconciler.others r))
      table_1ABC.

(** A stand-in for a CSV file and for pandas' reading and writing of
    it, on tables whose names are identifiers or decimal integers: the
    file holds the rows with their names as text; a [Name] column all of
    whose cells are decimal integers is read as integers, any other
    column as [str]. *)
Definition csv : Type := list (Reconciler.row Z).

Definition to_csv (df : list (Reconciler.row Z)) : csv := df.

Definition integer_literal (s : string) : bool :=
  Str.all_digits s && negb (String.eqb s "").

Definition read_csv (file : csv) : list (Reconciler.record Z) :=
  let numeric := forallb (fun r => integer_literal (Reconciler.Name r)) file in
  map (fun r =>
         Reconciler.mk_record
           (if numeric then Reconciler.NotStr else Reconciler.Str (Reconciler.Name r))
           (Reconciler.Bioassembly r) (Reconciler.others r))
      file.

(** A table with an untyped structure named by digits only, and the
    directory after the structure [7XYZ-ASU1] has gone. *)
Definition csv_digits : csv :=
  [Reconciler.mk_row "7XYZ-ASU1" 0 ["a"];
   Reconciler.mk_row "1234" 1 ["b"]]%string.

Definition left_digits : list string := ["1234"]%string.

End Samples.

(** ** Vocabulary for the further properties *)

Module CompletenessSpec.
Import Py Numpy Completeness.

(** Residue [i] of an array of shape [(n0, n1, n2)] is unresolved: some
    coordinate of its atom slot 1 (the CA atom) is NaN. *)
Definition ca_unresolved (a : ndarray float64) (n1 n2 i : nat) : bool :=
  existsb (fun k => is_nan (nth ((i * n1 + 1) * n2 + k) (data a) (Num 0)))
          (seq 0 n2).

Definition unresolved_residues (a : ndarray float64) (n0 n1 n2 : nat) : Z :=
  Z.of_nat (length (List.filter (ca_unresolved a n1 n2) (seq 0 n0))).

(** The counters one chain brings, and their sums over the chains. *)
Definition chain_counts (chain_data : pyobj) : Z * Z :=
  match chain_contrib chain_data with
  | Ok (Some nk) => nk
  | _ => (0, 0)
  end.

Definition total_of (kvs : list (string * pyobj)) : Z :=
  fold_right (fun kv acc => (chain_counts (snd kv)).1 + acc) 0 kvs.

Definition missing_of (kvs : list (string * pyobj)) : Z :=
  fold_right (fun kv acc => (chain_counts (snd kv)).2 + acc) 0 kvs.

End CompletenessSpec.

Module OrchestratorSpec.
Import Fs.

(** [fs'] agrees with [fs] on every path that is neither [ws] nor below
    it. *)
Definition same_outside (ws : string) (fs fs' : gmap string node) : Prop :=
  ∀ p, under ws p = false → fs' !! p = fs !! p.

(** A program that, run on [cmd], leaves the directory [ws] a
    directory. *)
Definition keeps_directory (ws : string)
    (program : list string → gmap string node → process) (cmd : list string)
  : Prop :=
  ∀ fs code after,
    program cmd fs = Exited code after → fs !! ws = Some Dir → after !! ws = Some Dir.

(** No symbolic link lies at [ws] or below it. *)
Definition link_free_under (ws : string) (fs : gmap string node) : bool :=
  forallb (fun kv => negb (under ws kv.1 && is_link kv.2)) (map_to_list fs).

(** Names of structures as the entry point finds them: stems of file
    names, without a slash. *)
Definition plain_names (struct_list : list string) : bool :=
  forallb Str.slash_free struct_list.

(** [fs'] has the entries of [fs] and, besides, directories only. *)
Definition adds_dirs (fs fs' : gmap string node) : Prop :=
  fs ⊆ fs' ∧ ∀ q, fs !! q = None → fs' !! q = None ∨ fs' !! q = Some Dir.

(** A program that, run on [cmd], changes nothing outside [ws]. *)
Definition confined (ws : string)
    (program : list string → gmap string node → process) (cmd : list string)
  : Prop :=
  ∀ fs, match program cmd fs with
        | Exited _ after => same_outside ws fs after
        | NotStarted => True
        end.

End OrchestratorSpec.

(** ** The entry point (lines 233-345): paths, groups, table *)

Module Main.
Import Py.

(** [s.lstrip(c)] and [s.rstrip(c)] for one character [c] *)
Fixpoint lstrip_char (c : ascii) (s : string) : string :=
  match s with
  | EmptyString => EmptyString
  | String x s' => if Ascii.eqb x c then lstrip_char c s' else s
  end.

Definition rstrip_char (c : ascii) (s : string) : string :=
  Str.rev_onto (lstrip_char c (Str.rev_onto s EmptyString)) EmptyString.

(** [sep.join(pieces)] *)
Fixpoint join (sep : string) (pieces : list string) : string :=
  match pieces with
  | [] => EmptyString
  | piece :: rest =>
      match rest with
      | [] => piece
      | _ :: _ => String.append piece (String.append sep (join sep rest))
      end
  end.

(** The command line, as far as the path computations read it. *)
Record arguments : Type := mk_arguments {
  input_dir : string;
  input_csv : string;
  make_new_dir : bool
}.

(** [p if "/" in p else "./" + p] *)
Definition with_dir (p : string) : string :=
  if Str.contains "/" p then p else String.append "./" p.

Definition pdb_folder (args : arguments) : string :=
  with_dir (rstrip_char "/" (input_dir args)).

Definition csv_file (args : arguments) : string :=
  with_dir (input_csv args).

(** ["_".join(pdb_folder.split("_")[:-1])] *)
Definition original (args : arguments) : string :=
  join "_" (removelast (Str.split "_" (pdb_folder args))).

Definition new_folder (args : arguments) : string :=
  if make_new_dir args then String.append (original args) "_curated"
  else pdb_folder args.

Definition new_csv (args : arguments) : string :=
  if make_new_dir args then String.append (original args) "_curation_summary.csv"
  else csv_file args.

(** The PDB id of a structure (lines 288-294). *)
Definition group_key (struct : string) : result string :=
  if Str.contains "-ASU" struct then subscript (Str.split "-ASU" struct) 0
  else if Str.contains "-BIO" struct then subscript (Str.split "-BIO" struct) 0
  else Ok struct.

(** [master_dict], a dict in insertion order: the update of lines
    296-299. *)
Fixpoint dict_append (master_dict : list (string * list string))
    (pdb struct : string) : list (string * list string) :=
  match master_dict with
  | [] => [(pdb, [struct])]
  | (k, l) :: rest =>
      if String.eqb k pdb then (k, l ++ [struct]) :: rest
      else (k, l) :: dict_append rest pdb struct
  end.

(** [master_dict[pdb]] when present *)
Fixpoint dict_lookup (master_dict : list (string * list string)) (pdb : string)
  : option (list string) :=
  match master_dict with
  | [] => None
  | (k, l) :: rest => if String.eqb k pdb then Some l else dict_lookup rest pdb
  end.

Section Stem.
(** [Path(file).stem] *)
Variable stem : string → string.

(** The loop of lines 286-299 over the sorted [.pdb] paths. *)
Fixpoint group_loop (pdb_files : list string)
    (master_dict : list (string * list string))
  : result (list (string * list string)) :=
  match pdb_files with
  | [] => Ok master_dict
  | file :: rest =>
      let struct := stem file in
      let* pdb := group_key struct in
      group_loop rest (dict_append master_dict pdb struct)
  end.

Definition group_structures (pdb_files : list string)
  : result (list (string * list string)) :=
  group_loop pdb_files [].

End Stem.

(** The structures of a list whose PDB id is [pdb], in order. *)
Definition has_key (pdb struct : string) : bool :=
  match group_key struct with
  | Ok k => String.eqb k pdb
  | Raise _ => false
  end.

Definition members (pdb : string) (structs : list string) : list string :=
  List.filter (has_key pdb) structs.

(** The dict built so far holds, for every PDB id, the structures read
    so far that carry it. *)
Definition grouped (md : list (string * list string)) (structs : list string)
  : Prop :=
  NoDup (map fst md) ∧
  list_sum (map (fun kv => length (snd kv)) md) = length structs ∧
  ∀ k, dict_lookup md k =
       match members k structs with [] => None | l => Some l end.

End Main.

Module ReconcilerSpec.
Import Reconciler.

Section Table.
Context {V : Type}.
Variable le_V : V → V → bool.


End Table.

End ReconcilerSpec.

Module MoreSamples.
Import Py Numpy Completeness Samples.

(** Two chains: one resolved residue, and two residues of which the
    second lacks its CA atom. *)
Definition chain_A : pyobj :=
  PyDict [("atom37", PyArray (mk_ndarray [1; 37; 3]%nat (residue (Num 1))))].

Definition two_residues : ndarray float64 :=
  mk_ndarray [2; 37; 3]%nat (residue (Num 1) ++ residue NaN).

Definition chain_B : pyobj := PyDict [("atom37", PyArray two_residues)].

(** The comparison of the scenario, and the state it leaves. *)
Definition compared_1ABC : result (gset string) * gmap string Fs.node :=
  Orchestrator.run_foldseek_comparison decimal Z.gtb Str.stem
    (foldseek_writes report_1ABC) group_1ABC "db" "db/foldseek_tmp"
    threshold_999 fs_1ABC.

(** A FoldSeek that exits with code 1 and writes nothing. *)
Definition foldseek_fails (cmd : list string) (fs : gmap string Fs.node)
  : Fs.process := Fs.Exited 1 fs.

End MoreSamples.
(** ** Theorems *)

Section ListFacts.
Context {A : Type}.


End ListFacts.

Section ResolverFacts.
Import Resolver.
Context {W : Type}.
Implicit Types (m : gmap string Z) (R : gset string) (es : list (pair W)).

Lemma resolve_loop_app m R es es' :
  resolve_loop m R (es ++ es') = resolve_loop m (resolve_loop m R es) es'.
Proof. revert R. induction es as [|e es IH]; intros R; simpl; auto. Qed.

Lemma resolve_step_mono m R (e : pair W) : R ⊆ resolve_step m R e.
Proof.
  destruct e as [[q t] w]. unfold resolve_step.
  case_decide; [set_solver|]. destruct (_ >? _); set_solver.
Qed.

Lemma resolve_loop_mono m R es : R ⊆ resolve_loop m R es.
Proof.
  revert R. induction es as [|e es IH]; intros R; simpl; [set_solver|].
  etrans; [apply (resolve_step_mono m R e)|apply IH].
Qed.

Lemma resolve_snoc m es (e : pair W) :
  resolve m (es ++ [e]) = resolve_step m (resolve m es) e.
Proof. unfold resolve. by rewrite resolve_loop_app. Qed.

Lemma resolve_take_S m es i (e : pair W) :
  es !! i = Some e →
  resolve m (take (S i) es) = resolve_step m (resolve m (take i es)) e.
Proof.
  intros He. rewrite (take_S_r _ _ _ He). apply resolve_snoc.
Qed.

Lemma resolve_take_mono m es (i j : nat) :
  (i ≤ j)%nat → resolve m (take i es) ⊆ resolve m (take j es).
Proof.
  intros Hij. unfold resolve.
  replace (take j es) with (take i es ++ take (j - i) (drop i es)).
  - rewrite resolve_loop_app. apply resolve_loop_mono.
  - rewrite take_take_drop. f_equal. lia.
Qed.

End ResolverFacts.

Section ResolverClaims.
Import Resolver.
Context {W : Type}.
Implicit Types (m : gmap string Z) (R G : gset string) (es : list (pair W)).


Lemma resolve_step_keeps_top m G top R (e : pair W) :
  strict_top m G top → within G e → top ∉ R → R ⊆ G →
  (top ∉ resolve_step m R e) ∧ (resolve_step m R e ⊆ G).
Proof.
  intros [Htop Hmax] (Hne & Hq & Ht) HR HG.
  destruct e as [[q t] w]; simpl in *. unfold resolve_step.
  case_decide; [done|].
  destruct (get0 m q >? get0 m t) eqn:Hcmp.
  - split; [|set_solver]. intros Hin.
    assert (t = top) as Heq by set_solver. subst t.
    specialize (Hmax q Hq Hne). lia.
  - split; [|set_solver]. intros Hin.
    assert (q = top) as Heq by set_solver. subst q.
    assert (t ≠ top) as Hne' by congruence.
    specialize (Hmax t Ht Hne'). lia.
Qed.

Lemma resolve_loop_keeps_top m G top es : ∀ R,
  strict_top m G top → Forall (within G) es → top ∉ R → R ⊆ G →
  (top ∉ resolve_loop m R es) ∧ (resolve_loop m R es ⊆ G).
Proof.
  induction es as [|e es IH]; intros R Htop Hes HR HG; simpl; [done|].
  inversion Hes as [|? ? He Hes']; subst.
  destruct (resolve_step_keeps_top m G top R e Htop He HR HG) as [H1 H2].
  by apply IH.
Qed.

Lemma resolve_step_beats m G top R (e : pair W) s :
  strict_top m G top → s ∈ G → s ≠ top → top ∉ R →
  (e.1.1 = top ∧ e.1.2 = s) ∨ (e.1.1 = s ∧ e.1.2 = top) →
  s ∈ resolve_step m R e.
Proof.
  intros [Htop Hmax] Hs Hne HR He. specialize (Hmax s Hs Hne).
  destruct e as [[q t] w]; simpl in *. unfold resolve_step.
  case_decide as Hin; [set_solver|].
  destruct He as [[-> ->]|[-> ->]].
  - assert ((get0 m top >? get0 m s) = true) as -> by lia. set_solver.
  - assert ((get0 m s >? get0 m top) = false) as -> by lia. set_solver.
Qed.

Lemma resolve_loop_beats m G top es s : ∀ R,
  strict_top m G top → Forall (within G) es → top ∉ R → R ⊆ G →
  s ∈ G → s ≠ top → joined es top s →
  s ∈ resolve_loop m R es.
Proof.
  induction es as [|e es IH]; intros R Htop Hes HR HG Hs Hne (e' & Hin & He').
  { by apply elem_of_nil in Hin. }
  inversion Hes as [|? ? He Hes']; subst. simpl.
  destruct (resolve_step_keeps_top m G top R e Htop He HR HG) as [H1 H2].
  apply elem_of_cons in Hin as [->|Hin].
  - apply (resolve_loop_mono m _ es).
    by apply (resolve_step_beats m G top).
  - apply IH; try done. by exists e'.
Qed.

(** On a group whose every other member is joined to the strict top, the
    pass removes everybody but the top. *)
Lemma resolve_star m G top es :
  strict_top m G top → Forall (within G) es →
  (∀ s, s ∈ G → s ≠ top → joined es top s) →
  resolve m es = G ∖ {[top]}.
Proof.
  intros Htop Hes Hall. unfold resolve.
  destruct (resolve_loop_keeps_top m G top es ∅ Htop Hes) as [H1 H2];
    [set_solver..|].
  apply set_eq. intros s. split.
  - intros Hs. apply elem_of_difference. split; [by apply H2|].
    intros ->%elem_of_singleton. done.
  - intros [Hs Hne]%elem_of_difference.
    apply (resolve_loop_beats m G top); try done; [set_solver..|].
    apply Hall; set_solver.
Qed.

Lemma joined_perm es es' x y : es' ≡ₚ es → joined es x y → joined es' x y.
Proof.
  intros Hp (e & Hin & He). exists e. split; [|done]. by rewrite Hp.
Qed.

(** C2.  A group of three structures [x], [y], [z] with pairwise distinct
    priorities, [top] being the one of maximum priority; the pairs join
    distinct members of the group and every two members are joined by
    some pair.  Then the removal set is the group without [top], it has
    two elements, and every permutation of the pair list gives the same
    removal set. *)
Theorem C2_three_clique_keeps_top m (x y z top : string) es :
  get0 m x ≠ get0 m y → get0 m x ≠ get0 m z → get0 m y ≠ get0 m z →
  top ∈ ({[x; y; z]} : gset string) →
  (∀ s, s ∈ ({[x; y; z]} : gset string) → get0 m s ≤ get0 m top) →
  Forall (within {[x; y; z]}) es →
  joined es x y → joined es x z → joined es y z →
  (resolve m es = {[x; y; z]} ∖ {[top]}) ∧
  size (resolve m es) = 2%nat ∧
  ∀ es', es' ≡ₚ es → resolve m es' = resolve m es.
Proof.
  intros Hxy Hxz Hyz Htop Hmax Hes Jxy Jxz Jyz.
  assert (x ≠ y) as Nxy by congruence.
  assert (x ≠ z) as Nxz by congruence.
  assert (y ≠ z) as Nyz by congruence.
  assert (strict_top m {[x; y; z]} top) as Hstrict.
  { split; [done|]. intros s Hs Hne. specialize (Hmax s Hs).
    assert (get0 m s ≠ get0 m top); [|lia].
    set_unfold in Hs. set_unfold in Htop.
    destruct Hs as [ [Hs | Hs] | Hs]; destruct Htop as [ [Ht | Ht] | Ht];
      subst; congruence. }
  assert (∀ a b, joined es a b → joined es b a) as Jsym.
  { intros a b (e & ? & ?). exists e. tauto. }
  assert (∀ es', es' ≡ₚ es → resolve m es' = {[x; y; z]} ∖ {[top]}) as Hgen.
  { intros es' Hp. apply resolve_star; [done|by rewrite Hp|].
    intros s Hs Hne. apply (joined_perm es es' _ _ Hp).
    set_unfold in Hs. set_unfold in Htop.
    destruct Hs as [ [Hs | Hs] | Hs]; destruct Htop as [ [Ht | Ht] | Ht];
      subst; try congruence; auto. }
  split; [by apply Hgen|]. split.
  - rewrite (Hgen es) by done.
    set_unfold in Htop. destruct Htop as [ [Ht | Ht] | Ht]; subst top.
    + replace ({[x; y; z]} ∖ {[x]} : gset string) with ({[y; z]} : gset string)
        by set_solver.
      rewrite size_union by set_solver. by rewrite !size_singleton.
    + replace ({[x; y; z]} ∖ {[y]} : gset string) with ({[x; z]} : gset string)
        by set_solver.
      rewrite size_union by set_solver. by rewrite !size_singleton.
    + replace ({[x; y; z]} ∖ {[z]} : gset string) with ({[x; y]} : gset string)
        by set_solver.
      rewrite size_union by set_solver. by rewrite !size_singleton.
  - intros es' Hp. rewrite (Hgen es') by done. by rewrite (Hgen es).
Qed.

End ResolverClaims.

(** ** The completeness scorer *)

Section CompletenessFacts.
Import Py Numpy Completeness.

Lemma chains_loop_cons chain_id chain_data rest t m :
  chains_loop ((chain_id, chain_data) :: rest) t m =
  let* r := chain_contrib chain_data in
  match r with
  | None => chains_loop rest t m
  | Some (n, k) => chains_loop rest (t + n) (m + k)
  end.
Proof.
  simpl. unfold chain_contrib.
  destruct (contains "atom37" chain_data) as [has|e]; simpl; [|done].
  destruct has; simpl; [|done].
  destruct (getitem chain_data "atom37") as [coords|e]; simpl; [|done].
  destruct (Completeness.len coords) as [n|e]; simpl; [|done].
  destruct (missing_ca_count coords) as [k|e]; simpl; done.
Qed.

Lemma numpy_len_exn {A} (a : ndarray A) e :
  Numpy.len a = Raise e → is_Exception e = true.
Proof. unfold Numpy.len. destruct (shape a); intros [= <-]; done. Qed.

Lemma getitem_all_1_all_exn {A} (a : ndarray A) e :
  getitem_all_1_all a = Raise e → is_Exception e = true.
Proof.
  unfold getitem_all_1_all.
  destruct (shape a) as [|n0 [|n1 [|n2 rest]]]; try (intros [= <-]; done).
  destruct (1 <? n1)%nat; intros [= <-]; done.
Qed.

Lemma any_axis1_exn (a : ndarray bool) e :
  any_axis1 a = Raise e → is_Exception e = true.
Proof.
  unfold any_axis1.
  destruct (shape a) as [|n0 [|n1 rest]]; intros [= <-]; done.
Qed.

Lemma missing_ca_count_exn v e :
  missing_ca_count v = Raise e → is_Exception e = true.
Proof.
  destruct v as [| | | |a]; simpl; try (intros [= <-]; done).
  destruct (getitem_all_1_all a) as [ca|e'] eqn:Hca; simpl.
  - destruct (any_axis1 (isnan ca)) as [r|e''] eqn:Hany; simpl; [done|].
    intros [= <-]. by apply (any_axis1_exn _ _ Hany).
  - intros [= <-]. by apply (getitem_all_1_all_exn _ _ Hca).
Qed.

Lemma chain_contrib_exn chain_data e :
  chain_contrib chain_data = Raise e → is_Exception e = true.
Proof.
  unfold chain_contrib.
  destruct (contains "atom37" chain_data) as [has|e'] eqn:Hc; simpl.
  2:{ intros [= <-]. destruct chain_data; simpl in Hc; by inversion Hc. }
  destruct has; simpl; [|done].
  destruct (getitem chain_data "atom37") as [coords|e'] eqn:Hg; simpl.
  2:{ intros [= <-]. destruct chain_data; simpl in Hg; try by inversion Hg.
      destruct (dict_get _ _); by inversion Hg. }
  destruct (Completeness.len coords) as [n|e'] eqn:Hl; simpl.
  2:{ intros [= <-]. destruct coords; simpl in Hl; try by inversion Hl.
      by apply (numpy_len_exn _ _ Hl). }
  destruct (missing_ca_count coords) as [k|e'] eqn:Hm; simpl; [done|].
  intros [= <-]. by apply (missing_ca_count_exn _ _ Hm).
Qed.

Lemma chains_loop_exn kvs : ∀ t m e,
  chains_loop kvs t m = Raise e → is_Exception e = true.
Proof.
  induction kvs as [|[c d] rest IH]; intros t m e; [done|].
  rewrite chains_loop_cons.
  destruct (chain_contrib d) as [r|e'] eqn:Hd; simpl.
  - destruct r as [[n k]|]; apply IH.
  - intros [= <-]. by apply (chain_contrib_exn _ _ Hd).
Qed.

Lemma completeness_body_exn f e :
  completeness_body f = Raise e → is_Exception e = true.
Proof.
  unfold completeness_body.
  destruct f as [| |v]; simpl; try (intros [= <-]; done).
  destruct v; simpl; try (intros [= <-]; done).
  apply chains_loop_exn.
Qed.

(** The scorer returns the body's counters, or [(0, 0)] when the body
    raises. *)
Lemma get_structure_completeness_cases f :
  (∃ p, completeness_body f = Ok p ∧ get_structure_completeness f = Ok p) ∨
  (∃ e, completeness_body f = Raise e ∧ get_structure_completeness f = Ok (0, 0)).
Proof.
  unfold get_structure_completeness.
  destruct (completeness_body f) as [p|e] eqn:Hb; simpl.
  - left. by exists p.
  - right. exists e. by rewrite (completeness_body_exn f e Hb).
Qed.

Lemma bad_chain_raises chain_data :
  bad_chain chain_data = true → ∃ e, chain_contrib chain_data = Raise e.
Proof.
  unfold chain_contrib.
  destruct chain_data as [| |s|kvs|a]; simpl; try by eauto.
  - intros ->. simpl. eauto.
  - destruct (dict_get kvs "atom37") as [coords|] eqn:Hg; [|done].
    rewrite bool_decide_true by eauto. simpl.
    intros Hbad.
    destruct (Completeness.len coords) as [n|e]; simpl; [|by eauto].
    destruct coords as [| | | |a]; simpl; try by eauto.
    simpl in Hbad. unfold getitem_all_1_all.
    destruct (shape a) as [|n0 [|n1 [|n2 rest]]]; simpl; try by eauto.
    assert ((1 <? n1)%nat = false) as ->; [|simpl; by eauto].
    apply Nat.ltb_ge. apply Nat.ltb_lt in Hbad. lia.
Qed.

Lemma good_chain_returns chain_data :
  bad_chain chain_data = false → ∃ r, chain_contrib chain_data = Ok r.
Proof.
  unfold chain_contrib.
  destruct chain_data as [| |s|kvs|a]; simpl; try by eauto.
  - intros ->. simpl. eauto.
  - destruct (dict_get kvs "atom37") as [coords|] eqn:Hg.
    2:{ rewrite bool_decide_false by (by intros [? ?]). simpl. eauto. }
    rewrite bool_decide_true by eauto. simpl.
    destruct coords as [| | | |a]; simpl; try done.
    unfold Numpy.len, getitem_all_1_all.
    destruct (shape a) as [|n0 [|n1 [|n2 rest]]]; try done.
    intros Hn1%Nat.ltb_ge.
    assert ((1 <? n1)%nat = true) as -> by (apply Nat.ltb_lt; lia).
    simpl. eauto.
Qed.

Lemma good_chain_loop_returns kvs : ∀ t m,
  existsb (fun kv => bad_chain (snd kv)) kvs = false →
  ∃ p, chains_loop kvs t m = Ok p.
Proof.
  induction kvs as [|[c d] rest IH]; intros t m; [simpl; by eauto|].
  rewrite chains_loop_cons. cbn [existsb snd].
  intros [Hd Hrest]%orb_false_iff.
  destruct (good_chain_returns d Hd) as [r ->]. simpl.
  destruct r as [[n k]|]; by apply IH.
Qed.

Lemma bad_chain_loop_raises kvs : ∀ t m,
  existsb (fun kv => bad_chain (snd kv)) kvs = true →
  ∃ e, chains_loop kvs t m = Raise e.
Proof.
  induction kvs as [|[c d] rest IH]; intros t m; [done|].
  rewrite chains_loop_cons. cbn [existsb snd].
  destruct (chain_contrib d) as [r|e] eqn:Hd; simpl; [|by eauto].
  intros [Hbad|Hrest]%orb_true_iff.
  - destruct (bad_chain_raises d Hbad) as [e He]. congruence.
  - destruct r as [[n k]|]; by apply IH.
Qed.

Lemma flat_map_length_const {A B} (f : A → list B) (c : nat) (l : list A) :
  (∀ x, length (f x) = c) → length (flat_map f l) = (c * length l)%nat.
Proof.
  intros Hf. induction l as [|x l IH]; simpl; [lia|].
  rewrite length_app, Hf, IH. lia.
Qed.

Lemma sum_bounds (a : ndarray bool) :
  0 ≤ Numpy.sum a ≤ Z.of_nat (length (data a)).
Proof.
  unfold Numpy.sum. split; [lia|]. apply inj_le, length_filter.
Qed.

(** On an array of at most three axes, the count of missing CA atoms is
    at most the number of residues. *)
Lemma missing_ca_count_bounds a n k :
  (length (shape a) ≤ 3)%nat →
  Numpy.len a = Ok n → missing_ca_count (PyArray a) = Ok k →
  0 ≤ k ≤ n.
Proof.
  intros Hdim. unfold Numpy.len. simpl. unfold getitem_all_1_all.
  destruct (shape a) as [|n0 [|n1 [|n2 rest]]] eqn:Hs; try done.
  destruct rest as [|]; [|simpl in Hdim; lia].
  intros [= <-]. destruct (1 <? n1)%nat; [|done]. simpl.
  intros [= <-].
  match goal with |- _ ≤ Numpy.sum ?r ≤ _ => pose proof (sum_bounds r) as Hb end.
  simpl in Hb. rewrite (flat_map_length_const _ 1%nat) in Hb.
  - rewrite length_seq in Hb. lia.
  - intros i. done.
Qed.

Lemma chain_contrib_bounds chain_data n k :
  chain_ndim_le 3 chain_data = true →
  chain_contrib chain_data = Ok (Some (n, k)) → 0 ≤ k ≤ n.
Proof.
  unfold chain_contrib.
  destruct chain_data as [| |s|kvs|a]; simpl; try done.
  - destruct (Str.contains "atom37" s); simpl; done.
  - destruct (dict_get kvs "atom37") as [coords|] eqn:Hg.
    2:{ rewrite bool_decide_false by (by intros [? ?]). done. }
    rewrite bool_decide_true by eauto. simpl.
    destruct coords as [| | | |a]; simpl; try done.
    intros Hdim%Nat.leb_le.
    destruct (Numpy.len a) as [n'|] eqn:Hl; simpl; [|done].
    destruct (let* ca_coords := getitem_all_1_all a in
              let* missing_ca := any_axis1 (isnan ca_coords) in
              Ok (Numpy.sum missing_ca)) as [k'|] eqn:Hm; simpl; [|done].
    intros [= <- <-]. by apply (missing_ca_count_bounds a).
Qed.

Lemma chains_loop_bounds kvs : ∀ t m t' m',
  forallb (fun kv => chain_ndim_le 3 (snd kv)) kvs = true →
  0 ≤ m ≤ t → chains_loop kvs t m = Ok (t', m') → 0 ≤ m' ≤ t'.
Proof.
  induction kvs as [|[c d] rest IH]; intros t m t' m'.
  { simpl. intros _ ? [= <- <-]. done. }
  rewrite chains_loop_cons. cbn [forallb snd].
  intros [Hd Hrest]%andb_true_iff Hinv.
  destruct (chain_contrib d) as [r|e] eqn:Hc; simpl; [|done].
  destruct r as [[n k]|].
  - pose proof (chain_contrib_bounds d n k Hd Hc).
    apply IH; [done|lia].
  - by apply IH.
Qed.

End CompletenessFacts.

Section CompletenessClaims.
Import Py Numpy Completeness Samples.

(** C6, as the code has it.  The scorer returns a pair on every input
    and never raises.  It returns [(0, 0)] whenever the file cannot be
    read, does not hold a dict of chains, or holds a chain entry that is
    no container or whose ['atom37'] value cannot be indexed by
    [[:, 1, :]] (not an array, fewer than three axes, no slot 1 on the
    second axis); these are exactly the inputs on which the body of the
    [try] raises.  On every other input, tensors of an unexpected shape
    included, it returns the counters the body computed. *)
Theorem C6_scorer_never_raises f :
  (∃ total missing, get_structure_completeness f = Ok (total, missing)) ∧
  (malformed f = true →
     (∃ e, completeness_body f = Raise e) ∧
     get_structure_completeness f = Ok (0, 0)) ∧
  (malformed f = false →
     ∃ p, completeness_body f = Ok p ∧ get_structure_completeness f = Ok p).
Proof.
  pose proof (get_structure_completeness_cases f) as Hcases.
  split; [|split].
  - destruct Hcases as [([t m] & _ & ->)|(e & _ & ->)]; eauto.
  - intros Hbad.
    assert (∃ e, completeness_body f = Raise e) as [e He].
    { unfold completeness_body.
      destruct f as [| |v]; simpl; [by eauto..|].
      destruct v as [| | |kvs|]; simpl; try by eauto.
      by apply bad_chain_loop_raises. }
    split; [by eauto|].
    destruct Hcases as [(p & Hp & _)|(e' & _ & ->)]; [congruence|done].
  - intros Hgood.
    assert (∃ p, completeness_body f = Ok p) as [p Hp].
    { unfold completeness_body.
      destruct f as [| |v]; simpl in *; try done.
      destruct v as [| | |kvs|]; simpl in *; try done.
      by apply good_chain_loop_returns. }
    exists p. split; [done|].
    destruct Hcases as [(p' & Hp' & ->)|(e' & He' & _)]; congruence.
Qed.

(** C6, as stated, fails: a chain whose tensor has four axes is of the
    wrong shape, and the scorer reports one residue for it, not
    [(0, 0)]. *)
Lemma C6_wrong_shape_is_scored :
  has_wrong_shape full_tensor_4d = true ∧
  get_structure_completeness full_tensor_4d = Ok (1, 0) ∧
  get_structure_completeness full_tensor_4d ≠ Ok (0, 0).
Proof. split; [|split]; [reflexivity..|discriminate]. Qed.

(** C7, as the code has it.  When no ['atom37'] array of the file has
    more than three axes, the scorer returns a pair with
    [0 ≤ missing_residues ≤ total_residues]. *)
Theorem C7_missing_at_most_total f :
  atom37_ndim_le 3 f = true →
  ∃ total missing,
    get_structure_completeness f = Ok (total, missing) ∧
    0 ≤ missing ≤ total.
Proof.
  intros Hdim.
  destruct (get_structure_completeness_cases f)
    as [([t m] & Hp & ->)|(e & _ & ->)]; [|exists 0, 0; split; [done|lia]].
  exists t, m. split; [done|].
  unfold completeness_body in Hp.
  destruct f as [| |v]; simpl in *; try done.
  destruct v as [| | |kvs|]; simpl in *; try done.
  apply (chains_loop_bounds kvs 0 0 t m Hdim); [lia|done].
Qed.

Lemma C7_missing_at_most_total_witness :
  ∃ total missing,
    get_structure_completeness two_residue_file = Ok (total, missing) ∧
    0 ≤ missing ≤ total.
Proof. apply (C7_missing_at_most_total two_residue_file). reflexivity. Defined.

(** C7, as stated, fails: on a four-axis tensor of one residue whose
    elements are all NaN the scorer reports two missing residues out of
    one. *)
Lemma C7_missing_exceeds_total :
  get_structure_completeness nan_tensor_4d = Ok (1, 2) ∧ ¬ (0 ≤ 2 ≤ 1).
Proof. split; [reflexivity|lia]. Qed.

End CompletenessClaims.

(** ** Python strings: names of the data model *)

Section StrFacts.
Import Py Str.

Lemma append_nil (b : string) : String.append "" b = b.
Proof. reflexivity. Qed.

Lemma append_cons (x : ascii) (a b : string) :
  String.append (String x a) b = String x (String.append a b).
Proof. reflexivity. Qed.

Lemma append_assoc (a b c : string) :
  String.append (String.append a b) c = String.append a (String.append b c).
Proof.
  induction a as [|x a IH]; [done|]. rewrite !append_cons. by f_equal.
Qed.

Lemma append_empty_r (a : string) : String.append a "" = a.
Proof. induction a as [|x a IH]; [done|]. rewrite append_cons. by f_equal. Qed.

Lemma prefix_append (sep rest : string) :
  String.prefix sep (String.append sep rest) = true.
Proof.
  induction sep as [|c sep IH]; [by destruct rest|].
  rewrite append_cons. cbn [String.prefix].
  destruct (ascii_dec c c); [done|congruence].
Qed.

Lemma prefix_dash_other (sep' s : string) (c : ascii) :
  Ascii.eqb c "-" = false → String.prefix (String "-" sep') (String c s) = false.
Proof.
  intros Hc. cbn [String.prefix].
  destruct (ascii_dec "-" c) as [<-|]; [|done]. by rewrite Ascii.eqb_refl in Hc.
Qed.

Lemma prefix_dash_head (sep' s : string) (c : ascii) :
  String.prefix (String "-" sep') (String c s) = true → c = "-"%char.
Proof. cbn [String.prefix]. destruct (ascii_dec "-" c) as [<-|]; done. Qed.

(** Passing over the rest of a matched separator. *)
Lemma split_from_skip sep (w : string) : ∀ cur rest,
  split_from sep (String.length w) cur (String.append w rest)
  = split_from sep 0 cur rest.
Proof.
  induction w as [|c w IH]; intros cur rest; [by destruct rest|].
  rewrite append_cons. simpl. apply IH.
Qed.

(** A piece without dashes is read up to the separator that follows. *)
Lemma split_from_entity sep' (entity : string) : ∀ cur rest,
  dash_free entity = true →
  split_from (String "-" sep') 0 cur
    (String.append entity (String.append (String "-" sep') rest))
  = String.append cur entity :: split_from (String "-" sep') 0 "" rest.
Proof.
  induction entity as [|c entity IH]; intros cur rest Hfree.
  - rewrite append_empty_r, append_nil.
    pose proof (prefix_append (String "-" sep') rest) as Hp.
    rewrite append_cons in *. cbn [split_from]. rewrite Hp.
    f_equal. cbn [String.length]. rewrite Nat.sub_1_r. cbn [Nat.pred].
    apply split_from_skip.
  - cbn [dash_free] in Hfree. apply andb_true_iff in Hfree as [Hc Hfree].
    apply negb_true_iff in Hc.
    rewrite append_cons. cbn [split_from].
    rewrite (prefix_dash_other sep' _ c Hc).
    rewrite (IH _ rest Hfree). f_equal.
    by rewrite append_assoc, append_cons, append_nil.
Qed.

Lemma before_dash_append_dash (a b : string) :
  before_dash (String.append a (String "-" b)) = before_dash a.
Proof.
  induction a as [|c a IH]; [done|]. rewrite append_cons. simpl.
  destruct (Ascii.eqb c "-"); [done|]. by rewrite IH.
Qed.

Lemma before_dash_free (a : string) : dash_free a = true → before_dash a = a.
Proof.
  induction a as [|c a IH]; simpl; [done|].
  intros [Hc Ha]%andb_true_iff. apply negb_true_iff in Hc. rewrite Hc.
  by rewrite IH.
Qed.

(** The first piece of a split on a separator that starts with a dash
    stops where the string's first dash is, or later. *)
Lemma split_from_head sep' (s : string) : ∀ cur,
  ∃ h t, split_from (String "-" sep') 0 cur s = h :: t ∧
         before_dash h = before_dash (String.append cur s).
Proof.
  induction s as [|c s IH]; intros cur.
  - exists cur, []. by rewrite append_empty_r.
  - cbn [split_from].
    destruct (String.prefix (String "-" sep') (String c s)) eqn:Hp.
    + apply prefix_dash_head in Hp as ->. eexists _, _. split; [done|].
      by rewrite before_dash_append_dash.
    + destruct (IH (String.append cur (String c ""))) as (h & t & -> & Hh).
      exists h, t. split; [done|].
      by rewrite Hh, append_assoc, append_cons, append_nil.
Qed.

(** The first piece of a split on the dash is the part before it. *)
Lemma split_dash_head (s : string) : ∀ cur,
  ∃ t, split_from "-" 0 cur s = String.append cur (before_dash s) :: t.
Proof.
  induction s as [|c s IH]; intros cur.
  - exists []. simpl. by rewrite append_empty_r.
  - cbn [split_from before_dash String.prefix].
    destruct (Ascii.eqb_spec c "-") as [->|Hne].
    + destruct (ascii_dec "-" "-"); [|done].
      assert (String.prefix "" s = true) as -> by (by destruct s).
      eexists. by rewrite append_empty_r.
    + destruct (ascii_dec "-" c) as [<-|]; [done|].
      destruct (IH (String.append cur (String c ""))) as (t & ->).
      exists t. by rewrite append_assoc, append_cons, append_nil.
Qed.

Lemma instance_text_formatted sep' (entity rest : string) :
  dash_free entity = true →
  Priority.instance_text (String "-" sep')
    (String.append entity (String.append (String "-" sep') rest))
  = Ok (before_dash rest).
Proof.
  intros Hfree. unfold Priority.instance_text, split.
  rewrite (split_from_entity sep' entity "" rest Hfree).
  destruct (split_from_head sep' rest "") as (h & t & -> & Hh).
  unfold subscript. simpl.
  destruct (split_dash_head h "") as (t' & ->). simpl.
  by rewrite Hh.
Qed.

Lemma digit_char (c : ascii) :
  bool_decide (is_Some (digit_val c)) = true →
  is_int_space c = false ∧ Ascii.eqb c "_" = false ∧ Ascii.eqb c "-" = false ∧
  Ascii.eqb c "+" = false.
Proof.
  destruct c as [[] [] [] [] [] [] [] []]; vm_compute; intros Hd;
    try discriminate Hd; repeat split.
Qed.

Lemma all_digits_dash_free (s : string) : all_digits s = true → dash_free s = true.
Proof.
  induction s as [|c s IH]; simpl; [done|].
  intros [Hc Hs]%andb_true_iff. destruct (digit_char c Hc) as (_ & _ & -> & _).
  by rewrite IH.
Qed.

Lemma lstrip_by_digits (s : string) :
  all_digits s = true → lstrip_by is_int_space s = s.
Proof.
  destruct s as [|c s]; simpl; [done|].
  intros [Hc _]%andb_true_iff. by destruct (digit_char c Hc) as (-> & _).
Qed.

Lemma all_digits_rev_onto (s : string) : ∀ acc,
  all_digits s = true → all_digits acc = true → all_digits (rev_onto s acc) = true.
Proof.
  induction s as [|c s IH]; intros acc; simpl; [done|].
  intros [Hc Hs]%andb_true_iff Hacc. apply IH; [done|]. simpl. by rewrite Hc.
Qed.

Lemma rev_onto_rev_onto (s : string) : ∀ acc acc',
  rev_onto (rev_onto s acc) acc' = rev_onto acc (String.append s acc').
Proof.
  induction s as [|c s IH]; intros acc acc'; [done|].
  rewrite append_cons. simpl. by rewrite IH.
Qed.

Lemma strip_by_digits (s : string) :
  all_digits s = true → strip_by is_int_space s = s.
Proof.
  intros Hs. unfold strip_by. rewrite (lstrip_by_digits s Hs).
  rewrite lstrip_by_digits by (by apply all_digits_rev_onto).
  rewrite rev_onto_rev_onto. simpl. apply append_empty_r.
Qed.

Lemma digits_tail_digits (s : string) : ∀ acc,
  all_digits s = true →
  digits_tail acc false s = Some (decimal_value_from acc s).
Proof.
  induction s as [|c s IH]; intros acc; simpl; [done|].
  intros [Hc Hs]%andb_true_iff.
  destruct (digit_char c Hc) as (_ & -> & _).
  apply bool_decide_eq_true in Hc as [d Hd]. rewrite Hd. simpl. by apply IH.
Qed.

Lemma count_digits_all (s : string) :
  all_digits s = true → count_digits s = String.length s.
Proof.
  induction s as [|c s IH]; simpl; [done|].
  intros [Hc Hs]%andb_true_iff.
  apply bool_decide_eq_true in Hc as [d ->]. by rewrite IH.
Qed.

(** [int] reads a string of at most 4300 digits as its decimal value. *)
Lemma int_digits (ds : string) :
  all_digits ds = true → ds ≠ EmptyString →
  (String.length ds ≤ int_max_str_digits)%nat →
  int ds = Ok (decimal_value ds).
Proof.
  intros Hds Hne Hlen. unfold int. rewrite (strip_by_digits ds Hds).
  rewrite (count_digits_all ds Hds).
  assert ((int_max_str_digits <? String.length ds)%nat = false) as ->
    by (apply Nat.ltb_ge; lia).
  destruct ds as [|c r]; [done|]. simpl in Hds.
  apply andb_true_iff in Hds as [Hc Hr].
  assert (digits (String c r) = Some (decimal_value (String c r))) as Hdig.
  { unfold digits, decimal_value. simpl.
    pose proof Hc as Hc'. apply bool_decide_eq_true in Hc' as [d Hd].
    rewrite Hd. simpl. by apply digits_tail_digits. }
  destruct (digit_char c Hc) as (_ & _ & Hminus & Hplus).
  assert ((match String c r with
           | String "+"%char r' => digits r'
           | String "-"%char r' => Z.opp <$> digits r'
           | _ => digits (String c r)
           end) = digits (String c r)) as ->.
  { destruct c as [[] [] [] [] [] [] [] []]; try done. }
  by rewrite Hdig.
Qed.

(** A literal of more than 4300 digits is refused. *)
Lemma int_too_long (ds : string) :
  all_digits ds = true → (int_max_str_digits < String.length ds)%nat →
  int ds = Raise ValueError.
Proof.
  intros Hds Hlen. unfold int. rewrite (strip_by_digits ds Hds).
  rewrite (count_digits_all ds Hds).
  assert ((int_max_str_digits <? String.length ds)%nat = true) as ->
    by (apply Nat.ltb_lt; lia).
  by repeat case_match.
Qed.

Lemma dash_free_before_dash (s : string) : dash_free (before_dash s) = true.
Proof.
  induction s as [|c s IH]; simpl; [done|].
  destruct (Ascii.eqb c "-") eqn:Hc; simpl; [done|]. by rewrite Hc, IH.
Qed.

Lemma instance_text_dash_free mk name t :
  Priority.instance_text mk name = Ok t → dash_free t = true.
Proof.
  unfold Priority.instance_text, subscript.
  destruct (split mk name !! 1%nat) as [after|]; simpl; [|done].
  unfold split. destruct (split_dash_head after "") as (tl & ->). simpl.
  intros [= <-]. apply dash_free_before_dash.
Qed.

Lemma dash_free_lstrip_by f (s : string) :
  dash_free s = true → dash_free (lstrip_by f s) = true.
Proof.
  induction s as [|c s IH]; simpl; [done|].
  intros [Hc Hs]%andb_true_iff.
  destruct (f c); [by apply IH|]. simpl. by rewrite Hc, Hs.
Qed.

Lemma dash_free_rev_onto (s : string) : ∀ acc,
  dash_free s = true → dash_free acc = true → dash_free (rev_onto s acc) = true.
Proof.
  induction s as [|c s IH]; intros acc; simpl; [done|].
  intros [Hc Hs]%andb_true_iff Hacc. apply IH; [done|]. simpl. by rewrite Hc.
Qed.

Lemma dash_free_strip_by f (s : string) :
  dash_free s = true → dash_free (strip_by f s) = true.
Proof.
  intros Hs. unfold strip_by.
  apply dash_free_rev_onto; [|done]. apply dash_free_lstrip_by.
  apply dash_free_rev_onto; [|done]. by apply dash_free_lstrip_by.
Qed.

Lemma digit_val_nonneg c d : digit_val c = Some d → 0 ≤ d.
Proof. unfold digit_val. destruct (_ && _); intros [= <-]. lia. Qed.

Lemma digits_tail_nonneg (s : string) : ∀ acc us n,
  0 ≤ acc → digits_tail acc us s = Some n → 0 ≤ n.
Proof.
  induction s as [|c s IH]; intros acc us n Hacc; simpl.
  { destruct us; [done|]. by intros [= <-]. }
  destruct (Ascii.eqb c "_").
  - destruct us; [done|]. by apply IH.
  - destruct (digit_val c) as [d|] eqn:Hd; [|done].
    apply IH. pose proof (digit_val_nonneg c d Hd). lia.
Qed.

Lemma digits_nonneg (s : string) n : digits s = Some n → 0 ≤ n.
Proof.
  destruct s as [|c s]; simpl; [done|].
  destruct (digit_val c) as [d|] eqn:Hd; [|done].
  apply digits_tail_nonneg. by apply (digit_val_nonneg c d).
Qed.

(** [int] of a string without a dash is never negative. *)
Lemma int_dash_free_nonneg (t : string) n :
  dash_free t = true → int t = Ok n → 0 ≤ n.
Proof.
  intros Hfree%(dash_free_strip_by is_int_space). unfold int.
  destruct (int_max_str_digits <? count_digits (strip_by is_int_space t))%nat.
  { by repeat case_match. }
  destruct (strip_by is_int_space t) as [|c r] eqn:Hbody.
  { simpl. done. }
  simpl in Hfree. apply andb_true_iff in Hfree as [Hc _].
  apply negb_true_iff in Hc.
  assert (∀ o : option Z, (∀ x, o = Some x → 0 ≤ x) →
            match o with Some x => Ok x | None => Raise ValueError end = Ok n →
            0 ≤ n) as Hgo.
  { intros [x|] Hx; [|done]. intros [= <-]. by apply Hx. }
  destruct c as [[] [] [] [] [] [] [] []]; try discriminate Hc;
    apply Hgo; intros x; apply digits_nonneg.
Qed.

Lemma instance_number_nonneg name n :
  Priority.instance_number name = Some n → 0 ≤ n.
Proof.
  unfold Priority.instance_number.
  destruct (Priority.variant_type name) as [v|]; [|done].
  destruct (Priority.instance_text (Priority.marker v) name) as [t|] eqn:Ht; [|done].
  destruct (int t) as [x|] eqn:Hx; [|done].
  intros [= <-].
  apply (int_dash_free_nonneg t x); [|done].
  by apply (instance_text_dash_free (Priority.marker v) name).
Qed.

Lemma contains_dash_free sep' (a b : string) :
  dash_free a = true →
  contains (String "-" sep') (String.append a b) = contains (String "-" sep') b.
Proof.
  induction a as [|c a IH]; [done|]. intros Hfree.
  cbn [dash_free] in Hfree. apply andb_true_iff in Hfree as [Hc Ha].
  apply negb_true_iff in Hc.
  rewrite append_cons. cbn [contains].
  rewrite (prefix_dash_other sep' _ c Hc). by apply IH.
Qed.

Lemma contains_prefix (sub s : string) :
  String.prefix sub s = true → contains sub s = true.
Proof. intros Hp. destruct s; cbn [contains]; by rewrite Hp. Qed.

Lemma contains_marker sep' (a b : string) :
  dash_free a = true →
  contains (String "-" sep')
    (String.append a (String.append (String "-" sep') b)) = true.
Proof.
  intros Ha. rewrite (contains_dash_free sep' a _ Ha).
  apply contains_prefix, prefix_append.
Qed.

Lemma contains_other (sub s : string) (c : ascii) :
  String.prefix sub (String c s) = false →
  contains sub (String c s) = contains sub s.
Proof. intros Hp. cbn [contains]. by rewrite Hp. Qed.

Lemma contains_BIO_after_ASU (rest : string) :
  contains "-BIO" (String.append "-ASU" rest) = contains "-BIO" rest.
Proof.
  change (String.append "-ASU" rest)
    with (String "-" (String "A" (String "S" (String "U" rest)))).
  by rewrite !contains_other by reflexivity.
Qed.

(** For a name [<entity_id>-<TYPE><n>] or [<entity_id>-<TYPE><n>-suffix],
    with an entity id free of dashes and [n] written in decimal digits,
    the ranker finds the type and the instance number the name spells.
    (An ASU name must not carry the BIO marker further on.) *)
Lemma instance_number_formatted (entity_id : string) (v : Priority.variant)
    (n suffix : string) :
  dash_free entity_id = true → all_digits n = true → n ≠ EmptyString →
  (String.length n ≤ int_max_str_digits)%nat →
  (suffix = EmptyString ∨ ∃ t, suffix = String "-" t) →
  (v = Priority.ASU → contains "-BIO" suffix = false) →
  Priority.variant_type (Priority.formatted_name entity_id v n suffix) = Some v ∧
  Priority.instance_number (Priority.formatted_name entity_id v n suffix)
    = Some (decimal_value n).
Proof.
  intros Hent Hn Hne Hlen Hsuf Hasu.
  assert (before_dash (String.append n suffix) = n) as Hbefore.
  { pose proof (all_digits_dash_free n Hn) as Hfree.
    destruct Hsuf as [->|[t ->]].
    - rewrite append_empty_r. by apply before_dash_free.
    - rewrite before_dash_append_dash. by apply before_dash_free. }
  assert (Priority.variant_type (Priority.formatted_name entity_id v n suffix)
          = Some v) as Hv.
  { unfold Priority.variant_type, Priority.formatted_name.
    destruct v; simpl Priority.marker.
    - by rewrite (contains_marker "BIO" entity_id _ Hent).
    - rewrite (contains_dash_free "BIO" entity_id _ Hent).
      rewrite contains_BIO_after_ASU.
      rewrite (contains_dash_free "BIO" n _ (all_digits_dash_free n Hn)).
      rewrite Hasu by done.
      by rewrite (contains_marker "ASU" entity_id _ Hent). }
  split; [done|].
  unfold Priority.instance_number. rewrite Hv.
  unfold Priority.formatted_name.
  assert (∃ sep', Priority.marker v = String "-" sep') as [sep' ->]
    by (destruct v; eexists; reflexivity).
  rewrite (instance_text_formatted sep' entity_id _ Hent), Hbefore.
  by rewrite (int_digits n Hn Hne Hlen).
Qed.

End StrFacts.

(** ** Paths *)

Section PathFacts.
Import Py Str.

Lemma prefix_empty (s : string) : String.prefix "" s = true.
Proof. by destruct s. Qed.

Lemma split_slash_cons (c : ascii) (s cur : string) :
  split_from "/" 0 cur (String c s) =
  if Ascii.eqb c "/" then cur :: split_from "/" 0 "" s
  else split_from "/" 0 (String.append cur (String c "")) s.
Proof.
  cbn [split_from String.prefix].
  destruct (ascii_dec "/" c) as [<-|Hne].
  - by rewrite prefix_empty.
  - destruct (Ascii.eqb_spec c "/"); [congruence|done].
Qed.

Lemma slash_free_app (a b : string) :
  slash_free (String.append a b) = slash_free a && slash_free b.
Proof.
  induction a as [|c a IH]; [done|]. rewrite append_cons. simpl.
  by rewrite IH, andb_assoc.
Qed.

(** A piece without slash is read up to the slash that follows, or to
    the end. *)
Lemma split_slash_piece (a : string) : ∀ cur rest,
  slash_free a = true →
  split_from "/" 0 cur (String.append a (String "/" rest))
  = String.append cur a :: split_from "/" 0 "" rest.
Proof.
  induction a as [|c a IH]; intros cur rest Hfree.
  - rewrite append_nil, append_empty_r, split_slash_cons. done.
  - simpl in Hfree. apply andb_true_iff in Hfree as [Hc Hfree].
    apply negb_true_iff in Hc.
    rewrite append_cons, split_slash_cons, Hc, (IH _ rest Hfree).
    by rewrite append_assoc, append_cons, append_nil.
Qed.

Lemma split_slash_last (a : string) : ∀ cur,
  slash_free a = true → split_from "/" 0 cur a = [String.append cur a].
Proof.
  induction a as [|c a IH]; intros cur Hfree.
  - by rewrite append_empty_r.
  - simpl in Hfree. apply andb_true_iff in Hfree as [Hc Hfree].
    apply negb_true_iff in Hc.
    rewrite split_slash_cons, Hc, (IH _ Hfree).
    by rewrite append_assoc, append_cons, append_nil.
Qed.

Lemma split_slash_pieces (s : string) : ∀ cur,
  slash_free cur = true →
  Forall (λ c, slash_free c = true) (split_from "/" 0 cur s).
Proof.
  induction s as [|c s IH]; intros cur Hcur.
  - by constructor.
  - rewrite split_slash_cons. destruct (Ascii.eqb c "/") eqn:Hc.
    + constructor; [done|]. by apply IH.
    + apply IH. rewrite slash_free_app, Hcur. simpl. by rewrite Hc.
Qed.

Lemma concat_cons2 (sep x y : string) (l : list string) :
  String.concat sep (x :: y :: l)
  = String.append x (String.append sep (String.concat sep (y :: l))).
Proof. done. Qed.

Lemma split_concat (ps : list string) : ∀ cur,
  Forall (λ c, slash_free c = true) ps → ps ≠ [] →
  ∃ x l, ps = x :: l ∧
    split_from "/" 0 cur (String.concat "/" ps) = String.append cur x :: l.
Proof.
  induction ps as [|x l IH]; intros cur Hps Hne; [done|].
  apply Forall_cons in Hps as [Hx Hl].
  exists x, l. split; [done|].
  destruct l as [|y l].
  - by apply split_slash_last.
  - rewrite concat_cons2. change (String.append "/" ?r) with (String "/" r).
    rewrite (split_slash_piece x cur _ Hx).
    destruct (IH "" Hl) as (y' & l' & [= <- <-] & ->); [done|]. done.
Qed.

Lemma component_spec (c : string) :
  component c = true ↔ slash_free c = true ∧ c ≠ "" ∧ c ≠ ".".
Proof.
  unfold component. rewrite andb_true_iff, negb_true_iff, orb_false_iff.
  rewrite !String.eqb_neq. tauto.
Qed.

(** The components of a path are components. *)
Lemma path_parts_components (p : string) :
  Forall (λ c, component c = true) (path_parts p).
Proof.
  unfold path_parts, split.
  pose proof (split_slash_pieces p "" eq_refl) as Hpieces.
  induction Hpieces as [|c l Hc _ IH]; simpl; [done|].
  destruct (String.eqb c "" || String.eqb c ".") eqn:Hd; simpl; [done|].
  constructor; [|done]. unfold component. by rewrite Hc, Hd.
Qed.

Lemma filter_components (ps : list string) :
  Forall (λ c, component c = true) ps →
  List.filter (λ c, negb (String.eqb c "" || String.eqb c ".")) ps = ps.
Proof.
  induction 1 as [|c l Hc _ IH]; simpl; [done|].
  unfold component in Hc. apply andb_true_iff in Hc as [_ ->]. by rewrite IH.
Qed.

Lemma components_slash_free (ps : list string) :
  Forall (λ c, component c = true) ps → Forall (λ c, slash_free c = true) ps.
Proof.
  intros Hps. eapply Forall_impl; [exact Hps|].
  intros c Hc. by apply component_spec in Hc as [? _].
Qed.

(** The components written with slashes between them are read back. *)
Lemma parts_of_concat (ps : list string) :
  Forall (λ c, component c = true) ps →
  List.filter (λ c, negb (String.eqb c "" || String.eqb c "."))
              (split_from "/" 0 "" (String.concat "/" ps)) = ps.
Proof.
  intros Hps. destruct ps as [|x l]; [done|].
  destruct (split_concat (x :: l) "" (components_slash_free _ Hps))
    as (x' & l' & [= <- <-] & ->); [done|].
  rewrite append_nil. by apply filter_components.
Qed.

Lemma path_root_other (x : ascii) (s : string) :
  Ascii.eqb x "/" = false → path_root (String x s) = "".
Proof.
  destruct x as [[] [] [] [] [] [] [] []]; done.
Qed.

Lemma path_root_is_root (p : string) : root_string (path_root p).
Proof.
  unfold root_string, path_root.
  repeat case_match; auto.
Qed.

Lemma component_head (c : string) :
  component c = true → ∃ x c', c = String x c' ∧ Ascii.eqb x "/" = false.
Proof.
  intros (Hfree & Hne & _)%component_spec.
  destruct c as [|x c']; [done|]. exists x, c'. split; [done|].
  simpl in Hfree. apply andb_true_iff in Hfree as [Hx _].
  by apply negb_true_iff in Hx.
Qed.

Lemma concat_head (ps : list string) :
  Forall (λ c, component c = true) ps → ps ≠ [] →
  ∃ x r, String.concat "/" ps = String x r ∧ Ascii.eqb x "/" = false.
Proof.
  intros Hps Hne. destruct ps as [|c l]; [done|].
  apply Forall_cons in Hps as [Hc _].
  destruct (component_head c Hc) as (x & c' & -> & Hx).
  destruct l as [|y l]; [by eauto|].
  rewrite concat_cons2, append_cons. by eauto.
Qed.

(** Writing a path and reading it gives back its root and its
    components. *)
Lemma path_parts_str (r : string) (ps : list string) :
  root_string r → Forall (λ c, component c = true) ps →
  path_parts (path_str r ps) = ps.
Proof.
  intros Hr Hps. unfold path_parts, split.
  destruct Hr as [->|[->| ->]].
  - destruct ps as [|c l]; [done|].
    change (path_str "" (c :: l)) with (String.append "" (String.concat "/" (c :: l))).
    rewrite append_nil. by apply parts_of_concat.
  - change (path_str "/" ps) with (String "/" (String.concat "/" ps)).
    rewrite split_slash_cons. cbn [Ascii.eqb Bool.eqb List.filter String.eqb orb negb].
    by apply parts_of_concat.
  - change (path_str "//" ps) with (String "/" (String "/" (String.concat "/" ps))).
    rewrite !split_slash_cons.
    cbn [Ascii.eqb Bool.eqb List.filter String.eqb orb negb].
    by apply parts_of_concat.
Qed.

Lemma path_root_str (r : string) (ps : list string) :
  root_string r → Forall (λ c, component c = true) ps →
  path_root (path_str r ps) = r.
Proof.
  intros Hr Hps.
  destruct ps as [|c l].
  { by destruct Hr as [->|[->| ->]]. }
  destruct (concat_head (c :: l) Hps) as (x & rest & Hcat & Hx); [done|].
  destruct Hr as [->|[->| ->]].
  - change (path_str "" (c :: l)) with (String.append "" (String.concat "/" (c :: l))).
    rewrite append_nil, Hcat. by apply path_root_other.
  - change (path_str "/" (c :: l)) with (String "/" (String.concat "/" (c :: l))).
    rewrite Hcat. destruct x as [[] [] [] [] [] [] [] []]; try done.
  - change (path_str "//" (c :: l))
      with (String "/" (String "/" (String.concat "/" (c :: l)))).
    rewrite Hcat. destruct x as [[] [] [] [] [] [] [] []]; try done.
Qed.

(** Joining a relative path appends its components. *)
Lemma path_join_relative (a b : string) :
  path_root b = "" →
  path_root (path_join a b) = path_root a ∧
  path_parts (path_join a b) = path_parts a ++ path_parts b.
Proof.
  intros Hb. unfold path_join. rewrite Hb.
  assert (Forall (λ c, component c = true) (path_parts a ++ path_parts b)) as Hps.
  { apply Forall_app. split; apply path_parts_components. }
  split.
  - apply path_root_str; [apply path_root_is_root|done].
  - apply path_parts_str; [apply path_root_is_root|done].
Qed.

(** Joining an absolute path gives that path, whatever it is joined
    to. *)
Lemma path_join_absolute (a a' b : string) :
  path_root b ≠ "" → path_join a b = path_join a' b.
Proof. unfold path_join. by destruct (path_root b). Qed.

Lemma length_append (a b : string) :
  String.length (String.append a b) = (String.length a + String.length b)%nat.
Proof. induction a as [|c a IH]; [done|]. rewrite append_cons. simpl. by rewrite IH. Qed.

(** A name without slash followed by an extension is one component. *)
Lemma file_name_parts (s ext : string) :
  slash_free s = true → component ext = true → (1 < String.length ext)%nat →
  path_root (String.append s ext) = "" ∧
  path_parts (String.append s ext) = [String.append s ext].
Proof.
  intros Hs Hext Hlen.
  apply component_spec in Hext as (Hfree & Hne & Hdot).
  assert (slash_free (String.append s ext) = true) as Hall
    by (by rewrite slash_free_app, Hs, Hfree).
  split.
  - destruct (String.append s ext) as [|x r] eqn:Hcat; [done|].
    simpl in Hall. apply andb_true_iff in Hall as [Hx _].
    apply negb_true_iff in Hx. by apply path_root_other.
  - unfold path_parts, split. rewrite (split_slash_last _ "" Hall), append_nil.
    apply filter_components. constructor; [|done].
    apply component_spec. split; [done|].
    assert (1 < String.length (String.append s ext))%nat as Hl.
    { rewrite length_append. lia. }
    split; intros Heq; rewrite Heq in Hl; simpl in Hl; lia.
Qed.

End PathFacts.


(** ** The priority ranker *)

Section PriorityFacts.
Import Py Numpy Completeness Priority.

Lemma in_int64_spec z : in_int64 z = true ↔ int64_min ≤ z ≤ int64_max.
Proof. unfold in_int64. by rewrite andb_true_iff, !Z.leb_le. Qed.

Lemma wrap64_id z : int64_min ≤ z ≤ int64_max → wrap64 z = z.
Proof.
  unfold wrap64, int64_min, int64_max.
  change (2 ^ 64) with (2 * 2 ^ 63). intros Hz.
  rewrite Z.mod_small; lia.
Qed.

Lemma wrap64_add a b : wrap64 (a + wrap64 b) = wrap64 (a + b).
Proof.
  unfold wrap64. f_equal.
  replace (a + ((b + 2 ^ 63) mod 2 ^ 64 - 2 ^ 63) + 2 ^ 63)
    with (a + (b + 2 ^ 63) mod 2 ^ 64) by lia.
  rewrite Zplus_mod_idemp_r. f_equal. lia.
Qed.

Lemma wrap64_add_both a b : wrap64 (wrap64 a + wrap64 b) = wrap64 (a + b).
Proof. by rewrite wrap64_add, Z.add_comm, wrap64_add, Z.add_comm. Qed.

(** An operation between an [int64] and a Python int that fits, with a
    result that fits, is exact. *)
Lemma arith_np_py op x y :
  int64_min ≤ y ≤ int64_max → int64_min ≤ op x y ≤ int64_max →
  arith op (Numpy_int64 x) (Python_int y) = Ok (Numpy_int64 (op x y)).
Proof.
  intros Hy Hr. simpl. rewrite (proj2 (in_int64_spec y) Hy).
  by rewrite wrap64_id.
Qed.

Lemma arith_py_np op x y :
  int64_min ≤ x ≤ int64_max → int64_min ≤ op x y ≤ int64_max →
  arith op (Python_int x) (Numpy_int64 y) = Ok (Numpy_int64 (op x y)).
Proof.
  intros Hx Hr. simpl. rewrite (proj2 (in_int64_spec x) Hx).
  by rewrite wrap64_id.
Qed.

(** The arithmetic fails by [OverflowError] only. *)
Lemma arith_outcome op a b :
  (∃ s, arith op a b = Ok s) ∨ arith op a b = Raise OverflowError.
Proof.
  destruct a as [x|x], b as [y|y]; simpl; eauto;
    match goal with |- context [in_int64 ?z] => destruct (in_int64 z) end; eauto.
Qed.

(** The counters of the scorer are never negative. *)
Lemma chain_contrib_nonneg chain_data n k :
  chain_contrib chain_data = Ok (Some (n, k)) → 0 ≤ n ∧ 0 ≤ k.
Proof.
  unfold chain_contrib.
  destruct (contains "atom37" chain_data) as [[|]|]; simpl; try done.
  destruct (getitem chain_data "atom37") as [coords|]; simpl; [|done].
  destruct coords as [| |s|kvs|a]; simpl; try done.
  unfold Numpy.len. destruct (shape a) as [|n0 rest]; simpl; [done|].
  destruct (getitem_all_1_all a) as [ca|]; simpl; [|done].
  destruct (any_axis1 (isnan ca)) as [r|]; simpl; [|done].
  intros [= <- <-]. split; [lia|]. apply sum_bounds.
Qed.

Lemma chains_loop_nonneg kvs : ∀ t m t' m',
  0 ≤ t → 0 ≤ m → chains_loop kvs t m = Ok (t', m') → 0 ≤ t' ∧ 0 ≤ m'.
Proof.
  induction kvs as [|[c d] rest IH]; intros t m t' m' Ht Hm.
  { simpl. by intros [= <- <-]. }
  rewrite chains_loop_cons.
  destruct (chain_contrib d) as [[[n k]|]|e] eqn:Hd; simpl; [| by apply IH | done].
  destruct (chain_contrib_nonneg d n k Hd). apply IH; lia.
Qed.

Lemma scorer_nonneg f total missing :
  get_structure_completeness f = Ok (total, missing) → 0 ≤ total ∧ 0 ≤ missing.
Proof.
  destruct (get_structure_completeness_cases f)
    as [([t m] & Hp & ->)|(e & _ & ->)]; intros [= <- <-]; [|lia].
  unfold completeness_body in Hp.
  destruct f as [| |v]; simpl in Hp; try done.
  destruct v as [| | |kvs|]; simpl in Hp; try done.
  by apply (chains_loop_nonneg kvs 0 0).
Qed.

(** The typed loop computes what [chains_loop] computes, and raises
    when it raises. *)
Lemma chains_loop_typed_spec kvs : ∀ t m u,
  stands_for m u →
  match chains_loop kvs t u with
  | Ok (t', u') => ∃ m', chains_loop_typed kvs t m = Ok (t', m') ∧ stands_for m' u'
  | Raise e => chains_loop_typed kvs t m = Raise e
  end.
Proof.
  induction kvs as [|[c d] rest IH]; intros t m u Hm.
  { simpl. by eauto. }
  rewrite chains_loop_cons. cbn [chains_loop_typed].
  destruct (chain_contrib d) as [[[n k]|]|e]; simpl; [| by apply IH | done].
  assert (arith Z.add m (Numpy_int64 (wrap64 k))
          = Ok (Numpy_int64 (wrap64 (u + k)))) as ->.
  { destruct Hm as [[-> ->]| ->].
    - cbn [arith]. change (in_int64 0) with true. cbn iota.
      by rewrite wrap64_add.
    - cbn [arith]. by rewrite wrap64_add_both. }
  simpl. apply IH. by right.
Qed.

(** The typed scorer returns the counters of the scorer; the second one
    is a Python int only as the 0 it started from. *)
Lemma typed_scorer f :
  match completeness_body f with
  | Ok (t, u) =>
      ∃ m, get_structure_completeness_typed f = Ok (t, m) ∧ stands_for m u
  | Raise _ => get_structure_completeness_typed f = Ok (0, Python_int 0)
  end.
Proof.
  unfold completeness_body, get_structure_completeness_typed.
  destruct f as [| |v]; simpl; try done.
  destruct v as [| | |kvs|]; simpl; try done.
  pose proof (chains_loop_typed_spec kvs 0 (Python_int 0) 0
                (or_introl (conj eq_refl eq_refl))) as Hl.
  destruct (chains_loop kvs 0 0) as [[t u]|e] eqn:Hu.
  - destruct Hl as (m & -> & Hm). simpl. by eauto.
  - rewrite Hl. simpl. by rewrite (chains_loop_exn kvs 0 0 e Hu).
Qed.

Lemma typed_scorer_of f total missing :
  get_structure_completeness f = Ok (total, missing) →
  ∃ m, get_structure_completeness_typed f = Ok (total, m) ∧ stands_for m missing.
Proof.
  pose proof (typed_scorer f) as Ht.
  destruct (get_structure_completeness_cases f)
    as [([t u] & Hp & ->)|(e & Hp & ->)]; rewrite Hp in Ht; intros [= <- <-].
  - done.
  - exists (Python_int 0). split; [done|by left].
Qed.

(** The two [try] blocks of the ranker subtract the instance number from
    the score when it parses and the subtraction succeeds, and leave the
    score alone otherwise. *)
Lemma penalty_cases (mk : string) (name : string) (score : scalar) :
  try_except
    (let* text := instance_text mk name in
     let* num := Str.int text in
     arith Z.sub score (Python_int num))
    (Ok score)
  = Ok (match instance_text mk name with
        | Ok text =>
            match Str.int text with
            | Ok n =>
                match arith Z.sub score (Python_int n) with
                | Ok s => s
                | Raise _ => score
                end
            | Raise _ => score
            end
        | Raise _ => score
        end).
Proof.
  destruct (instance_text mk name) as [text|e]; simpl; [|done].
  destruct (Str.int text) as [n|e]; simpl; [|done].
  by destruct (arith Z.sub score (Python_int n)).
Qed.

Lemma bind_Ok {A B} (a : A) (k : A → result B) : Py.bind (Ok a) k = k a.
Proof. done. Qed.

Lemma instance_number_nonneg_default name :
  0 ≤ default 0 (instance_number name).
Proof.
  destruct (instance_number name) as [n|] eqn:Hn; simpl; [|lia].
  by apply (instance_number_nonneg name).
Qed.

(** The ranker returns a score or raises [OverflowError]. *)
Lemma structure_priority_outcome d name path :
  (∃ score, structure_priority d name path = Ok score) ∨
  structure_priority d name path = Raise OverflowError.
Proof.
  unfold structure_priority.
  pose proof (typed_scorer (d (npy_path path name))) as Ht.
  assert (∃ t m, get_structure_completeness_typed (d (npy_path path name))
                 = Ok (t, m)) as (t & m & ->).
  { destruct (completeness_body (d (npy_path path name))) as [[t u]|e].
    - destruct Ht as (m & -> & _). by eauto.
    - rewrite Ht. by eauto. }
  cbn [bind].
  destruct (arith_outcome Z.mul m (Python_int 100)) as [[p ->]| ->];
    cbn [bind]; [|by right].
  destruct (arith_outcome Z.sub (Python_int (t * 500)) p) as [[s ->]| ->];
    cbn [bind]; [|by right].
  destruct (Str.contains "-BIO" name).
  { destruct (arith_outcome Z.add s (Python_int 1000)) as [[s' ->]| ->];
      cbn [bind]; [|by right].
    rewrite penalty_cases. cbn [bind]. by eauto. }
  destruct (Str.contains "-ASU" name); [|by eauto].
  destruct (arith_outcome Z.add s (Python_int 500)) as [[s' ->]| ->];
    cbn [bind]; [|by right].
  rewrite penalty_cases. cbn [bind]. by eauto.
Qed.

(** The ranker on Python ints: the counter is still the 0 it started
    from, and the arithmetic is exact. *)
Lemma structure_priority_python d name path total :
  get_structure_completeness_typed (d (npy_path path name))
    = Ok (total, Python_int 0) →
  structure_priority d name path =
  Ok (total * 500 + bonus (variant_type name) - default 0 (instance_number name)).
Proof.
  intros Hty. unfold structure_priority. rewrite Hty, bind_Ok.
  cbn [arith]. rewrite !bind_Ok.
  unfold instance_number, variant_type, bonus.
  destruct (Str.contains "-BIO" name).
  { cbn [arith marker]. rewrite bind_Ok, penalty_cases, bind_Ok.
    destruct (instance_text "-BIO" name) as [text|]; cbn; [|f_equal; lia].
    destruct (Str.int text) as [n|]; cbn; f_equal; lia. }
  destruct (Str.contains "-ASU" name); [|cbn; f_equal; lia].
  cbn [arith marker]. rewrite bind_Ok, penalty_cases, bind_Ok.
  destruct (instance_text "-ASU" name) as [text|]; cbn; [|f_equal; lia].
  destruct (Str.int text) as [n|]; cbn; f_equal; lia.
Qed.

(** The ranker on an [int64] counter, while the arithmetic stays within
    [int64]. *)
Lemma structure_priority_int64 d name path total missing :
  get_structure_completeness_typed (d (npy_path path name))
    = Ok (total, Numpy_int64 missing) →
  0 ≤ total → 0 ≤ missing →
  fits total missing (default 0 (instance_number name)) →
  structure_priority d name path =
  Ok (total * 500 - missing * 100 + bonus (variant_type name)
      - default 0 (instance_number name)).
Proof.
  intros Hty Ht0 Hm0 [Hfit1 Hfit2].
  pose proof (instance_number_nonneg_default name) as Hn0.
  unfold structure_priority. rewrite Hty, bind_Ok.
  unfold instance_number, variant_type, bonus in *.
  unfold int64_max in *. change (2 ^ 63) with 9223372036854775808 in *.
  assert (∀ z, -9223372036854775808 ≤ z ≤ 9223372036854775807 →
               int64_min ≤ z ≤ int64_max) as Hin.
  { intros z Hz. unfold int64_min, int64_max.
    change (2 ^ 63) with 9223372036854775808. lia. }
  rewrite (arith_np_py Z.mul missing 100), bind_Ok by (apply Hin; lia).
  rewrite (arith_py_np Z.sub (total * 500) (missing * 100)), bind_Ok
    by (apply Hin; lia).
  destruct (Str.contains "-BIO" name).
  { cbn [marker] in *.
    rewrite (arith_np_py Z.add _ 1000), bind_Ok by (apply Hin; lia).
    rewrite penalty_cases, bind_Ok.
    destruct (instance_text "-BIO" name) as [text|]; cbn [value default] in *;
      [|f_equal; lia].
    destruct (Str.int text) as [n|]; cbn [value default] in *; unfold id in *;
      [|f_equal; lia].
    rewrite (arith_np_py Z.sub _ n) by (apply Hin; lia).
    cbn [value]. f_equal. }
  destruct (Str.contains "-ASU" name); [|cbn; f_equal; lia].
  cbn [marker] in *.
  rewrite (arith_np_py Z.add _ 500), bind_Ok by (apply Hin; lia).
  rewrite penalty_cases, bind_Ok.
  destruct (instance_text "-ASU" name) as [text|]; cbn [value default] in *;
    [|f_equal; lia].
  destruct (Str.int text) as [n|]; cbn [value default] in *; unfold id in *;
      [|f_equal; lia].
  rewrite (arith_np_py Z.sub _ n) by (apply Hin; lia).
  cbn [value]. f_equal.
Qed.

(** While the arithmetic stays within [int64] the score is the sum the
    specification writes. *)
Lemma structure_priority_eq d name path total missing :
  get_structure_completeness (d (npy_path path name)) = Ok (total, missing) →
  fits total missing (default 0 (instance_number name)) →
  structure_priority d name path =
  Ok (total * 500 - missing * 100 + bonus (variant_type name)
      - default 0 (instance_number name)).
Proof.
  intros Hc Hfit.
  destruct (scorer_nonneg _ _ _ Hc) as [Ht0 Hm0].
  destruct (typed_scorer_of _ _ _ Hc) as (m & Hty & [[-> ->]| ->]).
  - rewrite (structure_priority_python d name path total Hty). f_equal. lia.
  - assert (wrap64 missing = missing) as Hw.
    { apply wrap64_id. destruct Hfit as [_ Hfit].
      pose proof (instance_number_nonneg_default name).
      unfold int64_min, int64_max in *.
      change (2 ^ 63) with 9223372036854775808 in *. lia. }
    rewrite Hw in Hty.
    by apply structure_priority_int64.
Qed.

(** When the body of the scorer's [try] raises, the ranker computes with
    Python ints throughout: the score is the bonus less the instance
    number, whatever its size. *)
Lemma structure_priority_unread d name path e :
  completeness_body (d (npy_path path name)) = Raise e →
  structure_priority d name path =
  Ok (bonus (variant_type name) - default 0 (instance_number name)).
Proof.
  intros Hb. pose proof (typed_scorer (d (npy_path path name))) as Ht.
  rewrite Hb in Ht.
  rewrite (structure_priority_python d name path 0 Ht). f_equal.
Qed.

(** The ranker returns as long as [total * 500] fits [int64]: the
    bonuses fit, a product or a sum of an [int64] wraps around, and the
    [OverflowError] of the penalty is swallowed. *)
Lemma structure_priority_returns_when d name path total missing :
  get_structure_completeness (d (npy_path path name)) = Ok (total, missing) →
  total * 500 ≤ int64_max →
  ∃ score, structure_priority d name path = Ok score.
Proof.
  intros Hc Hb. destruct (scorer_nonneg _ _ _ Hc) as [Ht0 _].
  destruct (typed_scorer_of _ _ _ Hc) as (m & Hty & _).
  assert (in_int64 (total * 500) = true) as Hin.
  { apply in_int64_spec. unfold int64_min. lia. }
  unfold structure_priority. rewrite Hty, bind_Ok.
  assert (∃ s, (let* penalty := arith Z.mul m (Python_int 100) in
                arith Z.sub (Python_int (total * 500)) penalty) = Ok s) as [s Hs].
  { destruct m as [x|x]; cbn [arith]; [by eauto|].
    change (in_int64 100) with true. cbn beta iota. rewrite bind_Ok.
    cbn [arith]. rewrite Hin. by eauto. }
  assert (∀ b, in_int64 b = true → ∃ s', arith Z.add s (Python_int b) = Ok s')
    as Hadd.
  { intros b Hb'. destruct s; cbn [arith]; [by eauto|]. rewrite Hb'. by eauto. }
  destruct (arith Z.mul m (Python_int 100)) as [p|e]; [|done].
  cbn [bind] in Hs. rewrite bind_Ok, Hs, bind_Ok.
  destruct (Str.contains "-BIO" name).
  { destruct (Hadd 1000 eq_refl) as [s' ->].
    rewrite bind_Ok, penalty_cases, bind_Ok. by eauto. }
  destruct (Str.contains "-ASU" name); [|by eauto].
  destruct (Hadd 500 eq_refl) as [s' ->].
  rewrite bind_Ok, penalty_cases, bind_Ok. by eauto.
Qed.

(** The ranker raises only [OverflowError], and only for a residue
    count whose 500-fold does not fit [int64]. *)
Lemma structure_priority_raises d name path e :
  structure_priority d name path = Raise e →
  e = OverflowError ∧
  ∃ total missing,
    get_structure_completeness (d (npy_path path name)) = Ok (total, missing) ∧
    int64_max < total * 500.
Proof.
  intros Hr. split.
  { destruct (structure_priority_outcome d name path) as [[sc H]|H]; congruence. }
  assert (∃ t m, get_structure_completeness (d (npy_path path name)) = Ok (t, m))
    as (t & m & Hc).
  { destruct (get_structure_completeness_cases (d (npy_path path name)))
      as [([t m] & _ & ->)|(e' & _ & ->)]; by eauto. }
  exists t, m. split; [done|].
  destruct (Z_lt_le_dec int64_max (t * 500)) as [|Hle]; [done|].
  destruct (structure_priority_returns_when d name path t m Hc Hle) as [sc Hsc].
  congruence.
Qed.

End PriorityFacts.

Section PriorityClaims.
Import Py Numpy Completeness Priority Samples.

(** C3, as the code has it.  With completeness metrics
    [(total, missing)] small enough for the arithmetic to stay within
    [int64] (see [fits]), the score is [total * 500 - missing * 100]
    plus [1000 - n] for a name carrying the BIO marker with instance
    number [n], plus [500 - n] for a name carrying the ASU marker
    instead, plus the bare bonus when the instance number does not
    parse, and nothing for an untyped name.  Two structures (of any
    directories) with the same metrics, type and instance number get the
    same score. *)
Theorem C3_priority_score_formula d name path total missing :
  get_structure_completeness (d (npy_path path name)) = Ok (total, missing) →
  fits total missing (default 0 (instance_number name)) →
  structure_priority d name path =
    Ok (total * 500 - missing * 100
        + match variant_type name, instance_number name with
          | Some BIO, Some n => 1000 - n
          | Some BIO, None => 1000
          | Some ASU, Some n => 500 - n
          | Some ASU, None => 500
          | None, _ => 0
          end) ∧
  ∀ d' name' path',
    get_structure_completeness (d' (npy_path path' name')) = Ok (total, missing) →
    variant_type name' = variant_type name →
    instance_number name' = instance_number name →
    structure_priority d' name' path' = structure_priority d name path.
Proof.
  intros Hc Hfit. split.
  - rewrite (structure_priority_eq d name path total missing Hc Hfit). f_equal.
    unfold instance_number, bonus.
    destruct (variant_type name) as [[|]|]; simpl;
      repeat match goal with
             | |- context [match ?x with Ok _ => _ | Raise _ => _ end] => destruct x; simpl
             end; lia.
  - intros d' name' path' Hc' Hv Hn.
    rewrite (structure_priority_eq d name path total missing Hc Hfit).
    rewrite (structure_priority_eq d' name' path' total missing Hc')
      by (by rewrite Hn).
    by rewrite Hv, Hn.
Qed.

Lemma C3_priority_score_formula_witness :
  structure_priority disk_bio102 "7XYZ-BIO102" "db" = Ok (500 + (1000 - 102)) ∧
  structure_priority disk_bio102 "7XYZ-ASU1" "db" = Ok (900 + (500 - 1)).
Proof.
  split.
  - refine (proj1 (C3_priority_score_formula disk_bio102 "7XYZ-BIO102" "db" 1 0
                     eq_refl _)).
    vm_compute. split; discriminate.
  - refine (proj1 (C3_priority_score_formula disk_bio102 "7XYZ-ASU1" "db" 2 1
                     eq_refl _)).
    vm_compute. split; discriminate.
Defined.

(** C3, as stated, fails: the bioassembly of two residues (one without
    its CA atom) numbered ten to the power 19 carries the BIO marker and
    an instance number that parses, yet nothing is subtracted for it.
    The score is an [int64] by then, the number does not fit, and the
    bare [except] swallows the [OverflowError]. *)
Lemma C3_huge_instance_number_is_not_subtracted :
  get_structure_completeness
    (disk_bio_huge (npy_path "db" "7XYZ-BIO10000000000000000000")) = Ok (2, 1) ∧
  variant_type "7XYZ-BIO10000000000000000000" = Some BIO ∧
  instance_number "7XYZ-BIO10000000000000000000" = Some (10 ^ 19) ∧
  structure_priority disk_bio_huge "7XYZ-BIO10000000000000000000" "db" = Ok 1900 ∧
  1900 ≠ 2 * 500 - 1 * 100 + (1000 - 10 ^ 19).
Proof. repeat split; try (vm_compute; reflexivity). vm_compute. discriminate. Qed.

(** C4, as the code has it.  For a BIO-typed and an ASU-typed structure
    whose metrics and instance numbers keep the arithmetic within
    [int64], the BIO score is strictly greater exactly when the
    completeness deficit of the BIO structure, plus the amount by which
    its instance number exceeds the ASU one (a number that does not
    parse counts 0), is smaller than the 500 points separating the type
    bonuses.  So a BIO structure with fewer residues and a deficit below
    500 outranks the ASU structure whenever its instance number is not
    the larger one. *)
Theorem C4_bio_outranks_asu d path bio asu tb mb ta ma :
  variant_type bio = Some BIO → variant_type asu = Some ASU →
  get_structure_completeness (d (npy_path path bio)) = Ok (tb, mb) →
  get_structure_completeness (d (npy_path path asu)) = Ok (ta, ma) →
  fits tb mb (default 0 (instance_number bio)) →
  fits ta ma (default 0 (instance_number asu)) →
  ∃ sb sa,
    structure_priority d bio path = Ok sb ∧
    structure_priority d asu path = Ok sa ∧
    (sb > sa ↔
     (ta * 500 - ma * 100) - (tb * 500 - mb * 100)
     + (default 0 (instance_number bio) - default 0 (instance_number asu))
     < 500) ∧
    (tb < ta →
     (ta * 500 - ma * 100) - (tb * 500 - mb * 100) < 500 →
     default 0 (instance_number bio) ≤ default 0 (instance_number asu) →
     sb > sa).
Proof.
  intros Hb Ha Hcb Hca Hfb Hfa.
  rewrite (structure_priority_eq d bio path tb mb Hcb Hfb).
  rewrite (structure_priority_eq d asu path ta ma Hca Hfa).
  rewrite Hb, Ha. eexists _, _. split; [done|]. split; [done|].
  unfold bonus. lia.
Qed.

Lemma C4_bio_outranks_asu_witness :
  ∃ sb sa,
    structure_priority disk_bio1 "7XYZ-BIO1" "db" = Ok sb ∧
    structure_priority disk_bio1 "7XYZ-ASU1" "db" = Ok sa ∧
    (sb > sa ↔ (2 * 500 - 1 * 100) - (1 * 500 - 0 * 100)
               + (default 0 (instance_number "7XYZ-BIO1")
                  - default 0 (instance_number "7XYZ-ASU1")) < 500) ∧
    (1 < 2 →
     (2 * 500 - 1 * 100) - (1 * 500 - 0 * 100) < 500 →
     default 0 (instance_number "7XYZ-BIO1")
       ≤ default 0 (instance_number "7XYZ-ASU1") →
     sb > sa).
Proof.
  apply (C4_bio_outranks_asu disk_bio1 "db" "7XYZ-BIO1" "7XYZ-ASU1" 1 0 2 1);
    try reflexivity; vm_compute; split; discriminate.
Defined.

(** C4, as stated, fails: the bioassembly numbered 102 has fewer
    residues than the asymmetric unit numbered 1 and a completeness
    deficit of 400, below 500, yet its score is the smaller one. *)
Lemma C4_bio_high_instance_loses :
  variant_type "7XYZ-BIO102" = Some BIO ∧
  variant_type "7XYZ-ASU1" = Some ASU ∧
  get_structure_completeness (disk_bio102 (npy_path "db" "7XYZ-BIO102")) = Ok (1, 0) ∧
  get_structure_completeness (disk_bio102 (npy_path "db" "7XYZ-ASU1")) = Ok (2, 1) ∧
  1 < 2 ∧ (2 * 500 - 1 * 100) - (1 * 500 - 0 * 100) < 500 ∧
  structure_priority disk_bio102 "7XYZ-BIO102" "db" = Ok 1398 ∧
  structure_priority disk_bio102 "7XYZ-ASU1" "db" = Ok 1399 ∧
  ¬ (1398 > 1399).
Proof. repeat split; try reflexivity; lia. Qed.

End PriorityClaims.



(** ** The alignment result parser *)

Section ParserClaims.
Import Py Resolver Parser.
Context {F : Type}.
Variable float_of_string : string → option F.
Variable gt : F → F → bool.
Variable stem : string → string.
Hypothesis gt_asym : ∀ x y, gt x y = true → gt y x = false.

Abbreviation parse_line := (parse_line float_of_string gt stem).
Abbreviation parse_loop := (parse_loop float_of_string gt stem).
Abbreviation parse_report := (parse_report float_of_string gt stem).
Abbreviation row_edge := (row_edge float_of_string gt stem).
Abbreviation row_values := (row_values float_of_string stem).
Abbreviation max2 := (max2 gt).

Lemma subscript_lookup {A} (l : list A) (i : nat) :
  subscript l i = match l !! i with Some a => Ok a | None => Raise IndexError end.
Proof. done. Qed.

(** One row either stands for an edge, which is appended, or stands for
    none and leaves the list as it is. *)
Lemma parse_line_cases thr acc line :
  (∃ e, row_edge thr line e ∧ parse_line thr acc line = Ok (acc ++ [e])) ∨
  ((∀ e, ¬ row_edge thr line e) ∧ parse_line thr acc line = Ok acc).
Proof.
  unfold Parser.parse_line. fold (fields line).
  destruct (length (fields line) <? 6)%nat eqn:Hlen.
  { right. split; [|done]. intros e (?&?&?&?&?&?&Hl&_).
    apply Nat.ltb_lt in Hlen. lia. }
  apply Nat.ltb_ge in Hlen.
  destruct (lookup_lt_is_Some_2 (fields line) 0) as [p0 H0]; [lia|].
  destruct (lookup_lt_is_Some_2 (fields line) 1) as [p1 H1]; [lia|].
  destruct (lookup_lt_is_Some_2 (fields line) 4) as [p4 H4]; [lia|].
  destruct (lookup_lt_is_Some_2 (fields line) 5) as [p5 H5]; [lia|].
  rewrite !subscript_lookup, H0, H1. simpl.
  destruct (String.eqb_spec (stem p0) (stem p1)) as [Heq|Hne].
  { right. split; [|done]. intros e (?&?&?&?&?&?&_&E0&E1&_&_&Hne&_).
    congruence. }
  unfold row_scores. rewrite !subscript_lookup, H4, H5. simpl.
  unfold float.
  destruct (float_of_string p4) as [qtm|] eqn:Hq; simpl.
  2:{ right. split; [|done]. intros e (?&?&?&?&?&?&_&_&_&E4&_&_&Hf&_).
      unfold float in Hf. rewrite H4 in E4. injection E4 as <-.
      by rewrite Hq in Hf. }
  destruct (float_of_string p5) as [ttm|] eqn:Ht; simpl.
  2:{ right. split; [|done]. intros e (?&?&?&?&?&?&_&_&_&_&E5&_&_&Hf&_).
      unfold float in Hf. rewrite H5 in E5. injection E5 as <-.
      by rewrite Ht in Hf. }
  destruct (gt (max2 qtm ttm) thr) eqn:Hgt; simpl.
  - left. exists (stem p0, stem p1, max2 qtm ttm). split; [|done].
    exists p0, p1, p4, p5, qtm, ttm. unfold float. rewrite Hq, Ht.
    repeat split; done.
  - right. split; [|done].
    intros e (?&?&?&?&q'&t'&_&_&_&E4&E5&_&Hf4&Hf5&Hg&_).
    unfold float in Hf4, Hf5.
    rewrite H4 in E4. injection E4 as <-. rewrite H5 in E5. injection E5 as <-.
    rewrite Hq in Hf4. rewrite Ht in Hf5.
    injection Hf4 as <-. injection Hf5 as <-. congruence.
Qed.

Lemma parse_loop_app thr lines lines' : ∀ acc,
  parse_loop thr acc (lines ++ lines') =
  let* acc' := parse_loop thr acc lines in parse_loop thr acc' lines'.
Proof.
  induction lines as [|line lines IH]; intros acc; simpl; [done|].
  destruct (parse_line thr acc line) as [acc'|e]; simpl; [apply IH|done].
Qed.

Lemma parse_loop_returns thr lines : ∀ acc,
  ∃ edges, parse_loop thr acc lines = Ok edges.
Proof.
  induction lines as [|line lines IH]; intros acc; simpl; [by eauto|].
  destruct (parse_line_cases thr acc line) as [(e & _ & ->)|[_ ->]]; simpl;
    apply IH.
Qed.

(** Every pair the parser returns joins two distinct ids. *)
Lemma parse_loop_distinct thr lines : ∀ acc edges,
  Forall (λ e : pair F, e.1.1 ≠ e.1.2) acc →
  parse_loop thr acc lines = Ok edges →
  Forall (λ e : pair F, e.1.1 ≠ e.1.2) edges.
Proof.
  induction lines as [|line lines IH]; intros acc edges Hacc; simpl.
  { by intros [= <-]. }
  destruct (parse_line_cases thr acc line) as [(e & He & ->)|[_ ->]]; simpl.
  - apply IH. apply Forall_app. split; [done|]. constructor; [|done].
    destruct He as (?&?&?&?&?&?&_&_&_&_&_&Hne&_&_&_&->). done.
  - by apply IH.
Qed.

Lemma parse_report_distinct thr lines edges :
  parse_report thr lines = Ok edges →
  Forall (λ e : pair F, e.1.1 ≠ e.1.2) edges.
Proof. by apply parse_loop_distinct. Qed.

Lemma row_edge_functional thr line (e e' : pair F) :
  row_edge thr line e → row_edge thr line e' → e = e'.
Proof.
  intros (p0&p1&p4&p5&q&t&_&E0&E1&E4&E5&_&Hq&Ht&_&->)
         (p0'&p1'&p4'&p5'&q'&t'&_&E0'&E1'&E4'&E5'&_&Hq'&Ht'&_&->).
  rewrite E0 in E0'. rewrite E1 in E1'. rewrite E4 in E4'. rewrite E5 in E5'.
  injection E0' as <-. injection E1' as <-. injection E4' as <-.
  injection E5' as <-. rewrite Hq in Hq'. rewrite Ht in Ht'.
  injection Hq' as <-. injection Ht' as <-. done.
Qed.

(** A row stands for an edge exactly when it carries two distinct ids
    and two similarities of which the one [max] returns is above the
    threshold. *)
Lemma row_edge_values thr line q t qtm ttm e :
  row_values line q t qtm ttm →
  row_edge thr line e ↔
  q ≠ t ∧ gt (max2 qtm ttm) thr = true ∧ e = (q, t, max2 qtm ttm).
Proof.
  intros (p0&p1&p4&p5&Hlen&E0&E1&E4&E5&->&->&Hq&Ht). split.
  - intros (p0'&p1'&p4'&p5'&q'&t'&_&E0'&E1'&E4'&E5'&Hne&Hq'&Ht'&Hgt&->).
    rewrite E0 in E0'. rewrite E1 in E1'. rewrite E4 in E4'. rewrite E5 in E5'.
    injection E0' as <-. injection E1' as <-. injection E4' as <-.
    injection E5' as <-. rewrite Hq in Hq'. rewrite Ht in Ht'.
    injection Hq' as <-. injection Ht' as <-. done.
  - intros (Hne & Hgt & ->). by exists p0, p1, p4, p5, qtm, ttm.
Qed.

Lemma row_edge_has_values thr line e :
  row_edge thr line e → ∃ q t qtm ttm, row_values line q t qtm ttm ∧ q ≠ t.
Proof.
  intros (p0&p1&p4&p5&qtm&ttm&Hlen&E0&E1&E4&E5&Hne&Hq&Ht&_&_).
  exists (stem p0), (stem p1), qtm, ttm. split; [|done].
  by exists p0, p1, p4, p5.
Qed.

Lemma gt_irrefl x : gt x x = false.
Proof. destruct (gt x x) eqn:Hx; [|done]. by rewrite (gt_asym x x Hx) in Hx. Qed.

(** What [max] returns is the greater of its arguments, and neither of
    them is greater than it. *)
Lemma max2_greater_of qtm ttm :
  greater_of gt qtm ttm (max2 qtm ttm) ∧
  gt qtm (max2 qtm ttm) = false ∧ gt ttm (max2 qtm ttm) = false.
Proof.
  unfold Parser.max2, greater_of. destruct (gt ttm qtm) eqn:Hg.
  - split; [by left|]. split; [by apply gt_asym|apply gt_irrefl].
  - split; [by right|]. split; [apply gt_irrefl|done].
Qed.

(** C5.  The parser never fails on a report.  Reading one more row that
    has at least six fields, two similarities [qtm] and [ttm] that
    convert to floats and distinct query and target ids [q] and [t]
    appends the edge [(q, t, w)], where [w] is the greater of the two
    similarities (neither of them is greater than [w]), when [w] is
    strictly above the threshold, and appends nothing when it is not, in
    particular when [w] equals the threshold.  Any other row, malformed
    ones included, leaves the edges read so far untouched. *)
Theorem C5_parser_edges thr lines line :
  ∃ edges,
    parse_report thr lines = Ok edges ∧
    (∀ q t qtm ttm,
       row_values line q t qtm ttm → q ≠ t →
       ∃ w,
         greater_of gt qtm ttm w ∧ gt qtm w = false ∧ gt ttm w = false ∧
         (gt w thr = true →
          parse_report thr (lines ++ [line]) = Ok (edges ++ [(q, t, w)])) ∧
         (gt w thr = false → parse_report thr (lines ++ [line]) = Ok edges) ∧
         (w = thr → parse_report thr (lines ++ [line]) = Ok edges)) ∧
    ((∀ q t qtm ttm, row_values line q t qtm ttm → q = t) →
     parse_report thr (lines ++ [line]) = Ok edges).
Proof.
  unfold Parser.parse_report.
  destruct (parse_loop_returns thr lines []) as [edges Hedges].
  exists edges. split; [done|].
  rewrite parse_loop_app, Hedges. simpl.
  assert (∀ r : result (list (pair F)), (let* acc := r in Ok acc) = r) as Hid
    by (by intros [|]).
  rewrite Hid.
  destruct (parse_line_cases thr edges line) as [(e & He & Hl)|[Hno Hl]];
    rewrite Hl; (split; [intros q t qtm ttm Hv Hne|intros Hsame]).
  - apply (row_edge_values thr line q t qtm ttm e Hv) in He as (_ & Hgt & ->).
    exists (max2 qtm ttm).
    destruct (max2_greater_of qtm ttm) as (Hmax & Hq & Ht).
    repeat split; try done.
    + intros Hle. congruence.
    + intros Heq. rewrite Heq, gt_irrefl in Hgt. done.
  - destruct (row_edge_has_values thr line e He) as (q & t & qtm & ttm & Hv & Hne).
    by destruct (Hne (Hsame q t qtm ttm Hv)).
  - exists (max2 qtm ttm).
    destruct (max2_greater_of qtm ttm) as (Hmax & Hq & Ht).
    repeat split; try done.
    intros Hgt. destruct (Hno (q, t, max2 qtm ttm)).
    by apply (row_edge_values thr line q t qtm ttm).
  - done.
Qed.

End ParserClaims.


(** ** The file system operations *)

Section FsFacts.
Import Py Fs.
Import Str (path_join).
Implicit Types (fs : gmap string node) (p root : string).

Lemma follow_nonlink fs fuel p n :
  fs !! p = Some n → is_link n = false → follow fs fuel p = Some n.
Proof. intros Hp Hn. destruct fuel; simpl; rewrite Hp; by destruct n. Qed.

Lemma follow_None fs fuel p : fs !! p = None → follow fs fuel p = None.
Proof. intros Hp. destruct fuel; simpl; by rewrite Hp. Qed.

Lemma stat_nonlink fs p n :
  fs !! p = Some n → is_link n = false → stat fs p = Some n.
Proof. apply follow_nonlink. Qed.

Lemma stat_None fs p : fs !! p = None → stat fs p = None.
Proof. apply follow_None. Qed.

(** A path that leads to a file or a directory in a part of the file
    system leads to it in the whole. *)
Lemma follow_weaken fs fs' fuel : ∀ p n,
  fs' ⊆ fs → follow fs' fuel p = Some n → is_link n = false →
  follow fs fuel p = Some n.
Proof.
  induction fuel as [|k IH]; intros p n Hsub; simpl.
  - destruct (fs' !! p) as [m|] eqn:Hp; [|done].
    rewrite (lookup_weaken _ _ _ _ Hp Hsub).
    by destruct m; intros [= <-].
  - destruct (fs' !! p) as [m|] eqn:Hp; [|done].
    rewrite (lookup_weaken _ _ _ _ Hp Hsub).
    destruct m; try (by intros [= <-]). by apply IH.
Qed.

Lemma under_refl root : under root root = true.
Proof.
  unfold under. rewrite String.eqb_refl. simpl. by apply bool_decide_eq_true.
Qed.

Lemma under_spec root p :
  under root p = true ↔
  Str.path_root p = Str.path_root root ∧
  Str.path_parts root `prefix_of` Str.path_parts p.
Proof.
  unfold under. by rewrite andb_true_iff, String.eqb_eq, bool_decide_eq_true.
Qed.

Lemma under_trans a b c : under a b = true → under b c = true → under a c = true.
Proof.
  rewrite !under_spec. intros [Hr1 Hp1] [Hr2 Hp2]. split; [congruence|].
  by etrans.
Qed.

(** What lies below a path that is no root is no root. *)
Lemma under_not_root root p :
  is_root root = false → under root p = true → is_root p = false.
Proof.
  unfold is_root. intros Hroot [_ [k Hk]]%under_spec.
  destruct (Str.path_parts root) as [|x l]; [done|]. by rewrite Hk.
Qed.

(** Joining a relative path leads below. *)
Lemma under_join root q b :
  under root q = true → Str.path_root b = "" → under root (path_join q b) = true.
Proof.
  intros [Hr Hp]%under_spec Hb. apply under_spec.
  destruct (path_join_relative q b Hb) as [-> ->]. split; [done|].
  by apply prefix_app_r.
Qed.

Lemma rmtree_clean root fs p :
  fs !! root = Some Dir → is_root root = false → under root p = true →
  (rmtree root fs).2 !! p = None.
Proof.
  intros Hd Hroot Hu. unfold rmtree. rewrite Hd. simpl.
  apply map_lookup_filter_None. right.
  intros n _ Hkeep. simpl in Hkeep.
  by rewrite Hu, (under_not_root root p Hroot Hu) in Hkeep.
Qed.

Lemma rmtree_outside root fs p :
  under root p = false → (rmtree root fs).2 !! p = fs !! p.
Proof.
  intros Hu. unfold rmtree.
  destruct (fs !! root) as [[| |]|]; simpl; try done.
  destruct (fs !! p) as [n|] eqn:Hp.
  - apply map_lookup_filter_Some. split; [done|]. simpl. by rewrite Hu.
  - apply map_lookup_filter_None. by left.
Qed.

Lemma rmtree_returns root fs : (rmtree root fs).1 = Ok tt.
Proof. unfold rmtree. by destruct (fs !! root) as [[| |]|]. Qed.

Lemma same_dirs_delete fs p :
  fs !! p ≠ Some Dir → same_dirs fs (delete p fs).
Proof.
  intros Hp q. destruct (decide (p = q)) as [<-|Hne].
  - rewrite lookup_delete_eq. split; [done|done].
  - by rewrite lookup_delete_ne.
Qed.

Lemma same_dirs_trans fs1 fs2 fs3 :
  same_dirs fs1 fs2 → same_dirs fs2 fs3 → same_dirs fs1 fs3.
Proof. intros H1 H2 p. by rewrite (H1 p), (H2 p). Qed.

(** Making an entry leaves every entry there is as it is. *)
Lemma create_keeps p n fs q m :
  fs !! q = Some m → (create p n fs).2 !! q = Some m.
Proof.
  intros Hq. unfold create.
  destruct (fs !! p) as [x|] eqn:Hp; [done|].
  destruct (stat fs (Str.path_parent p)) as [[| |]|]; simpl; try done.
  rewrite lookup_insert_ne; [done|]. intros ->. congruence.
Qed.

Lemma create_other p n fs q : q ≠ p → (create p n fs).2 !! q = fs !! q.
Proof.
  intros Hq. unfold create.
  destruct (fs !! p) as [x|] eqn:Hp; [done|].
  destruct (stat fs (Str.path_parent p)) as [[| |]|]; simpl; try done.
  by rewrite lookup_insert_ne.
Qed.

Lemma create_Ok p n fs fs' :
  create p n fs = (Ok tt, fs') → fs !! p = None ∧ fs' = <[p := n]> fs.
Proof.
  unfold create. destruct (fs !! p) as [x|] eqn:Hp; [done|].
  destruct (stat fs (Str.path_parent p)) as [[| |]|]; try done.
  by intros [= <-].
Qed.

Lemma create_Raise p n fs e fs' : create p n fs = (Raise e, fs') → fs' = fs.
Proof.
  unfold create. destruct (fs !! p) as [x|] eqn:Hp; [by intros [= _ <-]|].
  destruct (stat fs (Str.path_parent p)) as [[| |]|]; by intros [= _ <-].
Qed.

(** [mkdir(exist_ok=True)] makes the entry [p] or changes nothing. *)
Lemma mkdir_exist_ok_cases p fs :
  (mkdir_exist_ok p fs = (Ok tt, <[p := Dir]> fs) ∧ fs !! p = None) ∨
  (mkdir_exist_ok p fs).2 = fs.
Proof.
  unfold mkdir_exist_ok.
  destruct (create p Dir fs) as [[[]|e] fs'] eqn:Hc.
  - apply create_Ok in Hc as [Hp ->]. by left.
  - right. destruct e; try done; by destruct (stat fs p) as [[| |]|].
Qed.

(** When it returns, [p] leads to a directory. *)
Lemma mkdir_exist_ok_Ok p fs fs' :
  mkdir_exist_ok p fs = (Ok tt, fs') → stat fs' p = Some Dir.
Proof.
  unfold mkdir_exist_ok.
  destruct (create p Dir fs) as [[[]|e] fs1] eqn:Hc.
  - apply create_Ok in Hc as [Hp ->]. intros [= <-].
    apply stat_nonlink; [|done]. by rewrite lookup_insert_eq.
  - destruct e; try done;
      destruct (stat fs p) as [[| |]|] eqn:Hs; try done; by intros [= <-].
Qed.

Lemma create_grows p n fs : fs ⊆ (create p n fs).2.
Proof.
  unfold create. destruct (fs !! p) as [x|] eqn:Hp; [done|].
  destruct (stat fs (Str.path_parent p)) as [[| |]|]; simpl; try done.
  by apply insert_subseteq.
Qed.

Lemma mkdir_exist_ok_grows p fs : fs ⊆ (mkdir_exist_ok p fs).2.
Proof.
  destruct (mkdir_exist_ok_cases p fs) as [[-> Hp]| ->]; [|done].
  by apply insert_subseteq.
Qed.

Lemma adds_dirs_refl fs : OrchestratorSpec.adds_dirs fs fs.
Proof. split; [done|]. intros q Hq. by left. Qed.

Lemma adds_dirs_trans fs1 fs2 fs3 :
  OrchestratorSpec.adds_dirs fs1 fs2 → OrchestratorSpec.adds_dirs fs2 fs3 →
  OrchestratorSpec.adds_dirs fs1 fs3.
Proof.
  intros [Hs1 Hn1] [Hs2 Hn2]. split; [by etrans|].
  intros q Hq. destruct (Hn1 q Hq) as [H|H]; [by apply Hn2|].
  right. by apply (lookup_weaken _ _ _ _ H Hs2).
Qed.

Lemma adds_dirs_insert p fs :
  fs !! p = None → OrchestratorSpec.adds_dirs fs (<[p := Dir]> fs).
Proof.
  intros Hp. split; [by apply insert_subseteq|].
  intros q Hq. destruct (decide (q = p)) as [->|Hne].
  - right. by rewrite lookup_insert_eq.
  - left. by rewrite lookup_insert_ne.
Qed.

Lemma mkdir_exist_ok_adds_dirs p fs :
  OrchestratorSpec.adds_dirs fs (mkdir_exist_ok p fs).2.
Proof.
  destruct (mkdir_exist_ok_cases p fs) as [[-> Hp]| ->];
    [by apply adds_dirs_insert|apply adds_dirs_refl].
Qed.

Lemma mkdir_parents_from_adds_dirs fuel : ∀ p fs,
  OrchestratorSpec.adds_dirs fs (mkdir_parents_from fuel p fs).2.
Proof.
  induction fuel as [|k IH]; intros p fs; simpl.
  - destruct (create p Dir fs) as [[[]|e] fs'] eqn:Hc.
    + apply create_Ok in Hc as [Hp ->]. by apply adds_dirs_insert.
    + destruct e; try (destruct (stat fs p) as [[| |]|]; apply adds_dirs_refl).
      destruct (String.eqb _ _); apply adds_dirs_refl.
  - destruct (create p Dir fs) as [[[]|e] fs'] eqn:Hc.
    + apply create_Ok in Hc as [Hp ->]. by apply adds_dirs_insert.
    + destruct e; try (destruct (stat fs p) as [[| |]|]; apply adds_dirs_refl).
      destruct (String.eqb _ _); [apply adds_dirs_refl|].
      pose proof (IH (Str.path_parent p) fs) as Hrec.
      destruct (mkdir_parents_from k (Str.path_parent p) fs) as [[[]|e] fs1];
        [|done].
      eapply adds_dirs_trans; [exact Hrec|apply mkdir_exist_ok_adds_dirs].
Qed.

(** When [mkdir(parents=True, exist_ok=True)] returns for a path that
    was no symbolic link, the path is a directory. *)
Lemma mkdir_parents_Ok p fs fs' :
  mkdir_parents p fs = (Ok tt, fs') →
  (∀ t, fs !! p ≠ Some (Symlink t)) → fs' !! p = Some Dir.
Proof.
  unfold mkdir_parents. generalize (length (Str.path_parts p)). intros fuel Hrun Hnl.
  assert (∀ e fs1, create p Dir fs = (Raise e, fs1) → e ≠ FileNotFoundError →
                   match stat fs p with
                   | Some Dir => (Ok tt, fs)
                   | _ => (Raise e, fs)
                   end = (Ok tt, fs') → fs' !! p = Some Dir) as Hother.
  { intros e fs1 _ _ Hs.
    destruct (fs !! p) as [[|c|t]|] eqn:Hp.
    - rewrite (stat_nonlink fs p Dir Hp eq_refl) in Hs. by injection Hs as <-.
    - by rewrite (stat_nonlink fs p (File c) Hp eq_refl) in Hs.
    - by destruct (Hnl t).
    - by rewrite (stat_None fs p Hp) in Hs. }
  assert (create p Dir fs = (Ok tt, fs') → fs' !! p = Some Dir) as Hmade.
  { intros [_ ->]%create_Ok. by rewrite lookup_insert_eq. }
  destruct fuel as [|k]; simpl in Hrun;
    destruct (create p Dir fs) as [[[]|e] fs1] eqn:Hc;
    try (by apply Hmade; rewrite <- Hrun);
    destruct e;
    try (by apply (Hother _ fs1 eq_refl ltac:(done) Hrun));
    destruct (String.eqb _ _); try done.
  pose proof (mkdir_parents_from_adds_dirs k (Str.path_parent p) fs) as [_ Hnew].
  destruct (mkdir_parents_from k (Str.path_parent p) fs) as [[[]|e] fsA]; [|done].
  simpl in Hnew.
  assert (fs !! p = None) as Hp.
  { unfold create in Hc. destruct (fs !! p); [done|done]. }
  pose proof (mkdir_exist_ok_Ok p fsA fs' Hrun) as Hstat.
  destruct (mkdir_exist_ok_cases p fsA) as [[Heq _]|Heq]; rewrite Hrun in Heq.
  - injection Heq as ->. by rewrite lookup_insert_eq.
  - simpl in Heq. subst fsA.
    destruct (Hnew p Hp) as [Hq|Hq]; [|done].
    by rewrite (stat_None fs' p Hq) in Hstat.
Qed.

Lemma mkdir_parents_grows p fs : fs ⊆ (mkdir_parents p fs).2.
Proof. apply mkdir_parents_from_adds_dirs. Qed.

End FsFacts.

(** ** The deletion loop of the orchestrator *)

Section DeletionFacts.
Import Py Fs Orchestrator.
Import Str (path_join).
Implicit Types (fs : gmap string node) (path s : string).

Lemma is_dir_true fs p : is_dir fs p = true ↔ fs !! p = Some Dir.
Proof.
  unfold is_dir. destruct (fs !! p) as [[| |]|]; split; congruence.
Qed.

Lemma is_dir_same fs fs' p : same_dirs fs fs' → is_dir fs p = is_dir fs' p.
Proof.
  intros Hs. apply eq_true_iff_eq. rewrite !is_dir_true. apply Hs.
Qed.

Lemma blocked_same path fs fs' s :
  same_dirs fs fs' → blocked path fs s = blocked path fs' s.
Proof.
  intros Hs. unfold blocked.
  by rewrite (is_dir_same fs fs' _ Hs), (is_dir_same fs fs' _ Hs).
Qed.

(** [if p.exists(): os.remove(p)] raises on a directory; otherwise it
    removes the entry [p] when [p] leads to a file or a directory, and
    leaves a dangling link and a missing path as they are.  Afterwards
    [p.exists()] is false. *)
Lemma remove_if_exists_then {A} fs p (k : M A) :
  (is_dir fs p = true ∧
   (found <- exists_ p ;;
    (if (found : bool) then remove p else ret tt) ;; k)%fs fs = (Raise OSError, fs)) ∨
  (is_dir fs p = false ∧
   ∃ fs', (found <- exists_ p ;;
           (if (found : bool) then remove p else ret tt) ;; k)%fs fs = k fs' ∧
          (fs' = fs ∨ fs' = delete p fs) ∧ absent fs' p).
Proof.
  unfold absent, bind, exists_, remove, ret, is_dir.
  destruct (fs !! p) as [[|c|t]|] eqn:Hp.
  - left. split; [done|]. rewrite (stat_nonlink fs p Dir Hp eq_refl). simpl.
    by rewrite Hp.
  - right. split; [done|]. rewrite (stat_nonlink fs p (File c) Hp eq_refl).
    simpl. rewrite Hp. exists (delete p fs). split; [done|]. split; [by right|].
    simpl. by rewrite stat_None by apply lookup_delete_eq.
  - right. split; [done|].
    destruct (stat fs p) as [[|c|t']|] eqn:Hs; simpl; rewrite ?Hp.
    + exists (delete p fs). split; [done|]. split; [by right|].
      simpl. by rewrite stat_None by apply lookup_delete_eq.
    + exists (delete p fs). split; [done|]. split; [by right|].
      simpl. by rewrite stat_None by apply lookup_delete_eq.
    + exists fs. split; [done|]. split; [by left|]. simpl. by rewrite Hs.
    + exists fs. split; [done|]. split; [by left|]. simpl. by rewrite Hs.
  - right. split; [done|]. rewrite (stat_None fs p Hp). simpl.
    exists fs. split; [done|]. split; [by left|]. simpl.
    by rewrite (stat_None fs p Hp).
Qed.

Lemma remove_if_exists fs p :
  (is_dir fs p = true ∧
   (found <- exists_ p ;; if (found : bool) then remove p else ret tt)%fs fs
   = (Raise OSError, fs)) ∨
  (is_dir fs p = false ∧
   ∃ fs', (found <- exists_ p ;; if (found : bool) then remove p else ret tt)%fs fs
          = (Ok tt, fs') ∧
          (fs' = fs ∨ fs' = delete p fs) ∧ absent fs' p).
Proof.
  unfold absent, bind, exists_, remove, ret, is_dir.
  destruct (fs !! p) as [[|c|t]|] eqn:Hp.
  - left. split; [done|]. rewrite (stat_nonlink fs p Dir Hp eq_refl). simpl.
    by rewrite Hp.
  - right. split; [done|]. rewrite (stat_nonlink fs p (File c) Hp eq_refl).
    simpl. rewrite Hp. exists (delete p fs). split; [done|]. split; [by right|].
    simpl. by rewrite stat_None by apply lookup_delete_eq.
  - right. split; [done|].
    destruct (stat fs p) as [[|c|t']|] eqn:Hs; simpl; rewrite ?Hp.
    + exists (delete p fs). split; [done|]. split; [by right|].
      simpl. by rewrite stat_None by apply lookup_delete_eq.
    + exists (delete p fs). split; [done|]. split; [by right|].
      simpl. by rewrite stat_None by apply lookup_delete_eq.
    + exists fs. split; [done|]. split; [by left|]. simpl. by rewrite Hs.
    + exists fs. split; [done|]. split; [by left|]. simpl. by rewrite Hs.
  - right. split; [done|]. rewrite (stat_None fs p Hp). simpl.
    exists fs. split; [done|]. split; [by left|]. simpl.
    by rewrite (stat_None fs p Hp).
Qed.

(** A path absent from a file system is absent from its parts. *)
Lemma absent_weaken fs fs' p : fs' ⊆ fs → absent fs p → absent fs' p.
Proof.
  unfold absent, exists_, stat. cbn [fst]. intros Hsub Ha.
  destruct (follow fs' MAXSYMLINKS p) as [[|c|t]|] eqn:Hf; try done.
  - by rewrite (follow_weaken fs fs' _ p Dir Hsub Hf eq_refl) in Ha.
  - by rewrite (follow_weaken fs fs' _ p (File c) Hsub Hf eq_refl) in Ha.
Qed.

Lemma touches_only_refl path s fs : touches_only path s fs fs.
Proof. by repeat split. Qed.

Lemma touches_only_trans path s fs1 fs2 fs3 :
  touches_only path s fs1 fs2 → touches_only path s fs2 fs3 →
  touches_only path s fs1 fs3.
Proof.
  intros (Hd & Hsub & Hout) (Hd' & Hsub' & Hout'). split; [|split].
  - by eapply same_dirs_trans.
  - by etrans.
  - intros p H1 H2. by rewrite Hout', Hout.
Qed.

Lemma touches_only_step path s fs fs' q :
  q = pdb_path path s ∨ q = Priority.npy_path path s →
  is_dir fs q = false → fs' = fs ∨ fs' = delete q fs →
  touches_only path s fs fs'.
Proof.
  intros Hq Hnd [->| ->]; [apply touches_only_refl|].
  assert (fs !! q ≠ Some Dir) as Hne by (intros Hd%is_dir_true; congruence).
  split; [by apply same_dirs_delete|].
  split; [apply delete_subseteq|]. intros p H1 H2.
  rewrite lookup_delete_ne; [done|]. by destruct Hq as [->| ->].
Qed.

(** One deletion attempt raises exactly when one of the two paths is a
    directory; it deletes at most the two entries, and when it returns
    neither path leads to a file any more. *)
Lemma remove_files_cases path s fs :
  (blocked path fs s = true ∧
   ∃ fs', remove_files path s fs = (Raise OSError, fs') ∧
          touches_only path s fs fs') ∨
  (blocked path fs s = false ∧
   ∃ fs', remove_files path s fs = (Ok tt, fs') ∧
          touches_only path s fs fs' ∧
          absent fs' (pdb_path path s) ∧ absent fs' (Priority.npy_path path s) ∧
          ((∀ t, fs !! pdb_path path s ≠ Some (Symlink t)) →
           fs' !! pdb_path path s = None) ∧
          ((∀ t, fs !! Priority.npy_path path s ≠ Some (Symlink t)) →
           fs' !! Priority.npy_path path s = None)).
Proof.
  unfold remove_files, blocked.
  fold (pdb_path path s). fold (Priority.npy_path path s).
  set (pdb := pdb_path path s). set (npy := Priority.npy_path path s).
  destruct (remove_if_exists_then fs pdb
              (found <- exists_ npy ;;
               if (found : bool) then remove npy else ret tt)%fs)
    as [[Hd ->]|(Hd & fs1 & -> & Hfs1 & Ha1)]; rewrite Hd; simpl.
  { left. split; [done|]. exists fs. split; [done|apply touches_only_refl]. }
  assert (touches_only path s fs fs1) as Ht1.
  { apply (touches_only_step path s fs fs1 pdb); [by left|done..]. }
  assert (is_dir fs1 npy = is_dir fs npy) as Hsame.
  { symmetry. apply is_dir_same, Ht1. }
  destruct (remove_if_exists fs1 npy)
    as [[Hd2 ->]|(Hd2 & fs2 & -> & Hfs2 & Ha2)]; rewrite <- Hsame, Hd2.
  { left. split; [done|]. by exists fs1. }
  right. split; [done|]. exists fs2.
  assert (touches_only path s fs1 fs2) as Ht2.
  { apply (touches_only_step path s fs1 fs2 npy); [by right|done..]. }
  split; [done|]. split; [by eapply touches_only_trans|].
  split; [|split; [done|split]].
  - apply (absent_weaken fs1); [apply Ht2|done].
  - intros Hnl.
    assert (fs1 !! pdb = None) as H1.
    { destruct Hfs1 as [->| ->]; [|apply lookup_delete_eq].
      unfold absent, exists_ in Ha1. simpl in Ha1.
      destruct (fs !! pdb) as [[|c|t]|] eqn:Hp; [| |by destruct (Hnl t)|done].
      - by rewrite (stat_nonlink fs pdb Dir Hp eq_refl) in Ha1.
      - by rewrite (stat_nonlink fs pdb (File c) Hp eq_refl) in Ha1. }
    destruct (fs2 !! pdb) as [n|] eqn:H2; [|done].
    destruct Ht2 as (_ & Hsub & _).
    by rewrite (lookup_weaken _ _ _ _ H2 Hsub) in H1.
  - intros Hnl.
    destruct Hfs2 as [->| ->]; [|apply lookup_delete_eq].
    unfold absent, exists_ in Ha2. simpl in Ha2.
    destruct (fs1 !! npy) as [[|c|t]|] eqn:Hp; [| | |done].
    + by rewrite (stat_nonlink fs1 npy Dir Hp eq_refl) in Ha2.
    + by rewrite (stat_nonlink fs1 npy (File c) Hp eq_refl) in Ha2.
    + destruct Ht1 as (_ & Hsub & _).
      by destruct (Hnl t (lookup_weaken _ _ _ _ Hp Hsub)).
Qed.

Lemma remove_files_raises_iff path s fs :
  (∃ e, (remove_files path s fs).1 = Raise e) ↔ blocked path fs s = true.
Proof.
  destruct (remove_files_cases path s fs)
    as [(Hb & fs' & -> & _)|(Hb & fs' & -> & _)]; simpl; rewrite Hb.
  - split; [done|by eauto].
  - split; [by intros [? ?]|done].
Qed.

(** Whether an attempt raises depends on the directories only, which
    the loop never deletes: the attempt on [s] raises in the state the
    loop has reached exactly when it raises in the state the loop
    started from. *)
Lemma remove_files_raises_stable path s fs fs' :
  same_dirs fs fs' →
  (∃ e, (remove_files path s fs).1 = Raise e) ↔
  (∃ e, (remove_files path s fs').1 = Raise e).
Proof.
  intros Hd. rewrite !remove_files_raises_iff.
  by rewrite (blocked_same path fs fs' s Hd).
Qed.

(** The loop appends, in order, the ids whose attempt does not raise;
    it only deletes entries, never a directory, and none but the files
    backing the ids. *)
Lemma remove_loop_spec path ids : ∀ removed fs,
  ∃ fs',
    remove_loop path ids removed fs =
      (Ok (removed ++ filter (λ s, blocked path fs s = false) ids), fs') ∧
    same_dirs fs fs' ∧ fs' ⊆ fs ∧
    (∀ p, (∀ s, s ∈ ids → p ≠ pdb_path path s ∧ p ≠ Priority.npy_path path s) →
          fs' !! p = fs !! p).
Proof.
  induction ids as [|s ids IH]; intros removed fs.
  { exists fs. simpl. unfold ret. by rewrite app_nil_r. }
  simpl. unfold bind at 1. unfold attempt.
  assert (∃ fs1 r,
            remove_files path s fs = (r, fs1) ∧ touches_only path s fs fs1 ∧
            ((blocked path fs s = true ∧ r = Raise OSError) ∨
             (blocked path fs s = false ∧ r = Ok tt))) as (fs1 & r & -> & Ht & Hr).
  { destruct (remove_files_cases path s fs)
      as [(Hb & fs1 & -> & Ht)|(Hb & fs1 & -> & Ht & _)]; eauto 10. }
  destruct Ht as (Hd & Hsub & Hout).
  assert (∀ acc, ∃ fs',
            remove_loop path ids acc fs1 =
              (Ok (acc ++ filter (λ s, blocked path fs s = false) ids), fs') ∧
            same_dirs fs fs' ∧ fs' ⊆ fs ∧
            (∀ p, (∀ x, x ∈ s :: ids →
                        p ≠ pdb_path path x ∧ p ≠ Priority.npy_path path x) →
                  fs' !! p = fs !! p)) as Hrest.
  { intros acc. destruct (IH acc fs1) as (fs' & -> & Hd' & Hsub' & Hout').
    exists fs'. split.
    - do 3 f_equal. apply list_filter_iff. intros x.
      by rewrite (blocked_same path fs fs1 x Hd).
    - split; [by eapply same_dirs_trans|]. split; [by etrans|].
      intros p Hp. rewrite Hout'.
      + apply Hout; apply (Hp s); by left.
      + intros x Hx. apply Hp. by right. }
  destruct Hr as [[Hb ->]|[Hb ->]]; simpl.
  - rewrite filter_cons_False by congruence. apply Hrest.
  - rewrite filter_cons_True by done.
    destruct (Hrest (removed ++ [s])) as (fs' & -> & Hrest').
    exists fs'. split; [|done]. by rewrite <- app_assoc.
Qed.

End DeletionFacts.


(** ** The group orchestrator *)

Section OrchestratorClaims.
Import Py Fs Orchestrator.
Import Str (path_join).
Context {F : Type}.
Variable float_of_string : string → option F.
Variable gt : F → F → bool.
Variable stem : string → string.
Variable tm_default : F.
Variable foldseek : list string → gmap string node → process.

Abbreviation run_foldseek_comparison :=
  (run_foldseek_comparison float_of_string gt stem foldseek).
Abbreviation remove_redundant_data :=
  (remove_redundant_data float_of_string gt stem tm_default foldseek).



(** A bind whose result is known to be a return value has run its first
    part to a return value too. *)
Lemma bind_Ok_inv {A B} (m : M A) (k : A → M B) fs b fs' :
  bind m k fs = (Ok b, fs') →
  ∃ a fs1, m fs = (Ok a, fs1) ∧ k a fs1 = (Ok b, fs').
Proof.
  unfold bind. destruct (m fs) as [[a|e] fs1]; [by eauto|done].
Qed.

Lemma rmtree_ret_clean {A} ws (a b : A) fs fs' p :
  fs !! ws = Some Dir → is_root ws = false →
  (rmtree ws ;; ret a)%fs fs = (Ok b, fs') →
  under ws p = true → fs' !! p = None.
Proof.
  intros Hd Hroot. unfold bind, ret.
  pose proof (rmtree_clean ws fs p Hd Hroot) as Hclean.
  destruct (rmtree ws fs) as [[[]|e] fs1]; [|done].
  intros [= _ <-] Hu. by apply Hclean.
Qed.

(** The staging loop makes entries only. *)
Lemma stage_loop_grows abs_path pdb_dir struct_list : ∀ valid fs,
  fs ⊆ (stage_loop abs_path pdb_dir struct_list valid fs).2.
Proof.
  induction struct_list as [|s rest IH]; intros valid fs; [done|].
  cbn [stage_loop]. unfold bind at 1. unfold exists_ at 1.
  destruct (match stat fs _ with Some Dir | Some (File _) => true | _ => false end);
    [|apply IH].
  unfold bind at 1. unfold symlink_to.
  pose proof (create_grows (path_join pdb_dir (String.append s ".pdb"))
                (Symlink (path_join abs_path (String.append s ".pdb"))) fs) as Hg.
  destruct (create _ _ fs) as [[[]|e] fs1]; [|done].
  etrans; [exact Hg|apply IH].
Qed.

Lemma priority_map_reads path valid : ∀ m fs,
  (priority_map path valid m fs).2 = fs.
Proof.
  induction valid as [|s rest IH]; intros m fs; [done|].
  cbn [priority_map]. unfold bind at 1.
  destruct (Priority.structure_priority (npy_at fs) s path); [apply IH|done].
Qed.

(** Whenever the comparison of a group of several structures returns,
    nothing is left of the group's temporary directory, provided that
    directory is no root, was no symbolic link, and is left a directory
    by FoldSeek. *)
Lemma run_foldseek_comparison_returns_clean struct_list path tmp_dir thr
    fs R fs' ws :
  (1 < length struct_list)%nat →
  workspace struct_list tmp_dir = Some ws →
  is_root ws = false →
  (∀ t, fs !! ws ≠ Some (Symlink t)) →
  OrchestratorSpec.keeps_directory ws foldseek
    (foldseek_cmd (path_join ws "pdbs") (path_join ws "result")
                  (path_join ws "foldseek_tmp")) →
  run_foldseek_comparison struct_list path tmp_dir thr fs = (Ok R, fs') →
  ∀ p, under ws p = true → fs' !! p = None.
Proof.
  intros Hlen Hws Hroot Hnl Hkeep Hrun p Hp.
  unfold Orchestrator.run_foldseek_comparison in Hrun.
  assert ((length struct_list <=? 1)%nat = false) as Hl by (apply Nat.leb_gt; lia).
  rewrite Hl in Hrun. clear Hl.
  destruct struct_list as [|first rest]; [done|]. simpl in Hws.
  destruct (Str.split "-ASU" first !! 0%nat) as [before_asu|] eqn:H1; [|done].
  simpl in Hws.
  destruct (Str.split "-BIO" before_asu !! 0%nat) as [pdb_id|] eqn:H2; [|done].
  simpl in Hws. injection Hws as <-.
  apply bind_Ok_inv in Hrun as (x & fs1 & Hx & Hrun).
  unfold lift, subscript in Hx. simpl in Hx. injection Hx as <- <-.
  apply bind_Ok_inv in Hrun as (x & fs1 & Hx & Hrun).
  unfold lift, subscript in Hx. rewrite H1 in Hx. injection Hx as <- <-.
  apply bind_Ok_inv in Hrun as (x & fs1 & Hx & Hrun).
  unfold lift, subscript in Hx. rewrite H2 in Hx. injection Hx as <- <-.
  set (ws := path_join tmp_dir pdb_id) in *.
  apply bind_Ok_inv in Hrun as ([] & fs1 & Hmk & Hrun).
  pose proof (mkdir_parents_Ok ws fs fs1 Hmk Hnl) as Hd1.
  apply bind_Ok_inv in Hrun as ([] & fs2 & Hmk2 & Hrun).
  assert (fs2 !! ws = Some Dir) as Hd2.
  { pose proof (mkdir_exist_ok_grows (path_join ws "pdbs") fs1) as Hg.
    rewrite Hmk2 in Hg. by apply (lookup_weaken _ _ _ _ Hd1 Hg). }
  apply bind_Ok_inv in Hrun as (valid & fs3 & Hst & Hrun).
  assert (fs3 !! ws = Some Dir) as Hd3.
  { pose proof (stage_loop_grows (Fs.resolve path) (path_join ws "pdbs")
                  (first :: rest) [] fs2) as Hg.
    rewrite Hst in Hg. by apply (lookup_weaken _ _ _ _ Hd2 Hg). }
  destruct (length valid <=? 1)%nat; [by eapply rmtree_ret_clean|].
  apply bind_Ok_inv in Hrun as ([] & fs4 & Hmk4 & Hrun).
  assert (fs4 !! ws = Some Dir) as Hd4.
  { pose proof (mkdir_exist_ok_grows (path_join ws "foldseek_tmp") fs3) as Hg.
    rewrite Hmk4 in Hg. by apply (lookup_weaken _ _ _ _ Hd3 Hg). }
  apply bind_Ok_inv in Hrun as (ran & fs5 & Hran & Hrun).
  assert (fs5 !! ws = Some Dir) as Hd5.
  { unfold attempt, subprocess_run in Hran.
    destruct (foldseek _ fs4) as [code after|] eqn:Hfold.
    - assert (after !! ws = Some Dir) as Ha by (by eapply Hkeep).
      destruct code; by injection Hran as _ <-.
    - by injection Hran as _ <-. }
  destruct ran as [[]|e].
  - apply bind_Ok_inv in Hrun as (found & fs6 & Hex & Hrun).
    unfold exists_ in Hex. injection Hex as _ <-.
    destruct found; simpl in Hrun; [|by eapply rmtree_ret_clean].
    apply bind_Ok_inv in Hrun as (lines & fs7 & Hrd & Hrun).
    assert (fs7 = fs5) as ->.
    { unfold read_lines in Hrd.
      destruct (stat fs5 _) as [[|[]|]|]; by injection Hrd as _ <-. }
    apply bind_Ok_inv in Hrun as (pairs & fs8 & Hparse & Hrun).
    unfold lift in Hparse. injection Hparse as _ <-.
    apply bind_Ok_inv in Hrun as (m & fs9 & Hpm & Hrun).
    pose proof (priority_map_reads path valid ∅ fs5) as Hsame.
    rewrite Hpm in Hsame. simpl in Hsame. subst fs9.
    by eapply rmtree_ret_clean.
  - destruct e; try done. by eapply rmtree_ret_clean.
Qed.

(** What the comparison returns is empty or the resolver's answer on
    the pairs parsed from a report. *)
Lemma run_foldseek_comparison_resolves struct_list path tmp_dir thr fs R fs' :
  run_foldseek_comparison struct_list path tmp_dir thr fs = (Ok R, fs') →
  R = ∅ ∨
  ∃ lines redundant_pairs struct_priority_map,
    Parser.parse_report float_of_string gt stem thr lines = Ok redundant_pairs ∧
    R = Resolver.resolve struct_priority_map redundant_pairs.
Proof.
  unfold Orchestrator.run_foldseek_comparison.
  assert (∀ ws fs1 fs2, (rmtree ws ;; ret (∅ : gset string))%fs fs1 = (Ok R, fs2) →
                        R = ∅) as Hempty.
  { unfold bind, ret, rmtree. intros ws fs1 fs2.
    destruct (fs1 !! ws) as [[| |]|]; by intros [= <- _]. }
  destruct (length struct_list <=? 1)%nat.
  { unfold ret. intros [= <- _]. by left. }
  intros Hrun.
  apply bind_Ok_inv in Hrun as (first & fs1 & _ & Hrun).
  apply bind_Ok_inv in Hrun as (before_asu & fs2 & _ & Hrun).
  apply bind_Ok_inv in Hrun as (pdb_id & fs3 & _ & Hrun).
  apply bind_Ok_inv in Hrun as ([] & fs4 & _ & Hrun).
  apply bind_Ok_inv in Hrun as ([] & fs5 & _ & Hrun).
  apply bind_Ok_inv in Hrun as (valid & fs6 & _ & Hrun).
  destruct (length valid <=? 1)%nat; [left; by eapply Hempty|].
  apply bind_Ok_inv in Hrun as ([] & fs7 & _ & Hrun).
  apply bind_Ok_inv in Hrun as (ran & fs8 & _ & Hrun).
  destruct ran as [[]|e].
  - apply bind_Ok_inv in Hrun as (found & fs9 & _ & Hrun).
    destruct found; simpl in Hrun; [|left; by eapply Hempty].
    apply bind_Ok_inv in Hrun as (lines & fs10 & _ & Hrun).
    apply bind_Ok_inv in Hrun as (pairs & fs11 & Hparse & Hrun).
    apply bind_Ok_inv in Hrun as (m & fs12 & _ & Hrun).
    right. exists lines, pairs, m.
    unfold lift in Hparse. injection Hparse as Hparse _.
    split; [done|].
    unfold bind, ret, rmtree in Hrun.
    destruct (fs12 !! _) as [[| |]|]; by injection Hrun as <- _.
  - destruct e; try done. left. by eapply Hempty.
Qed.

(** C8, as the code breaks it.  In a directory holding the three structures
    of group 1ABC, with a FoldSeek executable that cannot be started,
    the comparison makes the group's temporary directory, its [pdbs]
    staging directory with three symlinks and the scratch directory,
    raises the [FileNotFoundError] of [subprocess.run], which the
    handler of [CalledProcessError] does not catch, and leaves all of
    them behind. *)
Theorem C8_workspace_left_behind_on_exception (thr : F) :
  let '(outcome, fs') :=
    Orchestrator.run_foldseek_comparison float_of_string gt stem
      Samples.foldseek_missing Samples.group_1ABC "db" "db/foldseek_tmp" thr
      Samples.fs_1ABC in
  Samples.fs_1ABC !! "db/foldseek_tmp/1ABC" = None ∧
  workspace Samples.group_1ABC "db/foldseek_tmp" = Some "db/foldseek_tmp/1ABC" ∧
  outcome = Raise FileNotFoundError ∧
  fs' !! "db/foldseek_tmp/1ABC" = Some Dir ∧
  fs' !! "db/foldseek_tmp/1ABC/pdbs" = Some Dir ∧
  fs' !! "db/foldseek_tmp/1ABC/pdbs/1ABC-BIO1.pdb"
    = Some (Symlink "db/1ABC-BIO1.pdb") ∧
  fs' !! "db/foldseek_tmp/1ABC/foldseek_tmp" = Some Dir.
Proof. vm_compute. repeat split. Qed.

End OrchestratorClaims.


(** ** The dataset reconciler *)

Section ReconcilerClaims.
Import Reconciler.
Context {V : Type}.
Variable le_V : V → V → bool.
Hypothesis le_V_total : ∀ a b, le_V a b = true ∨ le_V b a = true.

Abbreviation key_le := (key_le le_V).
Abbreviation insert_row := (insert_row le_V).
Abbreviation sort_values := (sort_values le_V).
Abbreviation sorted := (sorted le_V).
Abbreviation reconcile := (reconcile le_V).
Implicit Types (r : row V) (df : list (row V)).

Lemma key_le_total r1 r2 : key_le r1 r2 = true ∨ key_le r2 r1 = true.
Proof.
  unfold Reconciler.key_le. rewrite (String.eqb_sym (Name r2)).
  destruct (String.eqb (Name r1) (Name r2)); [apply le_V_total|].
  apply String.leb_total.
Qed.

Lemma insert_row_Forall (P : row V → Prop) r df :
  P r → Forall P df → Forall P (insert_row r df).
Proof.
  intros Hr. induction 1 as [|r' df Hr' Hdf IH]; simpl; [by repeat constructor|].
  destruct (key_le r r'); by repeat constructor.
Qed.

Lemma sort_values_Forall (P : row V → Prop) df :
  Forall P df → Forall P (sort_values df).
Proof.
  induction 1 as [|r df Hr Hdf IH]; simpl; [done|]. by apply insert_row_Forall.
Qed.

Lemma insert_row_perm r df : insert_row r df ≡ₚ r :: df.
Proof.
  induction df as [|r' df IH]; simpl; [done|].
  destruct (key_le r r'); [done|]. rewrite IH. apply Permutation_swap.
Qed.

Lemma sort_values_perm df : sort_values df ≡ₚ df.
Proof.
  induction df as [|r df IH]; simpl; [done|]. by rewrite insert_row_perm, IH.
Qed.

Lemma insert_row_sorted r df : sorted df → sorted (insert_row r df).
Proof.
  induction df as [|r' df IH]; [done|]. intros Hs. simpl.
  destruct (key_le r r') eqn:Hle; [by split|].
  assert (key_le r' r = true) as Hge.
  { destruct (key_le_total r r'); congruence. }
  destruct df as [|r'' df]; [by simpl|].
  destruct Hs as [Hle' Hs]. specialize (IH Hs).
  simpl in *. destruct (key_le r r''); by split.
Qed.

Lemma sort_values_sorted df : sorted (sort_values df).
Proof.
  induction df as [|r df IH]; simpl; [done|]. by apply insert_row_sorted.
Qed.

(** A stable sort leaves a sorted table as it is. *)
Lemma sort_values_of_sorted df : sorted df → sort_values df = df.
Proof.
  induction df as [|r df IH]; [done|]. intros Hs. simpl.
  destruct df as [|r' df]; [done|].
  destruct Hs as [Hle Hs]. rewrite (IH Hs). simpl. by rewrite Hle.
Qed.

Lemma filter_all_bool {A} (f : A → bool) (l : list A) :
  Forall (λ x, f x = true) l → List.filter f l = l.
Proof.
  induction 1 as [|x l Hx _ IH]; simpl; [done|]. by rewrite Hx, IH.
Qed.

(** Filtering a table of rows named by [str] to the surviving ids and
    sorting it, then doing the same again on the table obtained, gives
    the table obtained the first time. *)
Lemma reconcile_idempotent (leftover_files : list string) df :
  reconcile leftover_files (reconcile leftover_files df)
  = reconcile leftover_files df.
Proof.
  unfold Reconciler.reconcile.
  rewrite (filter_all_bool (isin leftover_files)).
  - apply sort_values_of_sorted, sort_values_sorted.
  - apply sort_values_Forall. apply Forall_forall. intros r Hr.
    apply list_elem_of_In, filter_In in Hr. tauto.
Qed.

End ReconcilerClaims.

(** The scenario of the specification, on a directory of three
    structures, and the witnesses of the theorems above. *)

Section Scenario.
Import Py Fs Orchestrator Samples.

(** C9, as the code breaks it.  The table names the structures
    [7XYZ-ASU1] and [1234], and only [1234.pdb] is left in the
    directory.  The first run keeps the row of [1234] and writes it.
    The second run reads the file it wrote: the [Name] column now holds
    integers only, pandas types it as such, no cell equals the [str]
    ["1234"], and the run writes an empty table. *)
Theorem C9_second_run_drops_numeric_names :
  let once := Reconciler.reconcile_file Z.leb read_csv to_csv left_digits csv_digits in
  let twice := Reconciler.reconcile_file Z.leb read_csv to_csv left_digits once in
  once = [Reconciler.mk_row "1234" 1 ["b"]] ∧ twice = [] ∧ twice ≠ once.
Proof. vm_compute. repeat split. discriminate. Qed.

(** The three structures score 1499, 1999 and 1898, and the report
    yields the three pairs. *)
Example priorities_1ABC_computed :
  priority_map "db" group_1ABC ∅ fs_1ABC = (Ok priorities_1ABC, fs_1ABC).
Proof. vm_compute. reflexivity. Qed.

Example pairs_1ABC_parsed :
  Parser.parse_report decimal Z.gtb Str.stem threshold_999 report_1ABC
  = Ok pairs_1ABC.
Proof. vm_compute. reflexivity. Qed.

(** The scenario end to end: BIO2 and ASU1 are removed, BIO1 is kept,
    the temporary directory is gone. *)
Example scenario_1ABC :
  ∃ fs',
    remove_redundant_data decimal Z.gtb Str.stem threshold_999
      (foldseek_writes report_1ABC) ("1ABC", group_1ABC) "db" "db/foldseek_tmp"
      fs_1ABC
    = (Ok (Removed "1ABC" 2 3 ["1ABC-ASU1"; "1ABC-BIO2"]), fs') ∧
    dom fs' = {["db"; "db/1ABC-BIO1.pdb"; "db/1ABC-BIO1-atom37.npy";
                "db/foldseek_tmp"]}.
Proof. eexists. split; vm_compute; reflexivity. Qed.

(** A report naming a structure without files: it is counted as
    removed although nothing is deleted. *)
Example scenario_ghost :
  remove_redundant_data decimal Z.gtb Str.stem threshold_999
    (foldseek_writes report_ghost) ("1ABC", group_1ABC) "db" "db/foldseek_tmp"
    fs_1ABC
  = (Ok (Removed "1ABC" 1 3 ["1ABC-GHOST"]), fs_1ABC).
Proof. vm_compute. reflexivity. Qed.


Lemma C2_three_clique_keeps_top_witness :
  (Resolver.resolve priorities_1ABC pairs_1ABC
   = {["1ABC-ASU1"; "1ABC-BIO1"; "1ABC-BIO2"]} ∖ {["1ABC-BIO1"]}) ∧
  size (Resolver.resolve priorities_1ABC pairs_1ABC) = 2%nat ∧
  ∀ es', es' ≡ₚ pairs_1ABC →
         Resolver.resolve priorities_1ABC es'
         = Resolver.resolve priorities_1ABC pairs_1ABC.
Proof.
  apply (C2_three_clique_keeps_top priorities_1ABC
           "1ABC-ASU1" "1ABC-BIO1" "1ABC-BIO2" "1ABC-BIO1" pairs_1ABC).
  - vm_compute. discriminate.
  - vm_compute. discriminate.
  - vm_compute. discriminate.
  - set_solver.
  - intros s Hs. set_unfold in Hs.
    destruct Hs as [ [Hs | Hs] | Hs]; subst s; vm_compute; discriminate.
  - unfold pairs_1ABC.
    repeat (apply List.Forall_cons;
            [unfold Resolver.within; simpl;
             split; [discriminate|split; set_solver]|]).
    apply List.Forall_nil.
  - exists ("1ABC-ASU1", "1ABC-BIO1", 999300)%string.
    split; [set_solver|simpl; tauto].
  - exists ("1ABC-ASU1", "1ABC-BIO2", 1000000)%string.
    split; [set_solver|simpl; tauto].
  - exists ("1ABC-BIO2", "1ABC-BIO1", 1000000)%string.
    split; [set_solver|simpl; tauto].
Defined.

(** Two rows read after a self-comparison: one whose second similarity
    is the greater one and lies above the threshold, one whose greater
    similarity is the threshold itself. *)
Lemma C5_parser_edges_witness :
  Parser.parse_report decimal Z.gtb Str.stem threshold_999
    (take 1 report_1ABC
     ++ [report_row "1ABC-ASU1.pdb" "1ABC-BIO2.pdb" "0.9995" "1.0000"])
  = Ok [("1ABC-ASU1", "1ABC-BIO2", 1000000)] ∧
  Parser.parse_report decimal Z.gtb Str.stem threshold_999
    (take 1 report_1ABC
     ++ [report_row "1ABC-ASU1.pdb" "1ABC-BIO1.pdb" "0.9990" "0.9980"])
  = Ok [].
Proof.
  assert (∀ x y, Z.gtb x y = true → Z.gtb y x = false) as Hasym.
  { intros x y. rewrite !Z.gtb_ltb, Z.ltb_lt, Z.ltb_ge. lia. }
  split.
  - destruct (C5_parser_edges decimal Z.gtb Str.stem Hasym threshold_999
                (take 1 report_1ABC)
                (report_row "1ABC-ASU1.pdb" "1ABC-BIO2.pdb" "0.9995" "1.0000"))
      as (edges & He & Hrow & _).
    assert (edges = []) as -> by (vm_compute in He; by injection He).
    destruct (Hrow "1ABC-ASU1" "1ABC-BIO2" 999500 1000000)
      as (w & Hmax & _ & _ & Hgt & _ & _).
    + exists "1ABC-ASU1.pdb", "1ABC-BIO2.pdb", "0.9995", "1.0000".
      split; [vm_compute; lia|]. repeat split; vm_compute; reflexivity.
    + discriminate.
    + destruct Hmax as [[_ ->]|[Hf _]]; [|by vm_compute in Hf].
      by apply Hgt.
  - destruct (C5_parser_edges decimal Z.gtb Str.stem Hasym threshold_999
                (take 1 report_1ABC)
                (report_row "1ABC-ASU1.pdb" "1ABC-BIO1.pdb" "0.9990" "0.9980"))
      as (edges & He & Hrow & _).
    assert (edges = []) as -> by (vm_compute in He; by injection He).
    destruct (Hrow "1ABC-ASU1" "1ABC-BIO1" 999000 998000)
      as (w & Hmax & _ & _ & _ & _ & Heq).
    + exists "1ABC-ASU1.pdb", "1ABC-BIO1.pdb", "0.9990", "0.9980".
      split; [vm_compute; lia|]. repeat split; vm_compute; reflexivity.
    + discriminate.
    + destruct Hmax as [[Hf _]|[_ ->]]; [by vm_compute in Hf|].
      by apply Heq.
Defined.


End Scenario.


(** * Further properties of the code *)

(** ** The resolver: what a pass guarantees *)

Section ResolverExtras.
Import Resolver.
Context {W : Type}.
Implicit Types (m : gmap string Z) (R : gset string) (es : list (pair W)).

Lemma resolve_step_covers m R (e : pair W) :
  e.1.1 ∈ resolve_step m R e ∨ e.1.2 ∈ resolve_step m R e.
Proof.
  destruct e as [[q t] w]. unfold resolve_step. simpl.
  case_decide as Hin; [set_solver|]. destruct (_ >? _); set_solver.
Qed.

(** X1.  After the pass no redundant pair is left with both its
    structures: every pair of the list has at least one endpoint in the
    removal set. *)
Theorem X1_every_pair_is_resolved m es (e : pair W) :
  e ∈ es → e.1.1 ∈ resolve m es ∨ e.1.2 ∈ resolve m es.
Proof.
  intros [i Hi]%list_elem_of_lookup.
  pose proof (resolve_take_S m es i e Hi) as Hstep.
  pose proof (resolve_take_mono m es (S i) (length es)) as Hmono.
  rewrite firstn_all in Hmono.
  assert (S i ≤ length es)%nat as Hle by (apply lookup_lt_Some in Hi; lia).
  specialize (Hmono Hle).
  destruct (resolve_step_covers m (resolve m (take i es)) e) as [H|H];
    [left|right]; apply Hmono; by rewrite Hstep.
Qed.

Lemma resolve_step_loser m R (e : pair W) s :
  s ∈ resolve_step m R e → s ∉ R →
  (s = e.1.2 ∧ get0 m e.1.1 > get0 m s ∧ e.1.1 ∉ R) ∨
  (s = e.1.1 ∧ get0 m s ≤ get0 m e.1.2 ∧ e.1.2 ∉ R).
Proof.
  destruct e as [[q t] w]. unfold resolve_step. simpl.
  case_decide as Hin; [done|].
  destruct (get0 m q >? get0 m t) eqn:Hcmp; intros Hs HR.
  - left. assert (s = t) as -> by set_solver.
    split; [done|]. split; [lia|tauto].
  - right. assert (s = q) as -> by set_solver.
    split; [done|]. split; [lia|tauto].
Qed.

Lemma resolve_loop_loser m es : ∀ R s,
  s ∈ resolve_loop m R es → s ∉ R →
  ∃ e, e ∈ es ∧
    ((s = e.1.2 ∧ get0 m e.1.1 > get0 m s) ∨
     (s = e.1.1 ∧ get0 m s ≤ get0 m e.1.2)).
Proof.
  induction es as [|e es IH]; intros R s; simpl; [done|].
  intros Hs HR.
  destruct (decide (s ∈ resolve_step m R e)) as [Hstep|Hstep].
  - exists e. split; [by left|].
    destruct (resolve_step_loser m R e s Hstep HR) as [(?&?&_)|(?&?&_)]; auto.
  - destruct (IH _ s Hs Hstep) as (e' & He' & Hcase).
    exists e'. split; [by right|done].
Qed.

(** X2.  A structure is removed only for having lost a comparison:
    every id of the removal set is the target of a pair whose query has
    a strictly greater priority, or the query of a pair whose target has
    a priority at least as great.  In particular the removal set holds
    endpoints of the pairs only, and is empty for an empty list. *)
Theorem X2_removed_ids_lost_a_comparison m es s :
  s ∈ resolve m es →
  ∃ e, e ∈ es ∧
    ((s = e.1.2 ∧ get0 m e.1.1 > get0 m s) ∨
     (s = e.1.1 ∧ get0 m s ≤ get0 m e.1.2)).
Proof. intros Hs. apply (resolve_loop_loser m es ∅ s Hs). set_solver. Qed.

Lemma resolve_step_size m R (e : pair W) :
  (size (resolve_step m R e) ≤ S (size R))%nat.
Proof.
  destruct e as [[q t] w]. unfold resolve_step.
  case_decide; [lia|].
  destruct (_ >? _); rewrite size_union by set_solver;
    rewrite size_singleton; lia.
Qed.

Lemma resolve_loop_size m es : ∀ R,
  (size (resolve_loop m R es) ≤ size R + length es)%nat.
Proof.
  induction es as [|e es IH]; intros R; simpl; [lia|].
  specialize (IH (resolve_step m R e)).
  pose proof (resolve_step_size m R e). lia.
Qed.

(** X3.  The pass removes at most one structure per redundant pair. *)
Theorem X3_at_most_one_removal_per_pair m es :
  (size (resolve m es) ≤ length es)%nat.
Proof.
  pose proof (resolve_loop_size m es ∅) as H. rewrite size_empty in H.
  exact H.
Qed.

(** X4.  The pass never empties a cluster: when the list is not empty
    and no pair joins an id to itself, some endpoint of a pair is not in
    the removal set. *)
Theorem X4_some_endpoint_survives m es :
  es ≠ [] → Forall (λ e : pair W, e.1.1 ≠ e.1.2) es →
  ∃ e s, e ∈ es ∧ (s = e.1.1 ∨ s = e.1.2) ∧ s ∉ resolve m es.
Proof.
  induction es as [|e es IH] using rev_ind; [done|].
  intros _ [Hes He]%Forall_app.
  apply Forall_cons in He as [Hne _].
  rewrite resolve_snoc.
  destruct e as [[q t] w]. simpl in Hne. unfold resolve_step.
  case_decide as Hin.
  - destruct es as [|e0 es0].
    { exfalso. unfold resolve in Hin. simpl in Hin. set_solver. }
    destruct (IH ltac:(done) Hes) as (e' & s & He' & Hs & Hout).
    exists e', s. split; [|done]. apply elem_of_app. by left.
  - destruct (get0 m q >? get0 m t).
    + exists (q, t, w), q. split; [apply elem_of_app; right; by left|].
      split; [by left|]. set_solver.
    + exists (q, t, w), t. split; [apply elem_of_app; right; by left|].
      split; [by right|]. set_solver.
Qed.

(** X5.  The pass depends on the order of the pairs when the conflict
    graph is no clique: for ids of decreasing priority [a], [b], [c]
    with [a]-[b] and [b]-[c] redundant, reading [a]-[b] first keeps [c],
    reading [b]-[c] first removes it. *)
Theorem X5_order_matters_on_a_chain m (a b c : string) (w1 w2 : W) :
  get0 m a > get0 m b → get0 m b > get0 m c →
  resolve m [(a, b, w1); (b, c, w2)] = {[b]} ∧
  resolve m [(b, c, w2); (a, b, w1)] = {[b; c]}.
Proof.
  intros Hab Hbc.
  assert (a ≠ b) as Nab by (intros ->; lia).
  assert (b ≠ c) as Nbc by (intros ->; lia).
  assert (a ≠ c) as Nac by (intros ->; lia).
  assert ((get0 m a >? get0 m b) = true) as Gab by lia.
  assert ((get0 m b >? get0 m c) = true) as Gbc by lia.
  unfold resolve. cbn [resolve_loop]. unfold resolve_step.
  rewrite !Gab, !Gbc.
  split; repeat case_decide; set_solver.
Qed.

End ResolverExtras.

(** ** The parser: rows are read independently *)

Section ParserExtras.
Import Py Resolver Parser.
Context {F : Type}.
Variable float_of_string : string → option F.
Variable gt : F → F → bool.
Variable stem : string → string.

Abbreviation parse_line := (parse_line float_of_string gt stem).
Abbreviation parse_loop := (parse_loop float_of_string gt stem).
Abbreviation parse_report := (parse_report float_of_string gt stem).
Abbreviation row_edge := (row_edge float_of_string gt stem).

(** The pairs a list of rows stands for, row by row. *)
Lemma parse_loop_rows thr lines : ∀ acc,
  ∃ edges,
    parse_loop thr acc lines = Ok (acc ++ edges) ∧
    (length edges ≤ length lines)%nat ∧
    (∀ e, e ∈ edges ↔ ∃ line, line ∈ lines ∧ row_edge thr line e) ∧
    ∀ acc', parse_loop thr acc' lines = Ok (acc' ++ edges).
Proof.
  induction lines as [|line lines IH]; intros acc.
  { exists []. simpl. rewrite app_nil_r. split; [done|]. split; [done|].
    split; [|intros; by rewrite app_nil_r].
    intros e. split; [by intros ?%elem_of_nil|].
    by intros (? & ?%elem_of_nil & _). }
  destruct (parse_line_cases float_of_string gt stem thr acc line)
    as [(e & He & Hl)|[Hno Hl]].
  - destruct (IH (acc ++ [e])) as (edges & Hloop & Hlen & Hmem & Hany).
    exists (e :: edges). simpl. rewrite Hl. simpl.
    rewrite Hloop, <- app_assoc. split; [done|]. split; [lia|]. split.
    + intros x. rewrite elem_of_cons. split.
      * intros [->|Hx]; [exists line; split; [by left|done]|].
        apply Hmem in Hx as (l & Hl' & Hx). exists l. split; [by right|done].
      * intros (l & [->|Hl']%elem_of_cons & Hx).
        -- left. by eapply (row_edge_functional float_of_string gt stem).
        -- right. apply Hmem. by exists l.
    + intros acc'.
      destruct (parse_line_cases float_of_string gt stem thr acc' line)
        as [(e' & He' & ->)|[Hno' _]]; [|by destruct (Hno' e)].
      simpl.
      rewrite (row_edge_functional float_of_string gt stem thr line e' e He' He).
      rewrite (Hany (acc' ++ [e])), <- app_assoc. done.
  - destruct (IH acc) as (edges & Hloop & Hlen & Hmem & Hany).
    exists edges. simpl. rewrite Hl. simpl. split; [done|]. split; [lia|]. split.
    + intros x. rewrite Hmem. split.
      * intros (l & Hl' & Hx). exists l. split; [by right|done].
      * intros (l & [->|Hl']%elem_of_cons & Hx); [by destruct (Hno x)|].
        by exists l.
    + intros acc'.
      destruct (parse_line_cases float_of_string gt stem thr acc' line)
        as [(e' & He' & _)|[_ ->]]; [by destruct (Hno e')|].
      simpl. apply Hany.
Qed.

(** X6.  Reading a report that is the concatenation of two reports
    gives the pairs of the first followed by the pairs of the second:
    no row influences how another row is read. *)
Theorem X6_parser_reads_rows_independently thr lines lines' :
  ∃ edges edges',
    parse_report thr lines = Ok edges ∧
    parse_report thr lines' = Ok edges' ∧
    parse_report thr (lines ++ lines') = Ok (edges ++ edges').
Proof.
  unfold Parser.parse_report.
  destruct (parse_loop_rows thr lines []) as (edges & H1 & _ & _ & _).
  destruct (parse_loop_rows thr lines' []) as (edges' & H2 & _ & _ & Hany).
  exists edges, edges'. simpl in *. split; [done|]. split; [done|].
  rewrite (parse_loop_app float_of_string gt stem), H1. simpl. apply Hany.
Qed.

(** X7.  The pairs returned are exactly those the rows stand for, at
    most one per row; each of them joins two distinct ids and carries a
    weight strictly above the threshold. *)
Theorem X7_parser_pairs_come_from_rows thr lines :
  ∃ edges,
    parse_report thr lines = Ok edges ∧
    (length edges ≤ length lines)%nat ∧
    (∀ e, e ∈ edges ↔ ∃ line, line ∈ lines ∧ row_edge thr line e) ∧
    (∀ e, e ∈ edges → e.1.1 ≠ e.1.2 ∧ gt e.2 thr = true).
Proof.
  unfold Parser.parse_report.
  destruct (parse_loop_rows thr lines []) as (edges & H1 & Hlen & Hmem & _).
  exists edges. simpl in H1. split; [done|]. split; [done|]. split; [done|].
  intros e (line & _ & He)%Hmem.
  destruct He as (?&?&?&?&?&?&_&_&_&_&_&Hne&_&_&Hgt&->). done.
Qed.

End ParserExtras.

(** ** The completeness scorer: what is counted *)

Section CompletenessExtras.
Import Py Numpy Completeness CompletenessSpec.

Lemma chains_loop_sums kvs : ∀ t m,
  existsb (fun kv => bad_chain (snd kv)) kvs = false →
  chains_loop kvs t m = Ok (t + total_of kvs, m + missing_of kvs).
Proof.
  induction kvs as [|[c d] rest IH]; intros t m.
  { intros _. simpl. do 2 f_equal; lia. }
  rewrite chains_loop_cons. cbn [existsb snd].
  intros [Hd Hrest]%orb_false_iff.
  destruct (good_chain_returns d Hd) as [r Hr].
  unfold total_of, missing_of. cbn [fold_right snd].
  fold (total_of rest). fold (missing_of rest).
  unfold chain_counts. rewrite Hr. simpl.
  destruct r as [[n k]|]; rewrite (IH _ _ Hrest); simpl; do 2 f_equal; lia.
Qed.

Lemma sums_app kvs1 kvs2 :
  total_of (kvs1 ++ kvs2) = total_of kvs1 + total_of kvs2 ∧
  missing_of (kvs1 ++ kvs2) = missing_of kvs1 + missing_of kvs2.
Proof.
  unfold total_of, missing_of.
  induction kvs1 as [|kv kvs1 [IH1 IH2]]; simpl; [done|].
  rewrite IH1, IH2. lia.
Qed.

Lemma sums_perm kvs kvs' :
  kvs ≡ₚ kvs' → total_of kvs = total_of kvs' ∧ missing_of kvs = missing_of kvs'.
Proof.
  unfold total_of, missing_of.
  induction 1 as [|x l l' _ [IH1 IH2]|x y l|l l' l'' _ [IH1 IH2] _ [IH3 IH4]];
    simpl; [done|by rewrite IH1, IH2|split; lia|split; congruence].
Qed.

Lemma existsb_perm {A} (f : A → bool) (l l' : list A) :
  l ≡ₚ l' → existsb f l = existsb f l'.
Proof.
  induction 1 as [|x l l' _ IH|x y l|l l' l'' _ IH1 _ IH2]; simpl;
    [done|by rewrite IH| |congruence].
  by destruct (f x), (f y).
Qed.

Lemma scorer_on_dict kvs :
  get_structure_completeness (Item (PyDict kvs)) =
  if existsb (fun kv => bad_chain (snd kv)) kvs then Ok (0, 0)
  else Ok (total_of kvs, missing_of kvs).
Proof.
  destruct (existsb _ kvs) eqn:Hbad.
  - destruct (bad_chain_loop_raises kvs 0 0 Hbad) as [e He].
    unfold get_structure_completeness, completeness_body. simpl.
    rewrite He. simpl. by rewrite (chains_loop_exn kvs 0 0 e He).
  - unfold get_structure_completeness, completeness_body. simpl.
    by rewrite (chains_loop_sums kvs 0 0 Hbad).
Qed.

(** X8.  The order in which the file lists its chains does not matter:
    two dicts with the same items in another order get the same
    counters. *)
Theorem X8_chain_order_is_irrelevant kvs kvs' :
  kvs ≡ₚ kvs' →
  get_structure_completeness (Item (PyDict kvs))
  = get_structure_completeness (Item (PyDict kvs')).
Proof.
  intros Hp. rewrite !scorer_on_dict.
  rewrite (existsb_perm _ kvs kvs' Hp).
  destruct (sums_perm kvs kvs' Hp) as [-> ->]. done.
Qed.

(** X9.  On a file none of whose chains is rejected the counters add up
    chain by chain: the counters of a dict are the sums of the counters
    of any two parts it is split into (a chain without ['atom37'] adds
    nothing). *)
Theorem X9_counters_add_over_chains kvs1 kvs2 :
  malformed (Item (PyDict (kvs1 ++ kvs2))) = false →
  ∃ t1 m1 t2 m2,
    get_structure_completeness (Item (PyDict kvs1)) = Ok (t1, m1) ∧
    get_structure_completeness (Item (PyDict kvs2)) = Ok (t2, m2) ∧
    get_structure_completeness (Item (PyDict (kvs1 ++ kvs2)))
    = Ok (t1 + t2, m1 + m2).
Proof.
  simpl. rewrite existsb_app. intros [H1 H2]%orb_false_iff.
  exists (total_of kvs1), (missing_of kvs1), (total_of kvs2), (missing_of kvs2).
  rewrite !scorer_on_dict, existsb_app, H1, H2. simpl.
  destruct (sums_app kvs1 kvs2) as [-> ->]. done.
Qed.

Lemma nth_flat_map_blocks {A} (f : nat → list A) (b : nat) (d : A) (j : nat) :
  ∀ n s i, (i < n)%nat → (j < b)%nat →
    (∀ x, (s ≤ x < s + n)%nat → length (f x) = b) →
    nth (i * b + j) (flat_map f (seq s n)) d = nth j (f (s + i)%nat) d.
Proof.
  induction n as [|n IH]; intros s i Hi Hj Hlen; [lia|].
  simpl. destruct i as [|i].
  - rewrite app_nth1 by (rewrite Hlen; lia). simpl. by rewrite Nat.add_0_r.
  - rewrite app_nth2 by (rewrite Hlen; lia). rewrite Hlen by lia.
    replace (S i * b + j - b)%nat with (i * b + j)%nat by lia.
    rewrite (IH (S s) i) by (try lia; intros; apply Hlen; lia).
    f_equal. f_equal. lia.
Qed.

Lemma nth_take_drop {A} (l : list A) (off b j : nat) (d : A) :
  (j < b)%nat → nth j (take b (drop off l)) d = nth (off + j) l d.
Proof.
  intros Hj. rewrite !nth_lookup, lookup_take_lt by done.
  by rewrite lookup_drop.
Qed.

Lemma filter_map_length {A} (f : A → bool) (l : list A) :
  length (filter (λ b : bool, b = true) (map f l)) = length (List.filter f l).
Proof.
  induction l as [|x l IH]; [done|]. cbn [map List.filter].
  destruct (f x) eqn:Hx.
  - rewrite filter_cons_True by done. simpl. by rewrite IH.
  - rewrite filter_cons_False by done. done.
Qed.

Lemma existsb_ext_on {A} (f g : A → bool) (l : list A) :
  (∀ x, In x l → f x = g x) → existsb f l = existsb g l.
Proof.
  induction l as [|x l IH]; intros Hfg; simpl; [done|].
  rewrite (Hfg x) by (by left). rewrite IH; [done|].
  intros y Hy. apply Hfg. by right.
Qed.

Lemma flat_map_singletons {A B} (f : A → B) (l : list A) :
  flat_map (λ x, [f x]) l = map f l.
Proof. induction l as [|x l IH]; simpl; [done|]. by rewrite IH. Qed.

(** X10.  On a tensor of three axes that has a CA slot, the scorer
    counts the residues and, as missing, exactly the residues one of
    whose CA coordinates is NaN. *)
Theorem X10_missing_counts_unresolved_ca a (n0 n1 n2 : nat) :
  shape a = [n0; n1; n2] → (2 ≤ n1)%nat →
  length (data a) = (n0 * n1 * n2)%nat →
  Completeness.len (PyArray a) = Ok (Z.of_nat n0) ∧
  missing_ca_count (PyArray a) = Ok (unresolved_residues a n0 n1 n2).
Proof.
  intros Hs Hn1 Hlen. simpl. unfold Numpy.len, getitem_all_1_all. rewrite Hs.
  split; [done|].
  assert ((1 <? n1)%nat = true) as -> by (apply Nat.ltb_lt; lia).
  simpl. rewrite Nat.mul_1_r. f_equal.
  unfold Numpy.sum, unresolved_residues. simpl. f_equal.
  set (ca := flat_map (λ i, take n2 (drop ((i * n1 + 1) * n2) (data a)))
                      (seq 0 n0)).
  rewrite (flat_map_ext _ (λ i, [existsb (λ j, nth (i * n2 + j) (map is_nan ca) false)
                                        (seq 0 n2)])).
  2:{ intros i. simpl. f_equal. apply existsb_ext_on. intros j _. f_equal. lia. }
  rewrite flat_map_singletons, filter_map_length.
  f_equal. apply List.filter_ext_in. intros i Hi%in_seq.
  unfold ca_unresolved. apply existsb_ext_on. intros j Hj%in_seq.
  change false with (is_nan (Num 0)). rewrite map_nth. f_equal.
  unfold ca.
  assert (∀ x, (0 ≤ x < 0 + n0)%nat →
               length (take n2 (drop ((x * n1 + 1) * n2) (data a))) = n2) as Hblock.
  { intros x Hx. rewrite length_take, length_drop, Hlen.
    assert (x * n1 + 2 ≤ n0 * n1)%nat as Hrow.
    { assert ((x + 1) * n1 ≤ n0 * n1)%nat by (apply Nat.mul_le_mono_r; lia). lia. }
    assert ((x * n1 + 2) * n2 ≤ n0 * n1 * n2)%nat as Hoff
      by (by apply Nat.mul_le_mono_r).
    lia. }
  rewrite (nth_flat_map_blocks _ n2 (Num 0) j n0 0 i) by (lia || done).
  simpl. apply nth_take_drop. lia.
Qed.

End CompletenessExtras.

(** ** The priority ranker: names, penalties and unreadable files *)

Section PriorityExtras.
Import Py Str Numpy Completeness Priority.

(** X11.  For a name [<entity_id>-<TYPE><n>] or
    [<entity_id>-<TYPE><n>-suffix], with an entity id free of dashes and
    [n] in at most 4300 decimal digits, and numbers small enough for the
    arithmetic to stay within [int64], the score is
    [total * 500 - missing * 100 + bonus - n] with the bonus of the type
    the name spells and the number the digits denote.  (An ASU name
    must not carry the BIO marker in its suffix: the ranker looks for
    BIO first.) *)
Theorem X11_score_of_a_formatted_name d path entity_id v n suffix total missing :
  dash_free entity_id = true → all_digits n = true → n ≠ EmptyString →
  (String.length n ≤ int_max_str_digits)%nat →
  (suffix = EmptyString ∨ ∃ t, suffix = String "-" t) →
  (v = ASU → Str.contains "-BIO" suffix = false) →
  get_structure_completeness
    (d (npy_path path (formatted_name entity_id v n suffix))) = Ok (total, missing) →
  fits total missing (decimal_value n) →
  structure_priority d (formatted_name entity_id v n suffix) path
  = Ok (total * 500 - missing * 100
        + match v with BIO => 1000 | ASU => 500 end
        - decimal_value n).
Proof.
  intros Hent Hn Hne Hlen Hsuf Hasu Hc Hfit.
  destruct (instance_number_formatted entity_id v n suffix Hent Hn Hne Hlen Hsuf Hasu)
    as [Hv Hnum].
  rewrite (structure_priority_eq d _ path total missing Hc)
    by (by rewrite Hnum).
  rewrite Hv, Hnum. by destruct v.
Qed.

(** X12.  The instance number read from a name is never negative (a
    dash ends the number, so no minus sign reaches [int]); hence, while
    the arithmetic stays within [int64], no name earns more than its
    type bonus over the completeness score. *)
Theorem X12_instance_penalty_never_raises_a_score d name path total missing :
  get_structure_completeness (d (npy_path path name)) = Ok (total, missing) →
  fits total missing (default 0 (instance_number name)) →
  0 ≤ default 0 (instance_number name) ∧
  ∃ score,
    structure_priority d name path = Ok score ∧
    score ≤ total * 500 - missing * 100
            + match variant_type name with
              | Some BIO => 1000
              | Some ASU => 500
              | None => 0
              end.
Proof.
  intros Hc Hfit.
  pose proof (instance_number_nonneg_default name) as Hn.
  split; [done|].
  rewrite (structure_priority_eq d name path total missing Hc Hfit).
  eexists. split; [done|]. unfold bonus. lia.
Qed.

Lemma malformed_body_raises f :
  malformed f = true → ∃ e, completeness_body f = Raise e.
Proof.
  unfold completeness_body.
  destruct f as [| |v]; simpl; [by eauto..|].
  destruct v as [| | |kvs|]; simpl; try by eauto.
  by apply bad_chain_loop_raises.
Qed.

(** X13.  A structure whose coordinate file is missing, unreadable or
    malformed is still ranked: its score is the type bonus minus the
    instance number, the score of a structure without residues. *)
Theorem X13_unreadable_file_is_ranked_as_empty d name path :
  malformed (d (npy_path path name)) = true →
  structure_priority d name path
  = Ok (match variant_type name with
        | Some BIO => 1000
        | Some ASU => 500
        | None => 0
        end - default 0 (instance_number name)).
Proof.
  intros [e He]%malformed_body_raises.
  by rewrite (structure_priority_unread d name path e He).
Qed.

End PriorityExtras.

(** ** The comparison and the orchestrator: what they touch *)

Section OrchestratorExtras.
Import Py Fs Orchestrator OrchestratorSpec.
Import Str (path_join).
Context {F : Type}.
Variable float_of_string : string → option F.
Variable gt : F → F → bool.
Variable stem : string → string.
Variable tm_default : F.
Variable foldseek : list string → gmap string node → process.

Abbreviation run_foldseek_comparison :=
  (run_foldseek_comparison float_of_string gt stem foldseek).
Abbreviation remove_redundant_data :=
  (remove_redundant_data float_of_string gt stem tm_default foldseek).

Implicit Types (fs : gmap string node) (ws p : string).

(** X14.  Whenever the comparison of a group of several structures
    returns (with or without redundancies, after a FoldSeek failure it
    handles, or for want of a report), nothing is left of the group's
    temporary directory, provided that directory is neither the current
    directory nor the root, was no symbolic link, and is left a
    directory by FoldSeek. *)
Theorem X14_workspace_removed_on_return struct_list path tmp_dir thr fs R fs' ws :
  (1 < length struct_list)%nat →
  workspace struct_list tmp_dir = Some ws →
  is_root ws = false →
  (∀ t, fs !! ws ≠ Some (Symlink t)) →
  keeps_directory ws foldseek
    (foldseek_cmd (path_join ws "pdbs") (path_join ws "result")
                  (path_join ws "foldseek_tmp")) →
  run_foldseek_comparison struct_list path tmp_dir thr fs = (Ok R, fs') →
  ∀ p, under ws p = true → fs' !! p = None.
Proof.
  apply (run_foldseek_comparison_returns_clean float_of_string gt stem foldseek).
Qed.

Lemma same_outside_refl ws fs : same_outside ws fs fs.
Proof. by intros p _. Qed.

Lemma same_outside_trans ws fs1 fs2 fs3 :
  same_outside ws fs1 fs2 → same_outside ws fs2 fs3 → same_outside ws fs1 fs3.
Proof. intros H1 H2 p Hp. by rewrite (H2 p Hp), (H1 p Hp). Qed.

Lemma same_outside_insert ws fs q n :
  under ws q = true → same_outside ws fs (<[q := n]> fs).
Proof.
  intros Hq p Hp. apply lookup_insert_ne. intros ->. congruence.
Qed.

Lemma under_child ws x :
  Str.path_root x = "" → under ws (path_join ws x) = true.
Proof. intros Hx. apply under_join; [apply under_refl|done]. Qed.

(** Sequencing: the first part changes nothing outside, and neither
    does what follows it when it returns. *)
Lemma same_outside_bind {A B} ws (m : M A) (k : A → M B) fs :
  same_outside ws fs (m fs).2 →
  (∀ a fs1, m fs = (Ok a, fs1) → same_outside ws fs1 (k a fs1).2) →
  same_outside ws fs (bind m k fs).2.
Proof.
  intros Hm Hk. unfold bind. destruct (m fs) as [[a|e] fs1] eqn:Hrun; [|done].
  eapply same_outside_trans; [exact Hm|]. by apply Hk.
Qed.

Lemma same_outside_create ws q n fs :
  under ws q = true → same_outside ws fs (create q n fs).2.
Proof. intros Hq p Hp. apply create_other. intros ->. congruence. Qed.

Lemma same_outside_mkdir ws q fs :
  under ws q = true → same_outside ws fs (mkdir_exist_ok q fs).2.
Proof.
  intros Hq. destruct (mkdir_exist_ok_cases q fs) as [[-> _]| ->];
    [by apply same_outside_insert|apply same_outside_refl].
Qed.

(** In a directory that exists, [mkdir(parents=True)] makes no
    parent. *)
Lemma same_outside_mkdir_parents ws fs :
  fs !! Str.path_parent ws = Some Dir →
  same_outside ws fs (mkdir_parents ws fs).2.
Proof.
  intros Hparent. unfold mkdir_parents.
  assert (create ws Dir fs = (Ok tt, <[ws := Dir]> fs) ∨
          create ws Dir fs = (Raise FileExistsError, fs)) as Hc.
  { unfold create. destruct (fs !! ws); [by right|].
    rewrite (stat_nonlink fs _ Dir Hparent eq_refl). by left. }
  destruct (length (Str.path_parts ws)); simpl;
    destruct Hc as [-> | ->];
    try (apply same_outside_insert, under_refl);
    destruct (stat fs ws) as [[| |]|]; apply same_outside_refl.
Qed.

Lemma same_outside_rmtree ws fs : same_outside ws fs (rmtree ws fs).2.
Proof. intros p Hp. by apply rmtree_outside. Qed.

Lemma same_outside_rmtree_ret {A} ws (a : A) fs :
  same_outside ws fs ((rmtree ws ;; ret a)%fs fs).2.
Proof.
  unfold bind, ret. pose proof (same_outside_rmtree ws fs) as Hs.
  by destruct (rmtree ws fs) as [[[]|e] fs1].
Qed.

Lemma same_outside_stage ws abs_path x struct_list : ∀ valid fs,
  Str.path_root x = "" → plain_names struct_list = true →
  same_outside ws fs
    (stage_loop abs_path (path_join ws x) struct_list valid fs).2.
Proof.
  induction struct_list as [|s rest IH]; intros valid fs Hx Hplain; simpl.
  { apply same_outside_refl. }
  cbn [plain_names forallb] in Hplain.
  apply andb_true_iff in Hplain as [Hs Hrest].
  apply same_outside_bind; [apply same_outside_refl|].
  intros found fs1 _. destruct found; [|by apply IH].
  apply same_outside_bind; [|intros _ fs2 _; by apply IH].
  apply same_outside_create, under_join; [by apply under_child|].
  by apply (file_name_parts s ".pdb"); [|reflexivity|simpl; lia].
Qed.

Lemma same_outside_priority_map ws path valid : ∀ m fs,
  same_outside ws fs (priority_map path valid m fs).2.
Proof.
  intros m fs. rewrite (priority_map_reads path valid m fs).
  apply same_outside_refl.
Qed.

Lemma same_outside_subprocess ws cmd fs :
  confined ws foldseek cmd →
  same_outside ws fs (attempt (subprocess_run foldseek cmd) fs).2.
Proof.
  intros Hc. unfold attempt, subprocess_run. specialize (Hc fs).
  destruct (foldseek cmd fs) as [code after|]; [|apply same_outside_refl].
  by destruct code.
Qed.

(** The comparison changes nothing outside the temporary directory of
    the group, when the directory that one is made in exists and the
    names of the structures are file stems. *)
Lemma run_foldseek_comparison_confined struct_list path tmp_dir thr fs ws :
  workspace struct_list tmp_dir = Some ws →
  confined ws foldseek
    (foldseek_cmd (path_join ws "pdbs") (path_join ws "result")
                  (path_join ws "foldseek_tmp")) →
  fs !! Str.path_parent ws = Some Dir →
  plain_names struct_list = true →
  same_outside ws fs (run_foldseek_comparison struct_list path tmp_dir thr fs).2.
Proof.
  intros Hws Hconf Hparent Hplain. unfold Orchestrator.run_foldseek_comparison.
  destruct (length struct_list <=? 1)%nat; [apply same_outside_refl|].
  destruct struct_list as [|first rest]; [done|]. simpl in Hws.
  destruct (Str.split "-ASU" first !! 0%nat) as [before_asu|] eqn:H1; [|done].
  simpl in Hws.
  destruct (Str.split "-BIO" before_asu !! 0%nat) as [pdb_id|] eqn:H2; [|done].
  simpl in Hws. injection Hws as <-.
  apply same_outside_bind; [apply same_outside_refl|].
  intros x fs1 Hx. unfold lift, subscript in Hx. simpl in Hx.
  injection Hx as <- <-.
  apply same_outside_bind; [apply same_outside_refl|].
  intros x fs1 Hx. unfold lift, subscript in Hx. rewrite H1 in Hx.
  injection Hx as <- <-.
  apply same_outside_bind; [apply same_outside_refl|].
  intros x fs1 Hx. unfold lift, subscript in Hx. rewrite H2 in Hx.
  injection Hx as <- <-.
  apply same_outside_bind; [by apply same_outside_mkdir_parents|].
  intros _ fs1 _.
  apply same_outside_bind; [by apply same_outside_mkdir, under_child|].
  intros _ fs2 _.
  apply same_outside_bind; [by apply same_outside_stage|].
  intros valid fs3 _.
  destruct (length valid <=? 1)%nat; [apply same_outside_rmtree_ret|].
  apply same_outside_bind; [by apply same_outside_mkdir, under_child|].
  intros _ fs4 _.
  apply same_outside_bind; [by apply same_outside_subprocess|].
  intros ran fs5 _.
  destruct ran as [[]|e].
  - apply same_outside_bind; [apply same_outside_refl|].
    intros found fs6 _. destruct found; cbn [negb]; [|apply same_outside_rmtree_ret].
    apply same_outside_bind.
    { unfold read_lines. destruct (stat fs6 _) as [[|[| |]|]|];
        apply same_outside_refl. }
    intros lines fs7 _.
    apply same_outside_bind; [apply same_outside_refl|].
    intros pairs fs8 _.
    apply same_outside_bind; [apply same_outside_priority_map|].
    intros m fs9 _. apply same_outside_rmtree_ret.
  - destruct e; try apply same_outside_refl. apply same_outside_rmtree_ret.
Qed.

(** X15.  Whatever its outcome, the comparison changes nothing outside
    the group's temporary directory: no structure file is created,
    altered or deleted by comparing.  This holds when FoldSeek, run on
    the command the comparison builds, changes nothing outside that
    directory either, the directory it is made in exists, no symbolic
    link lies at or below it, its path has no [..] component and the
    names of the structures are file stems. *)
Theorem X15_comparison_confined_to_workspace struct_list path tmp_dir thr fs ws :
  workspace struct_list tmp_dir = Some ws →
  confined ws foldseek
    (foldseek_cmd (path_join ws "pdbs") (path_join ws "result")
                  (path_join ws "foldseek_tmp")) →
  fs !! Str.path_parent ws = Some Dir →
  link_free_under ws fs = true →
  ".." ∉ Str.path_parts ws →
  plain_names struct_list = true →
  same_outside ws fs (run_foldseek_comparison struct_list path tmp_dir thr fs).2.
Proof.
  intros Hws Hconf Hparent _ _ Hplain.
  by apply run_foldseek_comparison_confined.
Qed.

(** The comprehension returns the map of the scores, or raises the
    [OverflowError] of a score. *)
Lemma priority_map_spec path valid : ∀ m fs,
  (∃ m',
     priority_map path valid m fs = (Ok m', fs) ∧
     dom m' = list_to_set valid ∪ dom m ∧
     (∀ s, s ∈ valid →
           ∃ sc : Z, Priority.structure_priority (npy_at fs) s path = Ok sc ∧
                m' !! s = Some sc) ∧
     (∀ s, s ∉ valid → m' !! s = m !! s)) ∨
  (priority_map path valid m fs = (Raise OverflowError, fs) ∧
   ∃ s, s ∈ valid ∧
        Priority.structure_priority (npy_at fs) s path = Raise OverflowError).
Proof.
  induction valid as [|s rest IH]; intros m fs.
  { left. exists m. simpl. split; [done|]. split; [set_solver|].
    split; [by intros ? ?%elem_of_nil|done]. }
  simpl. unfold bind.
  destruct (structure_priority_outcome (npy_at fs) s path) as [[sc Hp]|Hp];
    rewrite Hp.
  2:{ right. split; [done|]. exists s. split; [by left|done]. }
  destruct (IH (<[s := sc]> m) fs)
    as [(m' & -> & Hdom & Hin & Hout)|(-> & x & Hx & Hraise)].
  2:{ right. split; [done|]. exists x. split; [by right|done]. }
  left. exists m'. split; [done|]. split.
  { rewrite Hdom, dom_insert_L. set_solver. }
  split.
  - intros x Hx. destruct (decide (x ∈ rest)) as [Hr|Hr]; [by apply Hin|].
    apply elem_of_cons in Hx as [->|Hx]; [|done].
    exists sc. split; [done|]. rewrite (Hout s Hr). apply lookup_insert_eq.
  - intros x Hx. apply not_elem_of_cons in Hx as [Hne Hx].
    rewrite (Hout x Hx). by apply lookup_insert_ne.
Qed.

(** X16.  Building the priority map reads only, and a corrupt or
    missing coordinate file never makes it fail: such a structure gets
    a score.  The map built holds, for every staged structure and for
    no other id, the score the ranker gives it on the directory as it
    is.  The one way not to get it is the [OverflowError] of a staged
    structure whose residue count, times 500, exceeds [int64]. *)
Theorem X16_priority_map_is_total path valid fs :
  ((∃ m,
      priority_map path valid ∅ fs = (Ok m, fs) ∧
      dom m = list_to_set valid ∧
      ∀ s, s ∈ valid →
           ∃ sc : Z, Priority.structure_priority (npy_at fs) s path = Ok sc ∧
                Resolver.get0 m s = sc) ∨
   (priority_map path valid ∅ fs = (Raise OverflowError, fs) ∧
    ∃ s total missing,
      s ∈ valid ∧
      Completeness.get_structure_completeness (npy_at fs (Priority.npy_path path s))
        = Ok (total, missing) ∧
      Numpy.int64_max < total * 500)) ∧
  ∀ s, Completeness.malformed (npy_at fs (Priority.npy_path path s)) = true →
       ∃ sc : Z, Priority.structure_priority (npy_at fs) s path = Ok sc.
Proof.
  split.
  - destruct (priority_map_spec path valid ∅ fs)
      as [(m & Hrun & Hdom & Hin & _)|(Hrun & s & Hs & Hraise)]; [left|right].
    + exists m. split; [done|]. split; [set_solver|].
      intros s Hs. destruct (Hin s Hs) as (sc & Hp & Hm).
      exists sc. split; [done|]. unfold Resolver.get0. by rewrite Hm.
    + split; [done|].
      apply structure_priority_raises in Hraise as (_ & t & m & Hc & Hbig).
      by exists s, t, m.
  - intros s [e He]%malformed_body_raises.
    rewrite (structure_priority_unread (npy_at fs) s path e He). by eauto.
Qed.

(** What the loop has achieved for an id it reports: neither path leads
    to a file, and a path that was no symbolic link has no entry
    left. *)
Lemma remove_loop_gone path ids : ∀ removed fs,
  ∃ removed' fs',
    remove_loop path ids removed fs = (Ok removed', fs') ∧
    fs' ⊆ fs ∧
    ∀ s, s ∈ removed' →
         s ∈ removed ∨
         (s ∈ ids ∧
          absent fs' (pdb_path path s) ∧ absent fs' (Priority.npy_path path s) ∧
          ((∀ t, fs !! pdb_path path s ≠ Some (Symlink t)) →
           fs' !! pdb_path path s = None) ∧
          ((∀ t, fs !! Priority.npy_path path s ≠ Some (Symlink t)) →
           fs' !! Priority.npy_path path s = None)).
Proof.
  induction ids as [|s ids IH]; intros removed fs.
  { exists removed, fs. simpl. split; [done|]. split; [done|]. by left. }
  simpl. unfold bind at 1. unfold attempt.
  assert (∀ fs1 q, fs1 ⊆ fs → (∀ t, fs !! q ≠ Some (Symlink t)) →
                   ∀ t, fs1 !! q ≠ Some (Symlink t)) as Hlinks.
  { intros fs1 q Hsub Hnl t Hq. by apply (Hnl t), (lookup_weaken _ _ _ _ Hq Hsub). }
  destruct (remove_files_cases path s fs)
    as [(Hb & fs1 & -> & _ & Hsub & _)
       |(Hb & fs1 & -> & (_ & Hsub & _) & Ha1 & Ha2 & Hg1 & Hg2)]; simpl.
  - destruct (IH removed fs1) as (removed' & fs' & -> & Hsub' & Hgone).
    exists removed', fs'. split; [done|]. split; [by etrans|].
    intros x Hx. destruct (Hgone x Hx) as [?|(?&?&?&G1&G2)]; [by left|right].
    split; [by right|]. split; [done|]. split; [done|].
    split; intros Hnl; [apply G1|apply G2]; by apply Hlinks.
  - destruct (IH (removed ++ [s]) fs1) as (removed' & fs' & -> & Hsub' & Hgone).
    exists removed', fs'. split; [done|]. split; [by etrans|].
    intros x Hx. destruct (Hgone x Hx) as [Hacc|(?&?&?&G1&G2)].
    + apply elem_of_app in Hacc as [?|Hs]; [by left|].
      apply list_elem_of_singleton in Hs as ->. right. split; [by left|].
      split; [by apply (absent_weaken fs1)|].
      split; [by apply (absent_weaken fs1)|].
      split; intros Hnl; eapply lookup_weaken_None; eauto.
    + right. split; [by right|]. split; [done|]. split; [done|].
      split; intros Hnl; [apply G1|apply G2]; by apply Hlinks.
Qed.

(** X17.  After the deletion loop, for no id reported as removed does
    the path of the geometry file or of the coordinate file lead to a
    file, and a path that was no symbolic link has no entry left; the
    loop creates nothing, and touches no path other than the two files
    of the ids it was given. *)
Theorem X17_reported_ids_have_no_file_left path ids fs :
  ∃ removed fs',
    remove_loop path ids [] fs = (Ok removed, fs') ∧
    (∀ s, s ∈ removed →
          s ∈ ids ∧
          absent fs' (pdb_path path s) ∧ absent fs' (Priority.npy_path path s) ∧
          ((∀ t, fs !! pdb_path path s ≠ Some (Symlink t)) →
           fs' !! pdb_path path s = None) ∧
          ((∀ t, fs !! Priority.npy_path path s ≠ Some (Symlink t)) →
           fs' !! Priority.npy_path path s = None)) ∧
    fs' ⊆ fs ∧
    (∀ p, (∀ s, s ∈ ids → p ≠ pdb_path path s ∧ p ≠ Priority.npy_path path s) →
          fs' !! p = fs !! p).
Proof.
  destruct (remove_loop_gone path ids [] fs) as (removed & fs' & Hrun & Hsub & Hgone).
  destruct (remove_loop_spec path ids [] fs) as (fs'' & Hrun' & _ & _ & Hout).
  rewrite Hrun in Hrun'. injection Hrun' as _ <-.
  exists removed, fs'. split; [done|]. split; [|done].
  intros s Hs. destruct (Hgone s Hs) as [?%elem_of_nil|?]; done.
Qed.

(** X18.  An orchestrator run changes, outside the group's temporary
    directory, nothing but files of ids of the removal set, which it
    deletes: every other entry of the structure directory is after the
    run what it was before, whether the run returns or raises.  The
    conditions are those of X15. *)
Theorem X18_only_removed_ids_lose_files pdb struct_list path tmp_base_dir fs0 ws :
  workspace struct_list tmp_base_dir = Some ws →
  confined ws foldseek
    (foldseek_cmd (path_join ws "pdbs") (path_join ws "result")
                  (path_join ws "foldseek_tmp")) →
  fs0 !! Str.path_parent ws = Some Dir →
  link_free_under ws fs0 = true →
  ".." ∉ Str.path_parts ws →
  plain_names struct_list = true →
  ∀ p, under ws p = false →
    let fs' := (remove_redundant_data (pdb, struct_list) path tmp_base_dir fs0).2 in
    fs' !! p = fs0 !! p ∨
    (fs' !! p = None ∧
     ∃ to_remove fs1 s,
       run_foldseek_comparison struct_list path tmp_base_dir tm_default fs0
         = (Ok to_remove, fs1) ∧
       s ∈ to_remove ∧
       (p = pdb_path path s ∨ p = Priority.npy_path path s)).
Proof.
  intros Hws Hconf Hparent _ _ Hplain p Hp. simpl.
  pose proof (run_foldseek_comparison_confined struct_list path tmp_base_dir
                tm_default fs0 ws Hws Hconf Hparent Hplain p Hp) as Hframe.
  assert (∀ {A B} (m : M A) (k : A → M B) fs,
            bind m k fs = match m fs with
                          | (Ok a, fs1) => k a fs1
                          | (Raise e, fs1) => (Raise e, fs1)
                          end) as Hbind by reflexivity.
  unfold Orchestrator.remove_redundant_data.
  destruct (length struct_list <=? 1)%nat; [by left|].
  rewrite Hbind.
  destruct (run_foldseek_comparison struct_list path tmp_base_dir tm_default fs0)
    as [[to_remove|e] fs1] eqn:Hrun; simpl in Hframe; [|by left].
  destruct (remove_loop_spec path (elements to_remove) [] fs1)
    as (fs2 & Hloop & _ & Hsub & Hout).
  rewrite Hbind, Hloop.
  assert (∀ r : list string,
            (match r with
             | [] => ret (NoRedundancy pdb (length struct_list))
             | _ :: _ => ret (Removed pdb (length r) (length struct_list) r)
             end fs2).2 = fs2) as Hret by (by intros []).
  rewrite Hret. clear Hret Hbind.
  destruct (fs2 !! p) as [n|] eqn:Hp2.
  { left. rewrite <- Hframe. symmetry. by apply (lookup_weaken _ _ _ _ Hp2 Hsub). }
  destruct (decide (Exists (λ s, p = pdb_path path s ∨ p = Priority.npy_path path s)
                           (elements to_remove))) as [Hex|Hex].
  - right. split; [done|].
    apply Exists_exists in Hex as (s & Hs%elem_of_elements & Hpath).
    by exists to_remove, fs1, s.
  - left. rewrite <- Hp2, <- Hframe. apply Hout.
    intros s Hs. split; intros ->; apply Hex, Exists_exists; exists s; auto.
Qed.

End OrchestratorExtras.

(** ** The entry point: groups *)

Section GroupingExtras.
Import Py Str Main.
Variable stem : string → string.

Lemma split_without_separator sep (s : string) : ∀ cur,
  Str.contains sep s = false → split_from sep 0 cur s = [String.append cur s].
Proof.
  induction s as [|c s IH]; intros cur.
  { intros _. simpl. by rewrite append_empty_r. }
  cbn [Str.contains split_from].
  destruct (String.prefix sep (String c s)); [done|].
  intros Hs. rewrite (IH _ Hs). by rewrite append_assoc, append_cons, append_nil.
Qed.

Lemma group_key_returns (s : string) : ∃ k, group_key s = Ok k.
Proof.
  unfold group_key, subscript, split.
  destruct (Str.contains "-ASU" s).
  { destruct (split_from_head "ASU" s "") as (h & t & -> & _). by exists h. }
  destruct (Str.contains "-BIO" s); [|by eexists].
  destruct (split_from_head "BIO" s "") as (h & t & -> & _). by exists h.
Qed.

Lemma dict_lookup_append md (k s k' : string) :
  dict_lookup (dict_append md k s) k' =
  if String.eqb k k' then Some (default [] (dict_lookup md k) ++ [s])
  else dict_lookup md k'.
Proof.
  induction md as [|[k0 l0] md IH]; simpl.
  { by destruct (String.eqb k k'). }
  destruct (String.eqb_spec k0 k) as [->|Hne]; simpl.
  - by destruct (String.eqb k k').
  - rewrite IH.
    destruct (String.eqb_spec k k') as [->|Hne'].
    + by destruct (String.eqb_spec k0 k').
    + done.
Qed.

Lemma dict_append_keys md (k s : string) :
  map fst (dict_append md k s) =
  if bool_decide (k ∈ map fst md) then map fst md else map fst md ++ [k].
Proof.
  induction md as [|[k0 l0] md IH]; simpl; [done|].
  destruct (String.eqb_spec k0 k) as [->|Hne]; simpl.
  - rewrite bool_decide_true by (by left). done.
  - rewrite IH. destruct (bool_decide (k ∈ map fst md)) eqn:Hin.
    + apply bool_decide_eq_true in Hin.
      rewrite bool_decide_true by (by right). done.
    + apply bool_decide_eq_false in Hin.
      rewrite bool_decide_false; [done|].
      intros [?|?]%elem_of_cons; congruence.
Qed.

Lemma dict_append_NoDup md (k s : string) :
  NoDup (map fst md) → NoDup (map fst (dict_append md k s)).
Proof.
  intros Hnd. rewrite dict_append_keys.
  destruct (bool_decide (k ∈ map fst md)) eqn:Hin; [done|].
  apply bool_decide_eq_false in Hin.
  apply NoDup_app. split; [done|]. split; [|apply NoDup_singleton].
  intros x Hx ->%list_elem_of_singleton. done.
Qed.

Lemma dict_append_size md (k s : string) :
  list_sum (map (λ kv, length kv.2) (dict_append md k s))
  = S (list_sum (map (λ kv, length kv.2) md)).
Proof.
  induction md as [|[k0 l0] md IH]; simpl; [done|].
  destruct (String.eqb k0 k); simpl.
  - rewrite length_app. simpl. lia.
  - rewrite IH. lia.
Qed.

Lemma dict_lookup_elem md (k : string) (l : list string) :
  NoDup (map fst md) → (k, l) ∈ md ↔ dict_lookup md k = Some l.
Proof.
  induction md as [|[k0 l0] md IH]; simpl.
  { intros _. split; [by intros ?%elem_of_nil|done]. }
  intros [Hk0 Hnd]%NoDup_cons. rewrite elem_of_cons.
  destruct (String.eqb_spec k0 k) as [->|Hne].
  - split.
    + intros [[= ->]|Hin]; [done|]. exfalso. apply Hk0.
      apply list_elem_of_fmap. by exists (k, l).
    + intros [= ->]. by left.
  - rewrite <- (IH Hnd). split; [|by right].
    intros [[= ? ?]|?]; [congruence|done].
Qed.

Lemma members_snoc (k s : string) (structs : list string) :
  members k (structs ++ [s]) =
  members k structs ++ (if has_key k s then [s] else []).
Proof.
  unfold members. rewrite List.filter_app. simpl. by destruct (has_key k s).
Qed.

Lemma grouped_step md structs (s k : string) :
  group_key s = Ok k → grouped md structs →
  grouped (dict_append md k s) (structs ++ [s]).
Proof.
  intros Hk (Hnd & Hsize & Hlook). split; [by apply dict_append_NoDup|].
  split; [rewrite dict_append_size, length_app, Hsize; simpl; lia|].
  intros k'. rewrite dict_lookup_append, members_snoc.
  assert (has_key k' s = String.eqb k k') as -> by (unfold has_key; by rewrite Hk).
  rewrite (Hlook k), (Hlook k').
  destruct (String.eqb_spec k k') as [->|Hne].
  - destruct (members k' structs); done.
  - rewrite app_nil_r. done.
Qed.

Lemma group_loop_grouped files : ∀ md structs,
  grouped md structs →
  ∃ md', group_loop stem files md = Ok md' ∧
         grouped md' (structs ++ map stem files).
Proof.
  induction files as [|file files IH]; intros md structs Hg; simpl.
  { exists md. by rewrite app_nil_r. }
  destruct (group_key_returns (stem file)) as [k Hk]. rewrite Hk. simpl.
  destruct (IH _ _ (grouped_step md structs (stem file) k Hk Hg))
    as (md' & -> & Hg').
  exists md'. split; [done|]. by rewrite <- app_assoc in Hg'.
Qed.

(** X19.  Grouping never fails and partitions the structures by PDB
    id: the dict has one entry per id that occurs, its value lists the
    structures of that id in the order of the input and is never empty,
    and the group sizes add up to the number of files. *)
Theorem X19_groups_partition_the_structures (pdb_files : list string) :
  ∃ master_dict,
    group_structures stem pdb_files = Ok master_dict ∧
    NoDup (map fst master_dict) ∧
    (∀ pdb l, (pdb, l) ∈ master_dict ↔
              l = members pdb (map stem pdb_files) ∧ l ≠ []) ∧
    list_sum (map (λ kv, length kv.2) master_dict) = length pdb_files.
Proof.
  destruct (group_loop_grouped pdb_files [] [])
    as (md & Hrun & Hnd & Hsize & Hlook).
  { split; [constructor|]. split; [done|]. intros k. done. }
  exists md. split; [done|]. split; [done|]. simpl in *. split.
  - intros k l. rewrite (dict_lookup_elem md k l Hnd), (Hlook k).
    destruct (members k (map stem pdb_files)) as [|x xs]; split.
    + done.
    + by intros [-> ?].
    + intros [= <-]. done.
    + intros [-> _]. done.
  - by rewrite Hsize, length_map.
Qed.

End GroupingExtras.

(** ** The entry point: workspace names and output paths *)

Section PathExtras.
Import Py Str Main.
Import Str (path_join).

(** X20.  The temporary directory of a group is named after the PDB id
    the entry point groups by: for a first structure whose name carries
    no ASU marker, or whose PDB id carries no BIO marker, the comparison
    works in [tmp_dir/<PDB id>]. *)
Theorem X20_workspace_is_named_after_the_group first rest tmp_dir k :
  group_key first = Ok k →
  Str.contains "-ASU" first = false ∨ Str.contains "-BIO" k = false →
  Orchestrator.workspace (first :: rest) tmp_dir = Some (path_join tmp_dir k).
Proof.
  unfold group_key, Orchestrator.workspace, subscript, split.
  destruct (Str.contains "-ASU" first) eqn:Hasu.
  - destruct (split_from "-ASU" 0 "" first !! 0%nat) as [h|] eqn:Hh; [|done].
    intros [= <-] [?|Hbio]; [done|]. simpl.
    by rewrite (split_without_separator "-BIO" h "" Hbio), append_nil.
  - intros Hk _.
    rewrite (split_without_separator "-ASU" first "" Hasu), append_nil. simpl.
    destruct (Str.contains "-BIO" first) eqn:Hbio.
    + destruct (split_from "-BIO" 0 "" first !! 0%nat) as [h|]; [|done].
      by injection Hk as <-.
    + injection Hk as <-.
      by rewrite (split_without_separator "-BIO" first "" Hbio), append_nil.
Qed.

Lemma join_snoc sep (init : list string) (last : string) :
  init ≠ [] →
  join sep (init ++ [last]) =
  String.append (join sep init) (String.append sep last).
Proof.
  induction init as [|x init IH]; [done|]. intros _.
  destruct init as [|y init]; [done|].
  change (join sep ((x :: y :: init) ++ [last]))
    with (String.append x (String.append sep (join sep ((y :: init) ++ [last])))).
  rewrite IH by done.
  change (join sep (x :: y :: init))
    with (String.append x (String.append sep (join sep (y :: init)))).
  by rewrite !append_assoc.
Qed.

Lemma contains_underscore_cons (c : ascii) (s : string) :
  Str.contains "_" (String c s) = Ascii.eqb c "_" || Str.contains "_" s.
Proof.
  cbn [Str.contains String.prefix].
  destruct (Ascii.eqb_spec c "_") as [->|Hne].
  - destruct (ascii_dec "_" "_"); [|done]. by destruct s.
  - destruct (ascii_dec "_" c) as [<-|]; done.
Qed.

(** Splitting on the underscore: the pieces join back to the string,
    and the last piece is what follows the last underscore. *)
Lemma split_underscore (s : string) : ∀ cur,
  ∃ init last,
    split_from "_" 0 cur s = init ++ [last] ∧
    join "_" (init ++ [last]) = String.append cur s ∧
    (init = [] → Str.contains "_" s = false) ∧
    (init ≠ [] → Str.contains "_" s = true ∧ Str.contains "_" last = false).
Proof.
  induction s as [|c s IH]; intros cur.
  { exists [], cur. simpl. rewrite append_empty_r. done. }
  cbn [split_from]. rewrite contains_underscore_cons.
  assert (String.prefix "_" (String c s) = Ascii.eqb c "_") as ->.
  { cbn [String.prefix]. destruct (Ascii.eqb_spec c "_") as [->|Hne].
    - destruct (ascii_dec "_" "_"); [|done]. by destruct s.
    - destruct (ascii_dec "_" c) as [<-|]; done. }
  destruct (Ascii.eqb_spec c "_") as [->|Hne]; simpl.
  - destruct (IH "") as (init & last & -> & Hjoin & Hnil & Hcons).
    exists (cur :: init), last. split; [done|]. split.
    + change (join "_" ((cur :: init) ++ [last]))
        with (match init ++ [last] with
              | [] => cur
              | _ :: _ => String.append cur
                            (String.append "_" (join "_" (init ++ [last])))
              end).
      rewrite Hjoin, append_nil. by destruct init.
    + split; [done|]. intros _. split; [done|].
      destruct init as [|x init].
      * specialize (Hnil eq_refl). simpl in Hjoin. rewrite append_nil in Hjoin.
        by subst last.
      * by apply Hcons.
  - destruct (IH (String.append cur (String c ""))) as (init & last & -> & Hjoin & Hr).
    exists init, last. split; [done|]. split; [|done].
    by rewrite Hjoin, append_assoc, append_cons, append_nil.
Qed.

Lemma removelast_snoc {A} (l : list A) (x : A) : removelast (l ++ [x]) = l.
Proof. apply removelast_last. Qed.

(** X21.  The names of the curated outputs are cut at the last
    underscore of the input directory: [original] is what precedes it.
    A directory name without underscore leaves [original] empty, so that
    with [--make_new_dir] the outputs are [_curated] and
    [_curation_summary.csv] in the current directory. *)
Theorem X21_output_names_cut_at_last_underscore (args : arguments) :
  (Str.contains "_" (pdb_folder args) = false ∧ original args = EmptyString) ∨
  (Str.contains "_" (pdb_folder args) = true ∧
   ∃ last, Str.contains "_" last = false ∧
           pdb_folder args
           = String.append (original args) (String.append "_" last)).
Proof.
  unfold original, split.
  destruct (split_underscore (pdb_folder args) "")
    as (init & last & -> & Hjoin & Hnil & Hcons).
  rewrite removelast_snoc. rewrite append_nil in Hjoin.
  destruct init as [|x init].
  - left. split; [by apply Hnil|done].
  - right. destruct Hcons as [Hc Hl]; [done|]. split; [done|].
    exists last. split; [done|]. rewrite <- Hjoin. by apply join_snoc.
Qed.

End PathExtras.

(** ** The reconciler: what the rewritten table holds *)

Section ReconcilerExtras.
Import Reconciler ReconcilerSpec.
Context {V : Type}.
Variable le_V : V → V → bool.

Implicit Types (r k : row V) (df : list (row V)).

(** X22.  The rewritten table is sorted by name and bioassembly and
    holds exactly the rows of the table read whose [Name] cell holds a
    string that is among the surviving ids, each as often as the table
    read has it: no row is added or altered, and a row is lost otherwise
    only when its [Name] cell holds no string (a column pandas typed as
    numbers, a missing cell). *)
Theorem X22_table_is_sorted_survivors (leftover_files : list string)
    (df : list (record V)) :
  (∀ a b, le_V a b = true ∨ le_V b a = true) →
  sorted le_V (reconcile_frame le_V leftover_files df) ∧
  reconcile_frame le_V leftover_files df
    ≡ₚ List.filter (isin leftover_files) (str_rows df) ∧
  (∀ r, r ∈ reconcile_frame le_V leftover_files df ↔
        (∃ e, e ∈ df ∧ name_cell e = Str (Name r) ∧
              bioassembly e = Bioassembly r ∧ other_cells e = others r) ∧
        Name r ∈ leftover_files) ∧
  (length (reconcile_frame le_V leftover_files df) ≤ length df)%nat.
Proof.
  intros Htotal. unfold reconcile_frame, reconcile.
  pose proof (sort_values_perm le_V
                (List.filter (isin leftover_files) (str_rows df))) as Hp.
  split; [by apply sort_values_sorted|]. split; [done|]. split.
  - intros r. rewrite Hp, list_elem_of_In, filter_In, <- list_elem_of_In.
    unfold isin, str_rows. rewrite bool_decide_eq_true, list_elem_of_omap.
    split; intros [(e & He & Hr) Hn]; (split; [|done]); exists e;
      (split; [done|]).
    + unfold str_row in Hr. destruct (name_cell e); [|done].
      injection Hr as <-. done.
    + destruct Hr as (Hc & Hb & Ho). unfold str_row. rewrite Hc, Hb, Ho.
      by destruct r.
  - rewrite Hp. etrans; [apply List.filter_length_le|].
    unfold str_rows. clear Hp. induction df as [|e df IH]; [done|].
    unfold omap in *. simpl. destruct (str_row e); simpl; lia.
Qed.




End ReconcilerExtras.

(** ** Instances of the properties above on the sample directory *)

Section ExtraWitnesses.
Import Py Numpy Completeness Priority Fs Orchestrator OrchestratorSpec.
Import Samples MoreSamples.

Lemma X1_every_pair_is_resolved_witness :
  "1ABC-ASU1" ∈ Resolver.resolve priorities_1ABC pairs_1ABC ∨
  "1ABC-BIO2" ∈ Resolver.resolve priorities_1ABC pairs_1ABC.
Proof.
  apply (X1_every_pair_is_resolved priorities_1ABC pairs_1ABC
           ("1ABC-ASU1", "1ABC-BIO2", 1000000)%string).
  by left.
Defined.

Lemma X2_removed_ids_lost_a_comparison_witness :
  ∃ e, e ∈ pairs_1ABC ∧
    (("1ABC-ASU1" = e.1.2 ∧
      Resolver.get0 priorities_1ABC e.1.1 > Resolver.get0 priorities_1ABC "1ABC-ASU1") ∨
     ("1ABC-ASU1" = e.1.1 ∧
      Resolver.get0 priorities_1ABC "1ABC-ASU1" ≤ Resolver.get0 priorities_1ABC e.1.2)).
Proof.
  apply (X2_removed_ids_lost_a_comparison priorities_1ABC pairs_1ABC "1ABC-ASU1").
  assert (Resolver.resolve priorities_1ABC pairs_1ABC
          = {["1ABC-ASU1"; "1ABC-BIO2"]}) as -> by (vm_compute; reflexivity).
  set_solver.
Defined.

Lemma X4_some_endpoint_survives_witness :
  ∃ e s, e ∈ pairs_1ABC ∧ (s = e.1.1 ∨ s = e.1.2) ∧
         s ∉ Resolver.resolve priorities_1ABC pairs_1ABC.
Proof.
  apply (X4_some_endpoint_survives priorities_1ABC pairs_1ABC); [done|].
  unfold pairs_1ABC. repeat (apply List.Forall_cons; [simpl; discriminate|]).
  apply List.Forall_nil.
Defined.

Lemma X5_order_matters_on_a_chain_witness :
  Resolver.resolve priorities_1ABC
    [("1ABC-BIO1", "1ABC-BIO2", 0); ("1ABC-BIO2", "1ABC-ASU1", 0)]%string
    = {["1ABC-BIO2"]} ∧
  Resolver.resolve priorities_1ABC
    [("1ABC-BIO2", "1ABC-ASU1", 0); ("1ABC-BIO1", "1ABC-BIO2", 0)]%string
    = {["1ABC-BIO2"; "1ABC-ASU1"]}.
Proof.
  apply (X5_order_matters_on_a_chain priorities_1ABC
           "1ABC-BIO1" "1ABC-BIO2" "1ABC-ASU1" 0 0); vm_compute; reflexivity.
Defined.

Lemma X8_chain_order_is_irrelevant_witness :
  get_structure_completeness (Item (PyDict [("A", chain_A); ("B", chain_B)]))
  = get_structure_completeness (Item (PyDict [("B", chain_B); ("A", chain_A)])).
Proof.
  apply (X8_chain_order_is_irrelevant
           [("A", chain_A); ("B", chain_B)] [("B", chain_B); ("A", chain_A)]).
  apply Permutation_swap.
Defined.

Lemma X9_counters_add_over_chains_witness :
  ∃ t1 m1 t2 m2,
    get_structure_completeness (Item (PyDict [("A", chain_A)])) = Ok (t1, m1) ∧
    get_structure_completeness (Item (PyDict [("B", chain_B)])) = Ok (t2, m2) ∧
    get_structure_completeness
      (Item (PyDict ([("A", chain_A)] ++ [("B", chain_B)])))
    = Ok (t1 + t2, m1 + m2).
Proof.
  apply (X9_counters_add_over_chains [("A", chain_A)] [("B", chain_B)]).
  reflexivity.
Defined.

Lemma X10_missing_counts_unresolved_ca_witness :
  Completeness.len (PyArray two_residues) = Ok (Z.of_nat 2) ∧
  missing_ca_count (PyArray two_residues)
  = Ok (CompletenessSpec.unresolved_residues two_residues 2 37 3).
Proof.
  apply (X10_missing_counts_unresolved_ca two_residues 2 37 3);
    [reflexivity|lia|reflexivity].
Defined.

Lemma X11_score_of_a_formatted_name_witness :
  structure_priority disk_bio102 (formatted_name "7XYZ" BIO "102" "") "db"
  = Ok (1 * 500 - 0 * 100 + 1000 - Str.decimal_value "102").
Proof.
  apply (X11_score_of_a_formatted_name disk_bio102 "db" "7XYZ" BIO "102" "" 1 0);
    try reflexivity.
  - discriminate.
  - unfold Str.int_max_str_digits. simpl. lia.
  - by left.
  - vm_compute. split; discriminate.
Defined.

Lemma X12_instance_penalty_never_raises_a_score_witness :
  0 ≤ default 0 (instance_number "7XYZ-ASU1") ∧
  ∃ score,
    structure_priority disk_bio102 "7XYZ-ASU1" "db" = Ok score ∧
    score ≤ 2 * 500 - 1 * 100
            + match variant_type "7XYZ-ASU1" with
              | Some BIO => 1000
              | Some ASU => 500
              | None => 0
              end.
Proof.
  apply (X12_instance_penalty_never_raises_a_score disk_bio102 "7XYZ-ASU1" "db" 2 1).
  - reflexivity.
  - vm_compute. split; discriminate.
Defined.

Lemma X13_unreadable_file_is_ranked_as_empty_witness :
  structure_priority disk_bio102 "7XYZ-BIO9" "db"
  = Ok (match variant_type "7XYZ-BIO9" with
        | Some BIO => 1000
        | Some ASU => 500
        | None => 0
        end - default 0 (instance_number "7XYZ-BIO9")).
Proof.
  apply (X13_unreadable_file_is_ranked_as_empty disk_bio102 "7XYZ-BIO9" "db").
  reflexivity.
Defined.

(** The sample FoldSeek writes its report below the directory of the
    group of 1ABC and nothing else. *)
Lemma foldseek_writes_confined_1ABC report :
  confined "db/foldseek_tmp/1ABC" (foldseek_writes report)
    (foldseek_cmd (Str.path_join "db/foldseek_tmp/1ABC" "pdbs")
                  (Str.path_join "db/foldseek_tmp/1ABC" "result")
                  (Str.path_join "db/foldseek_tmp/1ABC" "foldseek_tmp")).
Proof. intros fs. by apply same_outside_insert. Qed.

Lemma foldseek_writes_keeps_1ABC report :
  keeps_directory "db/foldseek_tmp/1ABC" (foldseek_writes report)
    (foldseek_cmd (Str.path_join "db/foldseek_tmp/1ABC" "pdbs")
                  (Str.path_join "db/foldseek_tmp/1ABC" "result")
                  (Str.path_join "db/foldseek_tmp/1ABC" "foldseek_tmp")).
Proof.
  intros fs code after [= _ <-] Hdir. by rewrite lookup_insert_ne.
Qed.

Lemma X14_workspace_removed_on_return_witness :
  compared_1ABC.2 !! "db/foldseek_tmp/1ABC/pdbs/1ABC-ASU1.pdb" = None.
Proof.
  apply (X14_workspace_removed_on_return decimal Z.gtb Str.stem
           (foldseek_writes report_1ABC) group_1ABC "db" "db/foldseek_tmp"
           threshold_999 fs_1ABC {["1ABC-ASU1"; "1ABC-BIO2"]} compared_1ABC.2
           "db/foldseek_tmp/1ABC").
  - simpl. lia.
  - reflexivity.
  - reflexivity.
  - intros t. vm_compute. discriminate.
  - apply (foldseek_writes_keeps_1ABC report_1ABC).
  - vm_compute. reflexivity.
  - reflexivity.
Defined.

Lemma X15_comparison_confined_to_workspace_witness :
  compared_1ABC.2 !! "db/1ABC-ASU1.pdb" = fs_1ABC !! "db/1ABC-ASU1.pdb".
Proof.
  apply (X15_comparison_confined_to_workspace decimal Z.gtb Str.stem
           (foldseek_writes report_1ABC) group_1ABC "db" "db/foldseek_tmp"
           threshold_999 fs_1ABC "db/foldseek_tmp/1ABC").
  - reflexivity.
  - apply (foldseek_writes_confined_1ABC report_1ABC).
  - reflexivity.
  - vm_compute. reflexivity.
  - vm_compute. set_solver.
  - reflexivity.
  - reflexivity.
Defined.

Lemma X17_reported_ids_have_no_file_left_witness :
  ∃ removed fs',
    remove_loop "db" ["1ABC-ASU1"; "1ABC-BIO2"]%string [] fs_1ABC
      = (Ok removed, fs') ∧
    removed = ["1ABC-ASU1"; "1ABC-BIO2"]%string ∧
    fs' !! "db/1ABC-ASU1.pdb" = None ∧
    fs' !! "db/1ABC-BIO1.pdb" = fs_1ABC !! "db/1ABC-BIO1.pdb".
Proof.
  destruct (X17_reported_ids_have_no_file_left "db"
              ["1ABC-ASU1"; "1ABC-BIO2"]%string fs_1ABC)
    as (removed & fs' & Hrun & _).
  exists removed, fs'. split; [exact Hrun|].
  vm_compute in Hrun. injection Hrun as <- <-.
  split; [reflexivity|]. split; vm_compute; reflexivity.
Defined.

Lemma X18_only_removed_ids_lose_files_witness :
  let p := "db/1ABC-BIO1.pdb" in
  let fs' := (remove_redundant_data decimal Z.gtb Str.stem threshold_999
                (foldseek_writes report_1ABC) ("1ABC", group_1ABC) "db"
                "db/foldseek_tmp" fs_1ABC).2 in
  fs' !! p = fs_1ABC !! p ∨
  (fs' !! p = None ∧
   ∃ to_remove fs1 s,
     run_foldseek_comparison decimal Z.gtb Str.stem (foldseek_writes report_1ABC)
       group_1ABC "db" "db/foldseek_tmp" threshold_999 fs_1ABC
       = (Ok to_remove, fs1) ∧
     s ∈ to_remove ∧
     (p = pdb_path "db" s ∨ p = Priority.npy_path "db" s)).
Proof.
  apply (X18_only_removed_ids_lose_files decimal Z.gtb Str.stem threshold_999
           (foldseek_writes report_1ABC) "1ABC" group_1ABC "db" "db/foldseek_tmp"
           fs_1ABC "db/foldseek_tmp/1ABC").
  - reflexivity.
  - apply (foldseek_writes_confined_1ABC report_1ABC).
  - reflexivity.
  - vm_compute. reflexivity.
  - vm_compute. set_solver.
  - reflexivity.
  - reflexivity.
Defined.

Lemma X20_workspace_is_named_after_the_group_witness :
  workspace ["1ABC-ASU1"; "1ABC-BIO1"]%string "db/foldseek_tmp"
  = Some (Str.path_join "db/foldseek_tmp" "1ABC").
Proof.
  apply (X20_workspace_is_named_after_the_group "1ABC-ASU1" ["1ABC-BIO1"]%string
           "db/foldseek_tmp" "1ABC"); [reflexivity|right; reflexivity].
Defined.

Lemma Z_leb_total (a b : Z) : (a <=? b) = true ∨ (b <=? a) = true.
Proof. destruct (Z.leb_spec a b); [by left|right]. apply Z.leb_le. lia. Qed.


Lemma X22_table_is_sorted_survivors_witness :
  Reconciler.sorted Z.leb (Reconciler.reconcile_frame Z.leb left_1ABC frame_1ABC) ∧
  Reconciler.reconcile_frame Z.leb left_1ABC frame_1ABC
    ≡ₚ List.filter (Reconciler.isin left_1ABC) (Reconciler.str_rows frame_1ABC) ∧
  (∀ r, r ∈ Reconciler.reconcile_frame Z.leb left_1ABC frame_1ABC ↔
        (∃ e, e ∈ frame_1ABC ∧
              Reconciler.name_cell e = Reconciler.Str (Reconciler.Name r) ∧
              Reconciler.bioassembly e = Reconciler.Bioassembly r ∧
              Reconciler.other_cells e = Reconciler.others r) ∧
        Reconciler.Name r ∈ left_1ABC) ∧
  (length (Reconciler.reconcile_frame Z.leb left_1ABC frame_1ABC)
   ≤ length frame_1ABC)%nat.
Proof.
  apply (X22_table_is_sorted_survivors Z.leb left_1ABC frame_1ABC).
  exact Z_leb_total.
Defined.


End ExtraWitnesses.

(** ** The orchestrator when FoldSeek fails *)

Section FoldseekFailure.
Import Py Fs Orchestrator.
Context {F : Type}.
Variable float_of_string : string → option F.
Variable gt : F → F → bool.
Variable stem : string → string.
Variable tm_default : F.
Variable foldseek : list string → gmap string node → process.

Abbreviation run_foldseek_comparison :=
  (run_foldseek_comparison float_of_string gt stem foldseek).
Abbreviation remove_redundant_data :=
  (remove_redundant_data float_of_string gt stem tm_default foldseek).

Hypothesis foldseek_exits_nonzero :
  ∀ cmd fs, ∃ code after, foldseek cmd fs = Exited code after ∧ code ≠ 0.

Lemma failed_run_is_caught cmd fs ran fs' :
  attempt (subprocess_run foldseek cmd) fs = (Ok ran, fs') →
  ran = Raise CalledProcessError.
Proof.
  unfold attempt, subprocess_run.
  destruct (foldseek_exits_nonzero cmd fs) as (code & after & -> & Hcode).
  destruct code; [done|..]; by intros [= <- _].
Qed.

Lemma failed_comparison_is_empty struct_list path tmp_dir thr fs R fs' :
  run_foldseek_comparison struct_list path tmp_dir thr fs = (Ok R, fs') → R = ∅.
Proof.
  unfold Orchestrator.run_foldseek_comparison.
  assert (∀ ws fs1 fs2, (rmtree ws ;; ret (∅ : gset string))%fs fs1 = (Ok R, fs2) →
                        R = ∅) as Hempty.
  { intros ws fs1 fs2. unfold bind, ret.
    pose proof (rmtree_returns ws fs1) as Hr.
    destruct (rmtree ws fs1) as [[[]|e] fs3]; [|done]. by intros [= <- _]. }
  destruct (length struct_list <=? 1)%nat.
  { unfold ret. by intros [= <- _]. }
  intros Hrun.
  apply bind_Ok_inv in Hrun as (first & fs1 & _ & Hrun).
  apply bind_Ok_inv in Hrun as (before_asu & fs2 & _ & Hrun).
  apply bind_Ok_inv in Hrun as (pdb_id & fs3 & _ & Hrun).
  apply bind_Ok_inv in Hrun as ([] & fs4 & _ & Hrun).
  apply bind_Ok_inv in Hrun as ([] & fs5 & _ & Hrun).
  apply bind_Ok_inv in Hrun as (valid & fs6 & _ & Hrun).
  destruct (length valid <=? 1)%nat; [by eapply Hempty|].
  apply bind_Ok_inv in Hrun as ([] & fs7 & _ & Hrun).
  apply bind_Ok_inv in Hrun as (ran & fs8 & Hran & Hrun).
  apply failed_run_is_caught in Hran as ->. by eapply Hempty.
Qed.

(** X24.  A FoldSeek that exits with an error code is not told apart
    from one that finds nothing: whenever the orchestrator returns for a
    group of several structures, its summary is "no redundancy found"
    and the structure directory is as the comparison left it. *)
Theorem X24_foldseek_failure_reads_as_no_redundancy pdb struct_list path
    tmp_base_dir fs0 summary fs' :
  (1 < length struct_list)%nat →
  remove_redundant_data (pdb, struct_list) path tmp_base_dir fs0
    = (Ok summary, fs') →
  summary = NoRedundancy pdb (length struct_list) ∧
  run_foldseek_comparison struct_list path tmp_base_dir tm_default fs0
    = (Ok ∅, fs').
Proof.
  intros Hlen. unfold Orchestrator.remove_redundant_data.
  assert ((length struct_list <=? 1)%nat = false) as -> by (apply Nat.leb_gt; lia).
  intros Hrun.
  apply bind_Ok_inv in Hrun as (R & fs1 & HR & Hrun).
  pose proof (failed_comparison_is_empty _ _ _ _ _ _ _ HR) as ->.
  rewrite elements_empty in Hrun. unfold bind, remove_loop, ret in Hrun.
  by injection Hrun as <- <-.
Qed.

End FoldseekFailure.

Section FoldseekFailureWitness.
Import Py Fs Orchestrator Samples MoreSamples.

Lemma X24_foldseek_failure_reads_as_no_redundancy_witness :
  NoRedundancy "1ABC" 3 = NoRedundancy "1ABC" (length group_1ABC) ∧
  run_foldseek_comparison decimal Z.gtb Str.stem foldseek_fails group_1ABC "db"
    "db/foldseek_tmp" threshold_999 fs_1ABC
  = (Ok ∅, fs_1ABC).
Proof.
  apply (X24_foldseek_failure_reads_as_no_redundancy decimal Z.gtb Str.stem
           threshold_999 foldseek_fails
           ltac:(intros cmd fs; exists 1, fs; split; [reflexivity|discriminate])
           "1ABC" group_1ABC "db" "db/foldseek_tmp" fs_1ABC).
  - simpl. lia.
  - vm_compute. reflexivity.
Defined.

End FoldseekFailureWitness.
